(** * pyFAST [Executor]: a shallow embedding of [src/pyFAST/executor.py]

    The regression-test driver is embedded method by method.  Python
    exceptions become an explicit error type, attribute mutation becomes
    record update, the file tree touched by [shutil] and [os.path] becomes a
    finite map from paths to nodes, and [print] appends to an output log. *)

From Stdlib Require Import ZArith Lia List Bool Ascii String.
From stdpp Require Import base tactics option list gmap strings pretty fin_maps.

Local Open Scope string_scope.
Local Open Scope list_scope.
Local Open Scope Z_scope.

(** ** Exceptions and results *)

Abbreviation path := (list string).

Inductive exn :=
| KeyError (key : string)
| ValueError (msg : string)
| TypeError (msg : string)
| NameError (name : string)
| FileNotFoundError (p : path)
| FileExistsError (p : path)
| IsADirectoryError (p : path)
| NotADirectoryError (p : path)
| SameFileError (p : path)
| ShutilError (p : path)
| AttributeError (name : string)
| IndexError (msg : string)
| OtherError (msg : string).

Inductive res (A : Type) :=
| Ok (a : A)
| Raise (e : exn).
Arguments Ok {A} a.
Arguments Raise {A} e.

Definition is_ok {A} (r : res A) : bool :=
  match r with Ok _ => true | Raise _ => false end.

Definition res_bind {A B} (r : res A) (k : A -> res B) : res B :=
  match r with Ok a => k a | Raise e => Raise e end.

(** [guard o] raises when a validator reports an exception. *)
Definition guard (o : option exn) : res unit :=
  match o with None => Ok tt | Some e => Raise e end.

(** ** [np.ceil(cpu_count() * 0.8)] in binary64

    [cpu_count() * 0.8] converts the integer to a double (exact below
    [2^53]) and multiplies by the double nearest to 0.8, which is
    [m08 * 2^-53]; the product is rounded to a 53-bit significand, ties to
    even.  [np.ceil] and [int] are then exact. *)
Module Binary64.

Definition m08 : Z := 7205759403792794.

(** [x / 2^s] rounded to the nearest integer, ties to even. *)
Definition round_half_even (x s : Z) : Z :=
  let q := x / 2 ^ s in
  let r := x mod 2 ^ s in
  if 2 * r <? 2 ^ s then q
  else if 2 ^ s <? 2 * r then q + 1
  else if Z.even q then q else q + 1.

(** The product as (significand, exponent): value [mant * 2^e]. *)
Definition mul_08 (c : Z) : Z * Z :=
  let p := c * m08 in
  let s := Z.max 0 (Z.log2 p - 52) in
  (round_half_even p s, s - 53).

Definition ceil (x : Z * Z) : Z :=
  let '(mant, e) := x in
  if 0 <=? e then mant * 2 ^ e else - ((- mant) / 2 ^ (- e)).

Definition ceil_mul_08 (c : Z) : Z := ceil (mul_08 c).

End Binary64.

(** The mathematical ceiling of [0.8 * c]. *)
Definition ceil_four_fifths (c : Z) : Z := (4 * c + 4) / 5.

(** ** Strings and paths *)

(** [str.lower] on the ASCII letters.  No non-ASCII character lowers to a
    letter of a compiler name the driver accepts, so byte-wise lowering
    decides membership in the accepted output types exactly as Python does. *)
Definition lower_ascii (a : ascii) : ascii :=
  let n := Ascii.N_of_ascii a in
  if ((65 <=? n) && (n <=? 90))%N then Ascii.ascii_of_N (n + 32) else a.

Fixpoint lower (s : string) : string :=
  match s with
  | EmptyString => EmptyString
  | String a s' => String (lower_ascii a) (lower s')
  end.

(** [s.endswith(suffix)]. *)
Definition endswith (s suffix : string) : bool :=
  let n := String.length s in
  let k := String.length suffix in
  (k <=? n)%nat && String.eqb (String.substring (n - k) k s) suffix.

(** [sep.join(items)]. *)
Fixpoint str_join (sep : string) (items : list string) : string :=
  match items with
  | [] => ""
  | [x] => x
  | x :: rest => x +:+ sep +:+ str_join sep rest
  end.

(** [s.rjust(width)]: pad with spaces on the left. *)
Definition rjust (width : nat) (s : string) : string :=
  String.concat "" (replicate (width - String.length s) " ") +:+ s.

(** [str(i)] for an integer. *)
Definition str_of_Z (i : Z) : string := pretty i.

(** Components of a path string: split on the separator, dropping empty
    components and single dots as [pathlib] does.  Paths are kept as
    component lists below the file-system root throughout. *)
Fixpoint components (cur s : string) : list string :=
  match s with
  | EmptyString => [cur]
  | String a s' =>
      if Ascii.eqb a "/" then cur :: components "" s'
      else components (cur +:+ String a "") s'
  end.

Definition parts (s : string) : path :=
  List.filter (fun c => negb (String.eqb c "") && negb (String.eqb c "."))
              (components "" s).

(** A value that is either a [str] or a [pathlib.Path].  Python never
    finds a [str] equal to a [Path], whatever they spell. *)
Inductive pathlike :=
| Str (s : string)
| PurePath (p : path).

Definition Path (x : pathlike) : pathlike :=
  match x with
  | Str s => PurePath (parts s)
  | PurePath p => PurePath p
  end.

(** [os.fspath] followed by splitting: the components a path-like names. *)
Definition fspath (x : pathlike) : path :=
  match x with
  | Str s => parts s
  | PurePath p => p
  end.

Definition pathlike_eqb (x y : pathlike) : bool :=
  match x, y with
  | Str s, Str t => String.eqb s t
  | PurePath p, PurePath q => bool_decide (p = q)
  | _, _ => false
  end.

(** [os.path.join(base, *names)] on component lists. *)
Definition join (base : path) (names : list string) : path := base ++ names.

(** ** The case catalog *)

Inductive category := regression | linear | beamdyn.

Global Instance category_eq_dec : EqDecision category.
Proof. solve_decision. Defined.

Definition SYSTEM_MAP : list (string * string) :=
  [("Darwin", "macos"); ("Linux", "linux"); ("Windows", "windows")].

Definition CASE_MAP : list (string * category) :=
  [ ("5MW_ITIBarge_DLL_WTurb_WavesIrr", regression);
    ("5MW_Land_BD_DLL_WTurb", regression);
    ("5MW_Land_BD_Linear", linear);
    ("5MW_Land_DLL_WTurb", regression);
    ("5MW_OC3Mnpl_DLL_WTurb_WavesIrr", regression);
    ("5MW_OC3Spar_DLL_WTurb_WavesIrr", regression);
    ("5MW_OC3Trpd_DLL_WSt_WavesReg", regression);
    ("5MW_OC4Jckt_DLL_WTurb_WavesIrr_MGrowth", regression);
    ("5MW_OC4Semi_WSt_WavesWN", regression);
    ("5MW_TLP_DLL_WTurb_WavesIrr_WavesMulti", regression);
    ("AOC_WSt", regression);
    ("AOC_YFix_WSt", regression);
    ("AOC_YFree_WTurb", regression);
    ("AWT_WSt_StartUpShutDown", regression);
    ("AWT_WSt_StartUp_HighSpShutDown", regression);
    ("AWT_YFix_WSt", regression);
    ("AWT_YFree_WSt", regression);
    ("AWT_YFree_WTurb", regression);
    ("Ideal_Beam_Fixed_Free_Linear", linear);
    ("Ideal_Beam_Free_Free_Linear", linear);
    ("SWRT_YFree_VS_EDC01", regression);
    ("SWRT_YFree_VS_EDG01", regression);
    ("SWRT_YFree_VS_WTurb", regression);
    ("UAE_Dnwind_YRamp_WSt", regression);
    ("UAE_Upwind_Rigid_WRamp_PwrCurve", regression);
    ("WP_Stationary_Linear", linear);
    ("WP_VSP_ECD", regression);
    ("WP_VSP_WTurb", regression);
    ("WP_VSP_WTurb_PitchFail", regression);
    ("bd_5MW_dynamic", beamdyn);
    ("bd_5MW_dynamic_gravity_Az00", beamdyn);
    ("bd_5MW_dynamic_gravity_Az90", beamdyn);
    ("bd_curved_beam", beamdyn);
    ("bd_isotropic_rollup", beamdyn);
    ("bd_static_cantilever_beam", beamdyn);
    ("bd_static_twisted_with_k1", beamdyn) ].

(** [d[key]] on a dictionary literal: the value, or [KeyError]. *)
Fixpoint dict_get {V} (d : list (string * V)) (key : string) : res V :=
  match d with
  | [] => Raise (KeyError key)
  | (k, v) :: d' => if String.eqb k key then Ok v else dict_get d' key
  end.

(** [[*d]]: the keys in insertion order. *)
Definition dict_keys {V} (d : list (string * V)) : list string := map fst d.

(** [x in seq] for strings. *)
Definition str_in (x : string) (seq : list string) : bool :=
  existsb (String.eqb x) seq.

(** ** The [Executor] object *)

(** The [case] argument: a single name (with ["all"] standing for the whole
    catalog) or a list of names. *)
Inductive case_arg :=
| CaseStr (name : string)
| CaseList (names : list string).

(** Constructor arguments.  [tolerance] and [plot_path] are stored by the
    constructor and read by no method embedded here; they are left out. *)
Record args := {
  a_case : case_arg;
  a_executable : list string;
  a_source : pathlike;
  a_compiler : string;
  a_system : option string;
  a_plot : Z;
  a_execution : bool;
  a_verbose : bool;
  a_jobs : Z
}.

(** Attributes of an [Executor].  [inputs], [outputs] and [test_build] do
    not exist until [_build_directory_references] has assigned them. *)
Record Executor := {
  case : list string;
  compiler : string;
  output_type : string;
  source : path;
  build : path;
  verbose : bool;
  execution : bool;
  plot : Z;
  jobs : Z;
  rtest : path;
  module : path;
  of_executable : pathlike;
  bd_executable : pathlike;
  inputs : option (list path);
  outputs : option (list path);
  test_build : option (list path)
}.

Definition set_output_type (self : Executor) (v : string) : Executor :=
  {| case := case self; compiler := compiler self; output_type := v;
     source := source self; build := build self; verbose := verbose self;
     execution := execution self; plot := plot self; jobs := jobs self;
     rtest := rtest self; module := module self;
     of_executable := of_executable self; bd_executable := bd_executable self;
     inputs := inputs self; outputs := outputs self;
     test_build := test_build self |}.

Definition set_jobs (self : Executor) (v : Z) : Executor :=
  {| case := case self; compiler := compiler self;
     output_type := output_type self;
     source := source self; build := build self; verbose := verbose self;
     execution := execution self; plot := plot self; jobs := v;
     rtest := rtest self; module := module self;
     of_executable := of_executable self; bd_executable := bd_executable self;
     inputs := inputs self; outputs := outputs self;
     test_build := test_build self |}.

Definition set_references (self : Executor) (i o t : list path) : Executor :=
  {| case := case self; compiler := compiler self;
     output_type := output_type self;
     source := source self; build := build self; verbose := verbose self;
     execution := execution self; plot := plot self; jobs := jobs self;
     rtest := rtest self; module := module self;
     of_executable := of_executable self; bd_executable := bd_executable self;
     inputs := Some i; outputs := Some o; test_build := Some t |}.

Global Instance res_ret : MRet res := @Ok.
Global Instance res_mbind : MBind res := fun A B k r => res_bind r k.

(** A method that prints: the lines written, and the outcome. *)
Definition printing (A : Type) : Type := list string * res A.

(** The accepted output types, [_opts] of [_validate_inputs]. *)
Definition output_type_opts : list string :=
  ["macos-gnu"; "linux-intel"; "linux-gnu"; "windows-intel"].

Definition fallback_message : string :=
  "Defaulting to macos-gnu for output type".

(** The loop of [__init__] over [executable]. *)
Definition select_executables (src : pathlike) (executable : list string)
  : pathlike * pathlike :=
  fold_left
    (fun (acc : pathlike * pathlike) exe =>
       if endswith exe "openfast" then (Path (Str exe), snd acc)
       else if endswith exe "beamdyn_driver" then (fst acc, Path (Str exe))
       else acc)
    executable (src, src).

(** The last element of a list passing a test, and the executable it
    stands for: the source argument when there is none. *)
Definition last_such (test : string -> bool) (l : list string) : option string :=
  last (List.filter test l).

Definition executable_or (src : pathlike) (exe : option string) : pathlike :=
  match exe with Some e => Path (Str e) | None => src end.

(** The case list [__init__] derives from its [case] argument. *)
Definition case_list_of (c : case_arg) : list string :=
  match c with
  | CaseStr name => if String.eqb name "all" then dict_keys CASE_MAP else [name]
  | CaseList names => names
  end.

Section Construction.

(** The host: [platform.system()], [multiprocessing.cpu_count()], and the
    two validators of [pyfast.utilities], whose source is not part of the
    repository snapshot.  A validator yields [None] when it returns and
    [Some e] when it raises [e]. *)
Variable platform_system : string.
Variable cpu_count : Z.
Variable validate_executable : pathlike -> option exn.
Variable validate_directory : path -> option exn.

(** The first statement of [_validate_inputs]: the output-type fallback. *)
Definition validate_output_type (self : Executor) : list string * Executor :=
  if negb (str_in (output_type self) output_type_opts)
  then ([fallback_message], set_output_type self "macos-gnu")
  else ([], self).

(** The last four statements of [_validate_inputs]. *)
Definition resolve_jobs (self : Executor) : res Executor :=
  if jobs self <? -1 then Raise (ValueError "Input 'jobs' cannot be negative!")
  else
    let self := if jobs self =? -1
                then set_jobs self (Binary64.ceil_mul_08 cpu_count) else self in
    let self := if 0 <? jobs self
                then set_jobs self (Z.min (jobs self) cpu_count) else self in
    let self := if Z.of_nat (length (case self)) <? jobs self
                then set_jobs self (Z.of_nat (length (case self))) else self in
    Ok self.

(** The statements between the fallback and the job count: the two
    executables, the build directory and the plot flag. *)
Definition validate_paths_and_plot (self : Executor) : res unit :=
  _ ← (if negb (pathlike_eqb (bd_executable self) (PurePath (source self)))
       then guard (validate_executable (bd_executable self)) else Ok tt);
  _ ← (if negb (pathlike_eqb (of_executable self) (PurePath (source self)))
       then guard (validate_executable (of_executable self)) else Ok tt);
  _ ← guard (validate_directory (build self));
  if negb (bool_decide (plot self ∈ [0; 1; 2]))
  then Raise (ValueError "Input 'plot' must be one of (0, 1, 2)!")
  else Ok tt.

Definition _validate_inputs (self : Executor) : printing Executor :=
  let '(out, self) := validate_output_type self in
  (out, _ ← validate_paths_and_plot self; resolve_jobs self).

(** The attributes [__init__] assigns before it validates them. *)
Definition init_object (a : args) (system : string) : Executor :=
  let source := fspath (Path (a_source a)) in
  let rtest := join source ["reg_tests"; "r-test"] in
  let exes := select_executables (a_source a) (a_executable a) in
  {| case := case_list_of (a_case a);
     compiler := a_compiler a;
     output_type := str_join "-" [system; lower (a_compiler a)];
     source := source;
     build := join source ["build"];
     verbose := a_verbose a;
     execution := a_execution a;
     plot := a_plot a;
     jobs := if a_jobs a =? 0 then -1 else a_jobs a;
     rtest := rtest;
     module := join rtest ["glue-codes"; "openfast"];
     of_executable := fst exes;
     bd_executable := snd exes;
     inputs := None; outputs := None; test_build := None |}.

Definition __init__ (a : args) : printing Executor :=
  let key := default platform_system (a_system a) in
  match dict_get SYSTEM_MAP key with
  | Raise e => ([], Raise e)
  | Ok system => _validate_inputs (init_object a system)
  end.

(** The inputs other than [jobs] pass their checks: the system is known
    and neither validator nor the plot check raises. *)
Definition paths_and_plot_valid (a : args) : Prop :=
  ∃ system,
    dict_get SYSTEM_MAP (default platform_system (a_system a)) = Ok system
    ∧ validate_paths_and_plot (init_object a system) = Ok tt.

End Construction.

(** ** The file tree

    The tree is a finite map from paths to nodes.  Only file contents and
    directory structure are kept: [shutil.copy] and [shutil.copy2] differ in
    metadata alone and share one definition. *)

Inductive node :=
| File (content : string)
| Dir.

Global Instance node_eq_dec : EqDecision node.
Proof. solve_decision. Defined.

Abbreviation tree := (gmap path node).

Definition isdir (t : tree) (p : path) : bool :=
  match t !! p with Some Dir => true | _ => false end.

Definition isfile (t : tree) (p : path) : bool :=
  match t !! p with Some (File _) => true | _ => false end.

(** A tree in which every entry sits in a directory. *)
Definition well_formed (t : tree) : Prop :=
  ∀ p name, is_Some (t !! (p ++ [name])) → t !! p = Some Dir.

Fixpoint strip_prefix (p q : path) : option path :=
  match p, q with
  | [], _ => Some q
  | a :: p', b :: q' => if String.eqb a b then strip_prefix p' q' else None
  | _ :: _, [] => None
  end.

Definition child_name (p q : path) : option string :=
  match strip_prefix p q with
  | Some [name] => Some name
  | _ => None
  end.

(** The entry names of directory [p]; the order is the map's, as arbitrary
    as the order of [os.listdir]. *)
Definition children (t : tree) (p : path) : list string :=
  omap (child_name p) (elements (dom t)).

Definition listdir (t : tree) (p : path) : res (list string) :=
  match t !! p with
  | Some Dir => Ok (children t p)
  | Some (File _) => Raise (NotADirectoryError p)
  | None => Raise (FileNotFoundError p)
  end.

Definition basename (p : path) : string := List.last p "".
Definition dirname (p : path) : path := removelast p.

(** All prefixes of a path, the path itself included. *)
Definition prefixes (p : path) : list path :=
  map (fun k => take k p) (seq 0 (S (length p))).

(** [os.makedirs(p)]: every missing ancestor is created; an existing [p]
    is an error. *)
Definition makedirs (t : tree) (p : path) : res tree :=
  if bool_decide (is_Some (t !! p)) then Raise (FileExistsError p)
  else if existsb (isfile t) (prefixes p) then Raise (NotADirectoryError p)
  else Ok (foldr (fun q acc => <[q := Dir]> acc) t (prefixes p)).

(** [shutil.copy(src, dst)] and [shutil.copy2(src, dst)]: a directory as
    destination receives the file under its own name; an existing
    destination file is replaced. *)
Definition copy (t : tree) (src dst : path) : res tree :=
  let dst := if isdir t dst then dst ++ [basename src] else dst in
  match t !! src with
  | None => Raise (FileNotFoundError src)
  | Some Dir => Raise (IsADirectoryError src)
  | Some (File content) =>
      if bool_decide (src = dst) then Raise (SameFileError src)
      else match t !! dst with
           | Some Dir => Raise (IsADirectoryError dst)
           | _ => if isdir t (dirname dst)
                  then Ok (<[dst := File content]> t)
                  else Raise (FileNotFoundError dst)
           end
  end.

(** Whether [copytree] skips the entry [rel] below directory [d]: some
    component on the way is named by [ignore] at its own directory. *)
Fixpoint ignored (ignore : path -> list string -> list string)
    (t : tree) (d rel : path) : bool :=
  match rel with
  | [] => false
  | name :: rel' =>
      str_in name (ignore d (children t d))
      || ignored ignore t (d ++ [name]) rel'
  end.

(** The entries [copytree] writes: every entry strictly below [src] that
    is not skipped, moved below [dst]. *)
Definition copied (ignore : path -> list string -> list string)
    (t : tree) (src dst : path) : tree :=
  list_to_map
    (omap (fun qn : path * node =>
             match strip_prefix src (fst qn) with
             | Some (name :: rel) =>
                 if ignored ignore t src (name :: rel) then None
                 else Some (dst ++ name :: rel, snd qn)
             | _ => None
             end)
          (map_to_list t)).

(** [shutil.copytree(src, dst, ignore=ignore)].  The destination must not
    exist, so on a well-formed tree no copied entry meets an existing one
    (lemma [copytree_replaces_nothing]).  Copying a directory into itself
    is reported as an error. *)
Definition copytree (ignore : path -> list string -> list string)
    (t : tree) (src dst : path) : res tree :=
  match t !! src with
  | None => Raise (FileNotFoundError src)
  | Some (File _) => Raise (NotADirectoryError src)
  | Some Dir =>
      if bool_decide (is_Some (strip_prefix src dst)) then Raise (ShutilError dst)
      else t1 ← makedirs t dst; Ok (t1 ∪ copied ignore t src dst)
  end.

Definition no_ignore : path -> list string -> list string := fun _ _ => [].

(** Two paths of which one is an ancestor of the other, or the same. *)
Definition related (p q : path) : Prop := p `prefix_of` q ∨ q `prefix_of` p.

(** [evolves writes region t t']: the tree [t'] comes from [t] by steps
    that either add entries inside [region], keeping every entry there is,
    or write the content of a file [src] to a path [d] inside [region] that
    is not a directory, for a pair [writes src d]. *)
Inductive evolves (writes : path -> path -> Prop) (region : path -> Prop)
  : tree -> tree -> Prop :=
| evolves_refl t : evolves writes region t t
| evolves_extend t t' t'' :
    t ⊆ t' →
    (∀ p, t !! p = None → is_Some (t' !! p) → region p) →
    evolves writes region t' t'' →
    evolves writes region t t''
| evolves_write t src d content t'' :
    t !! src = Some (File content) →
    t !! d ≠ Some Dir →
    writes src d → region d →
    evolves writes region (<[d := File content]> t) t'' →
    evolves writes region t t''.

(** The file at [d] is a copy of the file at [src]. *)
Definition synced (t : tree) (src d : path) : Prop :=
  ∃ content, t !! src = Some (File content) ∧ t !! d = Some (File content).

(** ** A state-and-exception monad for the methods that touch the world *)

Definition M (S A : Type) : Type := S -> S * res A.

Definition m_ret {S A} (a : A) : M S A := fun s => (s, Ok a).
Definition m_raise {S A} (e : exn) : M S A := fun s => (s, Raise e).
Definition m_bind {S A B} (m : M S A) (k : A -> M S B) : M S B :=
  fun s => match m s with
           | (s', Ok a) => k a s'
           | (s', Raise e) => (s', Raise e)
           end.
Definition m_lift {S A} (r : res A) : M S A := fun s => (s, r).

Notation "x <~ m ;; k" := (m_bind m (fun x => k))
  (at level 63, m at next level, right associativity).
Notation "m ;;; k" := (m_bind m (fun _ => k))
  (at level 63, right associativity).

(** [for x in xs: body(x)]. *)
Fixpoint m_for {S A} (xs : list A) (body : A -> M S unit) : M S unit :=
  match xs with
  | [] => m_ret tt
  | x :: xs' => body x ;;; m_for xs' body
  end.

(** [[f(x) for x in xs]], in order. *)
Fixpoint m_map {S A B} (f : A -> M S B) (xs : list A) : M S (list B) :=
  match xs with
  | [] => m_ret []
  | x :: xs' => y <~ f x ;; ys <~ m_map f xs' ;; m_ret (y :: ys)
  end.

(** A file-tree primitive as a step: the tree changes only on success. *)
Definition fs_step (op : tree -> res tree) : M tree unit :=
  fun t => match op t with
           | Ok t' => (t', Ok tt)
           | Raise e => (t, Raise e)
           end.

(** [when c m]: [if c: m]. *)
Definition m_when {S} (c : bool) (m : M S unit) : M S unit :=
  if c then m else m_ret tt.

(** [getattr]: an attribute read that fails before assignment. *)
Definition attr {A} (name : string) (o : option A) : res A :=
  match o with Some a => Ok a | None => Raise (AttributeError name) end.

(** [seq.index(x)]. *)
Fixpoint list_index (x : string) (seq : list string) : option nat :=
  match seq with
  | [] => None
  | y :: seq' => if String.eqb y x then Some O else S <$> list_index x seq'
  end.

(** [seq[i]]. *)
Definition item {A} (seq : list A) (i : nat) : res A :=
  match seq !! i with Some a => Ok a | None => Raise (IndexError "list index out of range") end.

(** [list(zip(xs, ys))]. *)
Definition zip2 {A B} (xs : list A) (ys : list B) : list (A * B) := combine xs ys.
Definition zip3 {A B C} (xs : list A) (ys : list B) (zs : list C)
  : list (A * B * C) := combine (combine xs ys) zs.

(** ** [_build_directory_references] *)

Definition input_directory (self : Executor) (c : string) (cat : category) : path :=
  if bool_decide (cat = beamdyn)
  then join (rtest self) ["modules"; "beamdyn"; c]
  else join (module self) [c].

(** The category of a registered case, and the three directories the loop
    derives for it. *)
Definition category_of (c : string) : category :=
  match dict_get CASE_MAP c with Ok cat => cat | Raise _ => regression end.

Definition input_of (self : Executor) (c : string) : path :=
  input_directory self c (category_of c).
Definition output_of (self : Executor) (c : string) : path :=
  join (input_of self c) [output_type self].
Definition test_of (self : Executor) (c : string) : path :=
  join (build self) ["local_results"; c].

Definition registered (c : string) : Prop := c ∈ dict_keys CASE_MAP.

(** One turn of the loop: the [i]-th case is appended to the three lists. *)
Definition add_reference (ic : nat * string) : M Executor unit :=
  fun self =>
    let '(i, c) := ic in
    match dict_get CASE_MAP c with
    | Raise e => (self, Raise e)
    | Ok cat =>
        match attr "inputs" (inputs self), attr "outputs" (outputs self),
              attr "test_build" (test_build self) with
        | Ok ins, Ok outs, Ok tests =>
            let ins := ins ++ [input_directory self c cat] in
            match item ins i with
            | Raise e => (set_references self ins outs tests, Raise e)
            | Ok input_i =>
                (set_references self ins
                   (outs ++ [join input_i [output_type self]])
                   (tests ++ [join (build self) ["local_results"; c]]),
                 Ok tt)
            end
        | Raise e, _, _ | _, Raise e, _ | _, _, Raise e => (self, Raise e)
        end
    end.

Definition enumerate {A} (xs : list A) : list (nat * A) :=
  combine (seq 0 (length xs)) xs.

Definition _build_directory_references : M Executor unit :=
  fun self =>
    let self := set_references self [] [] [] in
    m_for (enumerate (case self)) add_reference self.

(** ** Materialization: [_build_test_output_directories] and its helpers *)

Section Materialize.

(** The working directory of the process and [ignore_baseline] of
    [pyfast.utilities], the [ignore] callback handed to [copytree]. *)
Variable cwd : path.
Variable ignore_baseline : path -> list string -> list string.

Definition bd_files : list string :=
  ["bd_driver.inp"; "bd_primary.inp"; "beam_props.inp"].

Definition _build_beamdyn_output_directories (self : Executor)
    (_to_build : list string) : M tree unit :=
  m_for _to_build (fun c =>
    match list_index c (case self) with
    | None => m_raise (ValueError "not in list")
    | Some ix =>
        ins <~ m_lift (attr "inputs" (inputs self)) ;;
        in_dir <~ m_lift (item ins ix) ;;
        tests <~ m_lift (attr "test_build" (test_build self)) ;;
        test <~ m_lift (item tests ix) ;;
        m_for bd_files (fun bd_file =>
          fs_step (fun t => copy t (join in_dir [bd_file]) test))
    end).

(** The three controller libraries, as path components, and the name each
    is checked under, [f.split("/")[-1]]. *)
Definition dll_files : list (list string) :=
  [ ["DISCON"; "build"; "DISCON.dll"];
    ["DISCON_ITI"; "build"; "DISCON_ITIBarge.dll"];
    ["DISCON_OC3"; "build"; "DISCON_OC3Hywind.dll"] ].

Definition _check_5MW_dll_files (self : Executor) : M tree unit :=
  let src := join (module self) ["5MW_Baseline"; "ServoData"] in
  let target := join (build self) ["local_results"; "5MW_Baseline"; "ServoData"] in
  (fun t => m_when (negb (isdir t target)) (fs_step (fun t => makedirs t target)) t) ;;;
  m_for dll_files (fun f =>
    let to_copy := join src f in
    let _check := join target [List.last f ""] in
    fun t => m_when (negb (isfile t _check))
               (fs_step (fun t => copy t to_copy target)) t).

Definition _build_5MW_directories (self : Executor) : M tree unit :=
  let src := join (module self) ["5MW_Baseline"] in
  let target := join (build self) ["local_results"; "5MW_Baseline"] in
  fun t =>
    if negb (isdir t target) then fs_step (fun t => copytree no_ignore t src target) t
    else
      (names <~ (fun t => (t, listdir t src)) ;;
       m_for names (fun name =>
         if String.eqb name "ServoData" then m_ret tt
         else
           let _source := join src [name] in
           let _target := join target [name] in
           fun t =>
             if isdir t _source
             then m_when (negb (isdir t _target))
                    (fs_step (fun t => copytree no_ignore t _source _target)) t
             else fs_step (fun t => copy t _source _target) t)) t.

(** [os.path.isfile(f)] is asked about the bare entry name, which the
    operating system resolves against the working directory. *)
Definition _build_test_directory (self : Executor) : M tree unit :=
  ins <~ m_lift (attr "inputs" (inputs self)) ;;
  tests <~ m_lift (attr "test_build" (test_build self)) ;;
  m_for (zip2 ins tests) (fun '(input_dir, test_dir) =>
    fun t =>
      if negb (isdir t test_dir)
      then fs_step (fun t => copytree ignore_baseline t input_dir test_dir) t
      else
        (names <~ (fun t => (t, listdir t input_dir)) ;;
         m_for names (fun f =>
           fun t => m_when (isfile t (cwd ++ [f]))
                      (fs_step (fun t => copy t (join input_dir [f]) test_dir)) t)) t).

Definition _linear : list string := ["Ideal_Beam"; "WP_Baseline"].
Definition _regression : list string :=
  ["AOC"; "AWT27"; "SWRT"; "UAE_VI"; "WP_Baseline"].

(** [[f(x) for x in xs]] for a lookup that may raise. *)
Fixpoint res_map {A B} (f : A -> res B) (xs : list A) : res (list B) :=
  match xs with
  | [] => Ok []
  | x :: xs' => y ← f x; ys ← res_map f xs'; Ok (y :: ys)
  end.

(** The loop [for data in directories] of
    [_build_test_output_directories]. *)
Definition copy_shared_directories (self : Executor) (directories : list string)
  : M tree unit :=
  m_for directories (fun data =>
    let _dir := join (build self) ["local_results"; data] in
    fun t => m_when (negb (isdir t _dir))
               (fs_step (fun t => copytree no_ignore t
                                    (join (module self) [data]) _dir)) t).

(** The list [_to_build_beamdyn]: the beamdyn cases of the plan, in order. *)
Definition beamdyn_cases (self : Executor) : res (list string) :=
  cats ← res_map (fun c => cat ← dict_get CASE_MAP c; Ok (c, cat)) (case self);
  Ok (map fst (List.filter (fun cc => bool_decide (snd cc = beamdyn)) cats)).

(** The list [_to_build_5mw] of the source is computed and never read; it
    is not bound here. *)
Definition _build_test_output_directories (self : Executor) : M tree unit :=
  case_types <~ m_lift (res_map (dict_get CASE_MAP) (case self)) ;;
  let directories :=
    (if bool_decide (linear ∈ case_types) then _linear else [])
    ++ (if bool_decide (regression ∈ case_types) then _regression else []) in
  _to_build_beamdyn <~
    (if bool_decide (beamdyn ∈ case_types)
     then m_lift (beamdyn_cases self)
     else m_ret []) ;;
  copy_shared_directories self directories ;;;
  _build_test_directory self ;;;
  _build_beamdyn_output_directories self _to_build_beamdyn ;;;
  _check_5MW_dll_files self ;;;
  _build_5MW_directories self.

End Materialize.

(** ** Vocabulary for the facts about materialization *)

Definition local_results (self : Executor) : path :=
  join (build self) ["local_results"].
Definition baseline_source (self : Executor) : path :=
  join (module self) ["5MW_Baseline"].
Definition baseline_target (self : Executor) : path :=
  local_results self ++ ["5MW_Baseline"].
Definition servo_target (self : Executor) : path :=
  baseline_target self ++ ["ServoData"].

(** The part of the tree the materialization may touch through entries of
    [local_results] whose name satisfies [P]: such an entry and what is
    below it, and the directories on the way to [local_results]. *)
Definition workspace (self : Executor) (P : string -> Prop) (p : path) : Prop :=
  p `prefix_of` local_results self
  ∨ ∃ name rest, P name ∧ p = local_results self ++ name :: rest.

(** The directory attributes as [__init__] derives them from one root. *)
Definition standard_layout (self : Executor) : Prop :=
  ∃ root,
    build self = root ++ ["build"]
    ∧ rtest self = root ++ ["reg_tests"; "r-test"]
    ∧ module self = root ++ ["reg_tests"; "r-test"; "glue-codes"; "openfast"].

(** The state [_build_directory_references] leaves on registered cases. *)
Definition referenced (self : Executor) : Prop :=
  Forall registered (case self)
  ∧ inputs self = Some (map (input_of self) (case self))
  ∧ test_build self = Some (map (test_of self) (case self)).

(** No entry name of a case's input directory names a file in the working
    directory. *)
Definition no_cwd_clash (cwd : path) (self : Executor) (t : tree) : Prop :=
  ∀ c f, c ∈ case self → f ∈ children t (input_of self c) →
         isfile t (cwd ++ [f]) = false.

(** An entry [name] of the 5MW baseline folder is in place: a directory
    has its counterpart, a file has its copy where [_build_5MW_directories]
    writes it. *)
Definition baseline_entry_settled (self : Executor) (t : tree) (name : string)
  : Prop :=
  if isdir t (baseline_source self ++ [name])
  then isdir t (baseline_target self ++ [name]) = true
  else synced t (baseline_source self ++ [name])
         (if isdir t (baseline_target self ++ [name])
          then baseline_target self ++ [name; name]
          else baseline_target self ++ [name]).

(** Every build directory of the plan is a directory. *)
Definition build_directories_exist (self : Executor) (t : tree) : Prop :=
  ∀ c, c ∈ case self → isdir t (test_of self c) = true.

(** The writes of [_build_beamdyn_output_directories] and of the file
    branch of [_build_5MW_directories]. *)
Definition beamdyn_writes (self : Executor) (src d : path) : Prop :=
  ∃ c bd, registered c
          ∧ src = input_of self c ++ [bd] ∧ d = test_of self c ++ [bd].

Definition baseline_writes (self : Executor) (src d : path) : Prop :=
  ∃ name, name ≠ "ServoData"
          ∧ src = baseline_source self ++ [name]
          ∧ (d = baseline_target self ++ [name]
             ∨ d = baseline_target self ++ [name; name]).

(** ** Dispatch: [_run_single_case], [_run_openfast_cases], [run] *)

(** What the process acts on besides the object itself: the file tree, the
    lines printed, and the external commands started (executable and input
    file), oldest first. *)
Record world := {
  w_tree : tree;
  w_out : list string;
  w_launched : list (pathlike * path)
}.

Definition nl : string := String (Ascii.ascii_of_nat 10) "".

Section Dispatch.

Variable cwd : path.
Variable ignore_baseline : path -> list string -> list string.

(** [run_openfast_case] of [pyfast.utilities]: started with the executable,
    the input file, the ordinal label, the case name and the two flags, it
    acts on the file tree and yields the exit code. *)
Variable run_openfast_case :
  pathlike -> path -> string -> string -> bool -> bool -> tree -> tree * Z.

Definition _run_single_case (self : Executor) (args : string * string * path)
  : M world (Z * string * string) :=
  let '(ix, c, test_build) := args in
  cat <~ m_lift (dict_get CASE_MAP c) ;;
  let is_beamdyn := bool_decide (cat = beamdyn) in
  let exe := if is_beamdyn then bd_executable self else of_executable self in
  let case_input :=
    if is_beamdyn then join test_build ["bd_driver.inp"]
    else join test_build [c +:+ ".fst"] in
  fun w =>
    let '(t, code) :=
      run_openfast_case exe case_input ix c (verbose self) is_beamdyn (w_tree w) in
    ({| w_tree := t; w_out := w_out w;
        w_launched := w_launched w ++ [(exe, case_input)] |},
     Ok (code, ix, c)).

(** [Pool(processes)] refuses fewer than one worker. *)
Definition Pool (processes : Z) : res Z :=
  if processes <? 1 then Raise (ValueError "Number of processes must be at least 1")
  else Ok processes.

(** The ordinal labels ["i/n"], [i] from 1. *)
Definition ordinal_labels (n_cases : nat) : list string :=
  map (fun i => str_of_Z (Z.of_nat i) +:+ "/" +:+ str_of_Z (Z.of_nat n_cases))
      (seq 1 n_cases).

(** The worker count handed to [Pool]. *)
Definition pool_size (self : Executor) : Z := jobs self.

(** The value of the local [results]: [pool.map] hands the tasks out and
    returns their results in the order of the arguments.  A worker raises
    only for an unregistered case name. *)
Definition dispatch (self : Executor) : M world (list (Z * string * string)) :=
  let n_cases := length (case self) in
  let ix := ordinal_labels n_cases in
  tests <~ m_lift (attr "test_build" (test_build self)) ;;
  let arguments := zip3 ix (case self) tests in
  _ <~ m_lift (Pool (pool_size self)) ;;
  m_map (_run_single_case self) arguments.

Definition print (line : string) : M world unit :=
  fun w => ({| w_tree := w_tree w; w_out := w_out w ++ [line];
               w_launched := w_launched w |}, Ok tt).

(** The tally loop over [results]. *)
Definition tally (results : list (Z * string * string)) : string * Z :=
  fold_left
    (fun (acc : string * Z) (r : Z * string * string) =>
       let '(code, ix, c) := r in
       if negb (code =? 0)
       then (str_join (nl +:+ "  ")
               [fst acc; rjust 6 (hd "" (components "" ix)) +:+ ": " +:+ c],
             snd acc)
       else (fst acc, snd acc + 1))
    results ("    Failed cases:", 0).

Definition _run_openfast_cases (self : Executor) : M world unit :=
  let n_cases := Z.of_nat (length (case self)) in
  results <~ dispatch self ;;
  let '(fail, success) := tally results in
  print (nl +:+ nl +:+ "    " +:+ str_of_Z success +:+ "/" +:+ str_of_Z n_cases
         +:+ " test cases passed") ;;;
  m_when (negb (success =? n_cases)) (print (nl +:+ fail)).

Definition on_tree {A} (m : M tree A) : M world A :=
  fun w => let '(t, r) := m (w_tree w) in
           ({| w_tree := t; w_out := w_out w; w_launched := w_launched w |}, r).

(** [run]: the object and the world it acts on. *)
Definition run : M (Executor * world) unit :=
  fun sw =>
    let '(self, w) := sw in
    match _build_directory_references self with
    | (self, Raise e) => ((self, w), Raise e)
    | (self, Ok _) =>
        if execution self
        then
          let '(w, r) :=
            (on_tree (_build_test_output_directories cwd ignore_baseline self) ;;;
             _run_openfast_cases self) w in
          ((self, w), r)
        else ((self, w), Ok tt)
    end.

(** [after_runs self self']: the object [self'] is [self] after some number
    of calls of [run], in whatever worlds. *)
Inductive after_runs : Executor -> Executor -> Prop :=
| after_none self : after_runs self self
| after_run self self1 self2 w w' r :
    after_runs self self1 →
    run (self1, w) = ((self2, w'), r) →
    after_runs self self2.

End Dispatch.

(** ** Reading the outputs: [read_out_files] *)

(** A function object with its number of positional parameters.  Calling
    it with another number of arguments is a [TypeError]. *)
Inductive out_files_function :=
| Fun0 (body : res (option path * option path))
| Fun3 (body : string -> path -> path -> res (option path * option path)).

Definition call3 (f : out_files_function) (a : string) (b c : path)
  : res (option path * option path) :=
  match f with
  | Fun0 _ => Raise (TypeError "takes 0 positional arguments but 3 were given")
  | Fun3 body => body a b c
  end.

Section ReadOutFiles.

(** [validate_file] and [load_output] of [pyfast.utilities]; the loaded
    data and the channel information are opaque. *)
Variables Data Info : Type.
Variable validate_file : path -> option exn.
Variable load_output : path -> res (Data * Info).

Definition _get_linear_out_files : out_files_function :=
  Fun0 (Ok (None, None)).

Definition _get_regression_out_files : out_files_function :=
  Fun3 (fun c out_dir baseline_dir =>
    let case_file := c +:+ ".outb" in
    let local := join out_dir [case_file] in
    let baseline := join baseline_dir [case_file] in
    _ ← res_map (fun f => guard (validate_file f)) [local; baseline];
    Ok (Some local, Some baseline)).

Definition _get_beamdyn_out_files : out_files_function :=
  Fun3 (fun c out_dir baseline_dir =>
    let local := join out_dir ["bd_driver.out"] in
    let baseline := join baseline_dir ["bd_driver.out"] in
    _ ← res_map (fun f => guard (validate_file f)) [local; baseline];
    Ok (Some local, Some baseline)).

Definition FUNC_MAP (cat : category) : out_files_function :=
  match cat with
  | linear => _get_linear_out_files
  | regression => _get_regression_out_files
  | beamdyn => _get_beamdyn_out_files
  end.

Definition load_output_of (file : option path) : res (Data * Info) :=
  match file with
  | Some p => load_output p
  | None => Raise (TypeError "expected str, bytes or os.PathLike object, not NoneType")
  end.

(** The three lists being filled: [case_list], [baseline_list], [test_list]. *)
Definition out_lists : Type :=
  list string * list (Data * Info) * list (Data * Info).

(** One turn of the loop of [read_out_files]. *)
Definition read_one (acc : out_lists) (item : string * path * path) : res out_lists :=
  let '(case_list, baseline_list, test_list) := acc in
  let '(c, out_dir, target) := item in
  cat ← dict_get CASE_MAP c;
  '(local, baseline) ← call3 (FUNC_MAP cat) c out_dir target;
  match local, baseline with
  | None, None => Ok acc
  | _, _ =>
      test ← load_output_of local;
      base ← load_output_of baseline;
      Ok (case_list ++ [c], baseline_list ++ [base], test_list ++ [test])
  end.

Fixpoint res_fold {A B} (f : B -> A -> res B) (xs : list A) (b : B) : res B :=
  match xs with
  | [] => Ok b
  | x :: xs' => b' ← f b x; res_fold f xs' b'
  end.

Definition read_out_files (self : Executor) : res out_lists :=
  tests ← attr "test_build" (test_build self);
  outs ← attr "outputs" (outputs self);
  res_fold read_one (zip3 (case self) tests outs) ([], [], []).

(** The file a non-linear case is read from: the second component of both
    paths [FUNC_MAP] hands back. *)
Definition out_file_name (c : string) : string :=
  match category_of c with
  | beamdyn => "bd_driver.out"
  | _ => c +:+ ".outb"
  end.

End ReadOutFiles.

(** ** Norms: [test_norm] *)

(** What a name of the module can be bound to. *)
Inductive pyobj (Data : Type) :=
| ObjModule
| ObjFunction
| ObjClass
| ObjDict
| ObjData (d : Data).
Arguments ObjModule {Data}.
Arguments ObjFunction {Data}.
Arguments ObjClass {Data}.
Arguments ObjDict {Data}.
Arguments ObjData {Data} d.

(** The global names of [executor.py], in order of binding. *)
Definition module_globals {Data} : list (string * pyobj Data) :=
  [ ("os", ObjModule); ("sys", ObjModule); ("shutil", ObjModule);
    ("platform", ObjModule); ("List", ObjClass); ("Tuple", ObjClass);
    ("Path", ObjClass); ("cpu_count", ObjFunction); ("Pool", ObjClass);
    ("bokeh", ObjModule); ("np", ObjModule);
    ("load_output", ObjFunction); ("validate_file", ObjFunction);
    ("calculate_norms", ObjFunction); ("ignore_baseline", ObjFunction);
    ("run_openfast_case", ObjFunction); ("validate_directory", ObjFunction);
    ("validate_executable", ObjFunction);
    ("SYSTEM_MAP", ObjDict); ("CASE_MAP", ObjDict);
    ("_get_linear_out_files", ObjFunction);
    ("_get_regression_out_files", ObjFunction);
    ("_get_beamdyn_out_files", ObjFunction);
    ("Executor", ObjClass) ].

(** Reading a name that the function does not assign: the module globals
    are searched, and a miss is a [NameError]. *)
Definition load_global {Data} (name : string) : res (pyobj Data) :=
  match dict_get module_globals name with
  | Ok o => Ok o
  | Raise _ => Raise (NameError name)
  end.

Section TestNorm.

Variables Data Info Norms : Type.

(** [calculate_norms] of [pyfast.utilities]. *)
Variable calculate_norms :
  pyobj (Data * Info) -> pyobj (Data * Info) -> list string -> res Norms.

Definition default_norm_list : list string :=
  ["max_norm"; "max_norm_over_range"; "l2_norm"; "relative_l2_norm"].

(** The loop body names [baseline] and [test], which are neither
    parameters nor locals of [test_norm]. *)
Definition test_norm (case_list : list string)
    (baseline_list test_list : list (Data * Info)) (norm_list : list string)
  : res (list Norms) :=
  res_fold
    (fun norm_results (_ : string) =>
       _ ← @load_global (Data * Info) "calculate_norms";
       baseline ← load_global "baseline";
       test ← load_global "test";
       r ← calculate_norms baseline test norm_list;
       Ok (norm_results ++ [r]))
    case_list [].

(** The list the docstring promises: the norms of the [i]-th pair. *)
Definition norms_of_pairs (baseline_list test_list : list (Data * Info))
    (norm_list : list string) : res (list Norms) :=
  res_map (fun bt : (Data * Info) * (Data * Info) =>
             calculate_norms (ObjData (fst bt)) (ObjData (snd bt)) norm_list)
          (zip2 baseline_list test_list).

End TestNorm.

(** A decidable form of [well_formed]: every entry other than the root
    has a directory as parent. *)
Definition well_formed_check (t : tree) : bool :=
  forallb (fun q => bool_decide (q = []) || isdir t (dirname q))
          (elements (dom t)).

(** ** The results summary: [create_results_summary] *)

(** The attribute [plot_path]: [None], the string handed to [__init__], or
    the list [create_results_summary] assigns. *)
Inductive plot_path_value :=
| PlotNone
| PlotStr (s : string)
| PlotList (l : list path).

Section ResultsSummary.

(** Calling whatever a name is bound to, for the names the module binds. *)
Variable call_object : pyobj unit -> list (pyobj unit) -> res unit.

(** [self.test_build[self.case.index(c)]]. *)
Definition build_directory_of (self : Executor) (c : string) : res path :=
  tests ← attr "test_build" (test_build self);
  ix ← match list_index c (case self) with
       | Some ix => Ok ix
       | None => Raise (ValueError "not in list")
       end;
  item tests ix.

(** The method acts on the attribute [plot_path].  The call it ends with
    names [create_case_summary] and seven arguments, none of which is a
    parameter, a local or a name bound by the module. *)
Definition create_results_summary (self : Executor) (case_list : list string)
  : M plot_path_value unit :=
  (fun plot_path =>
     match plot_path with
     | PlotNone =>
         match res_map (build_directory_of self) case_list with
         | Ok l => (PlotList l, Ok tt)
         | Raise e => (PlotNone, Raise e)
         end
     | _ => (plot_path, Ok tt)
     end) ;;;
  m_lift (f ← load_global "create_case_summary";
          arguments ← res_map load_global
                        ["path"; "case"; "results"; "results_max"; "tolerance";
                         "plots"; "results_columns"];
          call_object f arguments).

End ResultsSummary.

(** * The plotting script, [figures.py] *)

(** ** Strings *)

(** [s.startswith(pre)]. *)
Fixpoint startswith (s pre : string) {struct pre} : bool :=
  match pre, s with
  | EmptyString, _ => true
  | String a pre', String b s' => Ascii.eqb a b && startswith s' pre'
  | String _ _, EmptyString => false
  end.

(** [sub in s]. *)
Fixpoint contains (s sub : string) : bool :=
  startswith s sub
  || match s with
     | EmptyString => false
     | String _ s' => contains s' sub
     end.

(** [s.split(sep)] for a separator of one character: the pieces between
    the separators, of which there is always at least one. *)
Fixpoint split_on (sep : ascii) (cur s : string) : list string :=
  match s with
  | EmptyString => [cur]
  | String a s' =>
      if Ascii.eqb a sep then cur :: split_on sep "" s'
      else split_on sep (cur +:+ String a "") s'
  end.

Definition split (s : string) (sep : ascii) : list string := split_on sep "" s.

(** [s.replace(old, new)] for a non-empty [old]: the occurrences of [old]
    are found from the left and do not overlap.  [skip] counts the
    characters of an occurrence still to be passed over. *)
Fixpoint replace_from (old new : string) (skip : nat) (s : string) : string :=
  match s with
  | EmptyString => EmptyString
  | String a s' =>
      match skip with
      | S k => replace_from old new k s'
      | O =>
          if startswith s old
          then new +:+ replace_from old new (String.length old - 1) s'
          else String a (replace_from old new 0 s')
      end
  end.

Definition replace (s old new : string) : string := replace_from old new 0 s.

Definition backslash : ascii := Ascii.ascii_of_nat 92.

(** ** The script *)

(** [output_path = input_path + '.png'], and the title: the last piece of
    the output path split at the backslashes, with every [.png] removed. *)
Definition output_path_of (input_path : string) : string := input_path +:+ ".png".

Definition plot_title_of (output_path : string) : string :=
  replace (List.last (split output_path backslash) "") ".png" "".

(** A name the script binds in a branch only. *)
Definition load_name (name : string) (binding : option string) : res string :=
  match binding with
  | Some v => Ok v
  | None => Raise (NameError name)
  end.

Section Script.

(** What the script leaves to the file system and to the libraries:
    [Path(p).is_file()], opening and reading a text file, [json.loads],
    [FASTOutputFile(p).toDataFrame()], and the plotting function with the
    figure it writes. *)
Variables Json Frame : Type.
Variable is_file : string -> bool.
Variable read_text : string -> res string.
Variable json_loads : string -> res Json.
Variable to_dataframe : string -> res Frame.
Variable plot : Frame -> Json -> string -> string -> res unit.

(** The block under [if __name__ == "__main__"], from the two arguments
    [-l] and [-i], which the parser requires. *)
Definition __main__ (l i : string) : printing unit :=
  let path_cc := if is_file l then Some l else None in
  let input_path := if is_file i then Some i else None in
  let outcome :=
    p ← load_name "path_cc" path_cc;
    json_data ← read_text p;
    data ← json_loads json_data;
    input ← load_name "input_path" input_path;
    df_outb ← to_dataframe input;
    let output_path := output_path_of input in
    let plot_title := plot_title_of output_path in
    _ ← plot df_outb data output_path plot_title;
    Ok output_path in
  match outcome with
  | Ok output_path =>
      ([nl +:+ "PNG is successfully generated and stored here:" +:+ nl
          +:+ output_path], Ok tt)
  | Raise e => ([], Raise e)
  end.

End Script.

(** ** [plot_dataframe_columns] *)

(** The calls that act on the figure, in the order they are made. *)
Inductive figure_call (Axes Column : Type) :=
| ax_plot (ax : Axes) (x y : Column) (color linestyle label : string)
| ax_set_major_locator (ax : Axes)
| ax_grid (ax : Axes)
| ax_set_ylabel (ax : Axes) (label : string)
| ax_set_label_coords (ax : Axes)
| plt_xlabel (label : string)
| plt_suptitle (title : string)
| plt_savefig (output_path : string).
Arguments ax_plot {Axes Column} ax x y color linestyle label.
Arguments ax_set_major_locator {Axes Column} ax.
Arguments ax_grid {Axes Column} ax.
Arguments ax_set_ylabel {Axes Column} ax label.
Arguments ax_set_label_coords {Axes Column} ax.
Arguments plt_xlabel {Axes Column} label.
Arguments plt_suptitle {Axes Column} title.
Arguments plt_savefig {Axes Column} output_path.

(** A loop that carries a local variable from one turn to the next. *)
Fixpoint m_fold {S A B} (f : B -> A -> M S B) (xs : list A) (b : B) : M S B :=
  match xs with
  | [] => m_ret b
  | x :: xs' => b' <~ f b x ;; m_fold f xs' b'
  end.

Section Plot.

(** What is left to [matplotlib]: the value [plt.subplots] returns for a
    number of rows, and the subscription [axes[i]] of that value.  A data
    frame is read by column name, an entry of the variable list by key;
    the values of the keys read here are lists of strings. *)
Variables Axes Column Handle : Type.
Variable subplots : nat -> res Handle.
Variable axes_item : Handle -> nat -> res Axes.

Definition frame : Type := list (string * Column).
Definition entry : Type := list (string * list string).
Definition trace : Type := list (figure_call Axes Column).

Definition emit (c : figure_call Axes Column) : M trace unit :=
  fun tr => (tr ++ [c], Ok tt).

(** One turn of the inner loop: [ax] is assigned, then the line is drawn. *)
Definition plot_variable (df_outb : frame) (axes : Handle) (i : nat)
    (colors linestyles : list string) (ax : option Axes) (jv : nat * string)
  : M trace (option Axes) :=
  let '(j, variable) := jv in
  a <~ m_lift (axes_item axes i) ;;
  x <~ m_lift (dict_get df_outb "Time_[s]") ;;
  y <~ m_lift (dict_get df_outb variable) ;;
  color <~ m_lift (item colors j) ;;
  linestyle <~ m_lift (item linestyles j) ;;
  emit (ax_plot a x y color linestyle variable) ;;;
  m_ret (Some a).

(** Reading the local [ax]: unbound until the inner loop has run once
    ([UnboundLocalError], a [NameError]). *)
Definition load_ax (ax : option Axes) : res Axes :=
  match ax with
  | Some a => Ok a
  | None => Raise (NameError "ax")
  end.

(** One turn of the outer loop. *)
Definition plot_entry (df_outb : frame) (axes : Handle) (ax : option Axes)
    (ie : nat * entry) : M trace (option Axes) :=
  let '(i, e) := ie in
  variables <~ m_lift (dict_get e "variables") ;;
  colors <~ m_lift (dict_get e "colors") ;;
  linestyles <~ m_lift (dict_get e "linestyles") ;;
  ax <~ m_fold (plot_variable df_outb axes i colors linestyles)
         (enumerate variables) ax ;;
  a <~ m_lift (load_ax ax) ;;
  emit (ax_set_major_locator a) ;;;
  emit (ax_grid a) ;;;
  emit (ax_set_ylabel a (str_join nl variables)) ;;;
  emit (ax_set_label_coords a) ;;;
  m_ret (Some a).

Definition plot_dataframe_columns (df_outb : frame) (data : list entry)
    (output_path plot_title : string) : M trace unit :=
  axes <~ m_lift (subplots (length data)) ;;
  _ <~ m_fold (plot_entry df_outb axes) (enumerate data) None ;;
  emit (plt_xlabel "Time_[s]") ;;;
  emit (plt_suptitle plot_title) ;;;
  emit (plt_savefig output_path).

End Plot.


Section PlotVocabulary.

Variables Axes Column Handle : Type.
Variable axes_item : Handle -> nat -> res Axes.


End PlotVocabulary.

Definition is_savefig {Axes Column : Type} (c : figure_call Axes Column) : bool :=
  match c with plt_savefig _ => true | _ => false end.

(** ** Vocabulary for the facts about [read_out_files] *)

(** One turn of the loop of [read_out_files] works on a case, its build
    directory and its baseline directory; these are the two files it
    reads. *)
Definition local_file (item : string * path * path) : path :=
  join (snd (fst item)) [out_file_name (fst (fst item))].
Definition baseline_file (item : string * path * path) : path :=
  join (snd item) [out_file_name (fst (fst item))].

(** The case is registered and not linear, and both of its files pass the
    validator. *)
Definition readable (validate_file : path -> option exn)
    (item : string * path * path) : Prop :=
  registered (fst (fst item)) ∧ category_of (fst (fst item)) ≠ linear
  ∧ validate_file (local_file item) = None
  ∧ validate_file (baseline_file item) = None.

(** ** Vocabulary for the facts about dispatch *)

(** The command [_run_single_case] starts for the case [c] whose build
    directory is [test]: the executable and the input file. *)
Definition command_of (self : Executor) (c : string) (test : path)
  : pathlike * path :=
  if bool_decide (category_of c = beamdyn)
  then (bd_executable self, join test ["bd_driver.inp"])
  else (of_executable self, join test [c +:+ ".fst"]).

(** The results whose exit code is zero. *)
Definition passed (results : list (Z * string * string))
  : list (Z * string * string) :=
  List.filter (fun r => fst (fst r) =? 0) results.

(** The object [_build_directory_references] leaves on registered cases. *)
Definition with_references (self : Executor) : Executor :=
  set_references self (map (input_of self) (case self))
    (map (output_of self) (case self)) (map (test_of self) (case self)).

(** ** A concrete host and plan, for evaluating the methods *)

Module Sample.

Definition valid_executable : pathlike -> option exn := fun _ => None.
Definition valid_directory : path -> option exn := fun _ => None.

Definition request (cases : case_arg) (executable : list string)
    (system compiler : string) (requested_jobs : Z) : args :=
  {| a_case := cases;
     a_executable := executable;
     a_source := Str "/opt/openfast";
     a_compiler := compiler;
     a_system := Some system;
     a_plot := 0;
     a_execution := true;
     a_verbose := false;
     a_jobs := requested_jobs |}.

Definition both_executables : list string :=
  ["/opt/openfast/build/glue-codes/openfast/openfast";
   "/opt/openfast/build/modules/beamdyn/beamdyn_driver"].

Definition three_cases : case_arg :=
  CaseList ["AOC_WSt"; "AWT_YFix_WSt"; "bd_curved_beam"].

(** [__init__] on a ten-core Linux host whose validators accept everything. *)
Definition construct (a : args) : printing Executor :=
  __init__ "Linux" 10 valid_executable valid_directory a.

(** An executable list whose general executable carries a platform suffix. *)
Definition suffixed_executables : list string :=
  ["/opt/openfast/install/bin/openfast_x64";
   "/opt/openfast/install/bin/beamdyn_driver"].

(** A simulator that touches nothing and exits with code 0. *)
Definition quiet_case :
  pathlike -> path -> string -> string -> bool -> bool -> tree -> tree * Z :=
  fun _ _ _ _ _ _ t => (t, 0).

Definition empty_world : world :=
  {| w_tree := ∅; w_out := []; w_launched := [] |}.

(** The object after [__init__] and [_build_directory_references], when
    both succeed; the source root otherwise untouched. *)
Definition prepared (a : args) : res Executor :=
  match construct a with
  | (_, Ok self) =>
      match _build_directory_references self with
      | (self', Ok _) => Ok self'
      | (_, Raise e) => Raise e
      end
  | (_, Raise e) => Raise e
  end.

Definition plan (names : list string) : args :=
  request (CaseList names) both_executables "Linux" "gnu" (-1).

(** Modelled from the spec: [validate_file] and [load_output] belong to
    [pyfast.utilities], which is not among the sources.  The output loader
    "fails if the path does not exist" (spec 4.4), and a validator has no
    other way to report a missing file than to raise.  [strict_validate]
    raises on a missing file, [lenient_validate] never raises; the loader
    returns the content of the file. *)
Definition strict_validate (t : tree) (p : path) : option exn :=
  if isfile t p then None else Some (FileNotFoundError p).

Definition lenient_validate (p : path) : option exn := None.

Definition load_content (t : tree) (p : path) : res (string * unit) :=
  match t !! p with
  | Some (File content) => Ok (content, tt)
  | _ => Raise (FileNotFoundError p)
  end.

(** The scenario of spec section 8: [AOC_WSt] has both of its output
    files, [bd_curved_beam] has its baseline and no local output. *)
Definition outputs_tree : tree :=
  <[ ["opt"; "openfast"; "build"; "local_results"; "AOC_WSt"; "AOC_WSt.outb"]
     := File "time series" ]>
  (<[ ["opt"; "openfast"; "reg_tests"; "r-test"; "glue-codes"; "openfast";
       "AOC_WSt"; "linux-gnu"; "AOC_WSt.outb"] := File "time series" ]>
  (<[ ["opt"; "openfast"; "reg_tests"; "r-test"; "modules"; "beamdyn";
       "bd_curved_beam"; "linux-gnu"; "bd_driver.out"] := File "beam series" ]>
   ∅)).

(** A file tree for the plan made of [bd_curved_beam]: the fixtures of
    the repository, and a build directory left by an earlier run in which
    [bd_driver.inp] was edited. *)
Definition with_dir (p : path) (t : tree) : tree :=
  foldr (fun q acc => <[q := Dir]> acc) t (prefixes p).

Definition with_file (p : path) (content : string) (t : tree) : tree :=
  <[p := File content]> (with_dir (dirname p) t).

Definition r_test : path := ["opt"; "openfast"; "reg_tests"; "r-test"].
Definition beam_input : path := r_test ++ ["modules"; "beamdyn"; "bd_curved_beam"].
Definition beam_build : path :=
  ["opt"; "openfast"; "build"; "local_results"; "bd_curved_beam"].
Definition servo_data : path :=
  r_test ++ ["glue-codes"; "openfast"; "5MW_Baseline"; "ServoData"].
Definition working_directory : path := ["home"; "user"].

Definition fixture_tree : tree :=
  with_file (beam_build ++ ["bd_driver.inp"]) "driver, edited in the build directory"
  (with_file (beam_input ++ ["bd_driver.inp"]) "driver"
  (with_file (beam_input ++ ["bd_primary.inp"]) "primary"
  (with_file (beam_input ++ ["beam_props.inp"]) "properties"
  (with_file (servo_data ++ ["DISCON"; "build"; "DISCON.dll"]) "controller"
  (with_file (servo_data ++ ["DISCON_ITI"; "build"; "DISCON_ITIBarge.dll"]) "barge"
  (with_file (servo_data ++ ["DISCON_OC3"; "build"; "DISCON_OC3Hywind.dll"]) "hywind"
  (with_file (r_test ++ ["glue-codes"; "openfast"; "5MW_Baseline"; "Blade.dat"]) "blade"
  (with_dir working_directory ∅)))))))).

Definition materialize (self : Executor) : M tree unit :=
  _build_test_output_directories working_directory no_ignore self.


(** An object as [__init__] assigns it, before any check, and the same
    over a case list that holds an unregistered name. *)
Definition object : Executor :=
  init_object (plan ["AOC_WSt"; "bd_curved_beam"]) "linux".

Definition object_with_unknown : Executor :=
  init_object (plan ["AOC_WSt"; "no_such_case"; "bd_curved_beam"]) "linux".

(** The same plan with [execution] off. *)
Definition dry_object : Executor :=
  init_object
    {| a_case := CaseList ["AOC_WSt"; "bd_curved_beam"];
       a_executable := both_executables; a_source := Str "/opt/openfast";
       a_compiler := "gnu"; a_system := Some "Linux"; a_plot := 0;
       a_execution := false; a_verbose := false; a_jobs := -1 |} "linux".

(** [fixture_tree] with a controller library already in the build tree,
    differing from the one of the sources. *)
Definition servo_build : path :=
  ["opt"; "openfast"; "build"; "local_results"; "5MW_Baseline"; "ServoData"].

Definition fixture_with_library : tree :=
  with_file (servo_build ++ ["DISCON.dll"]) "controller, rebuilt locally"
            fixture_tree.

(** The world of [fixture_tree], nothing printed and nothing started. *)
Definition fixture_world : world :=
  {| w_tree := fixture_tree; w_out := []; w_launched := [] |}.

(** A simulator that touches nothing and fails on [bd_curved_beam]. *)
Definition failing_beam :
  pathlike -> path -> string -> string -> bool -> bool -> tree -> tree * Z :=
  fun _ _ _ c _ _ t => (t, if String.eqb c "bd_curved_beam" then 1 else 0).

(** A frame of two columns, a figure whose axes are numbered by row, and
    variable lists of one entry: with one variable, and with none. *)
Definition two_columns : frame string :=
  [("Time_[s]", "seconds"); ("RotSpeed", "rpm")].

Definition rows (nrows : nat) : res nat := Ok nrows.

Definition row (nrows i : nat) : res nat :=
  if (i <? nrows)%nat then Ok i else Raise (IndexError "index out of bounds").

Definition one_variable : list entry :=
  [[("variables", ["RotSpeed"]); ("colors", ["red"]); ("linestyles", ["solid"])]].



End Sample.

(** * Properties *)

(** ** Binary64 product against the exact ceiling *)

Example ceil_mul_08_10 : Binary64.ceil_mul_08 10 = 8.
Proof. reflexivity. Qed.

Example ceil_mul_08_15 : Binary64.ceil_mul_08 15 = 12.
Proof. reflexivity. Qed.

Lemma round_half_even_cases x s :
  Binary64.round_half_even x s = x / 2 ^ s ∧ 2 * (x mod 2 ^ s) ≤ 2 ^ s
  ∨ Binary64.round_half_even x s = x / 2 ^ s + 1 ∧ 2 ^ s ≤ 2 * (x mod 2 ^ s).
Proof.
  unfold Binary64.round_half_even.
  destruct (Z.ltb_spec (2 * (x mod 2 ^ s)) (2 ^ s)); [left; split; [done | lia] |].
  destruct (Z.ltb_spec (2 ^ s) (2 * (x mod 2 ^ s))); [right; split; [done | lia] |].
  destruct (Z.even _); [left | right]; split; try done; lia.
Qed.

(** The float computation agrees with the exact ceiling for every core
    count a machine can report. *)
Lemma ceil_mul_08_exact c :
  1 ≤ c < 2 ^ 48 → Binary64.ceil_mul_08 c = ceil_four_fifths c.
Proof.
  intros Hc.
  unfold Binary64.ceil_mul_08, Binary64.mul_08, Binary64.ceil, ceil_four_fifths.
  set (p := c * Binary64.m08).
  assert (Hp : 2 ^ 52 ≤ p < 2 ^ 101).
  { unfold p, Binary64.m08. change (2 ^ 52) with 4503599627370496.
    change (2 ^ 101) with (2 ^ 48 * 2 ^ 53). change (2 ^ 53) with 9007199254740992.
    nia. }
  assert (HL : 52 ≤ Z.log2 p < 101).
  { split.
    - apply Z.log2_le_pow2; lia.
    - apply Z.log2_lt_pow2; lia. }
  rewrite Z.max_r by lia.
  set (s := Z.log2 p - 52).
  assert (Hs : 0 ≤ s < 49) by (unfold s; lia).
  destruct (Z.leb_spec 0 (s - 53)); [lia |].
  replace (- (s - 53)) with (53 - s) by lia.
  pose proof (round_half_even_cases p s) as Hrc.
  set (S := 2 ^ s) in *. set (T := 2 ^ (53 - s)).
  assert (HST : S * T = 2 ^ 53).
  { unfold S, T. rewrite <- Z.pow_add_r by lia. f_equal; lia. }
  assert (HS0 : 0 < S) by (unfold S; apply Z.pow_pos_nonneg; lia).
  assert (HT0 : 0 < T) by (unfold T; apply Z.pow_pos_nonneg; lia).
  assert (HSp : S * 2 ^ 52 ≤ p < S * 2 ^ 53).
  { destruct (Z.log2_spec p) as [Hlo Hhi]; [lia |].
    unfold S, s. rewrite <- !Z.pow_add_r by lia.
    replace (Z.log2 p - 52 + 52) with (Z.log2 p) by lia.
    replace (Z.log2 p - 52 + 53) with (Z.succ (Z.log2 p)) by lia. lia. }
  assert (H5p : 5 * p = 4 * c * 2 ^ 53 + 2 * c).
  { unfold p, Binary64.m08. change (2 ^ 53) with 9007199254740992. lia. }
  pose proof (Z.div_mod p S ltac:(lia)) as Hdm.
  pose proof (Z.mod_pos_bound p S HS0) as Hr.
  set (q := p / S) in *. set (r := p mod S) in *.
  set (K := (4 * c + 4) / 5).
  assert (HK : 4 * c ≤ 5 * K ≤ 4 * c + 4).
  { unfold K. pose proof (Z.div_mod (4 * c + 4) 5 ltac:(lia)).
    pose proof (Z.mod_pos_bound (4 * c + 4) 5 ltac:(lia)). lia. }
  change (2 ^ 53) with 9007199254740992 in *.
  change (2 ^ 52) with 4503599627370496 in *.
  change (2 ^ 48) with 281474976710656 in *.
  assert (H5S : 4 * c < 5 * S) by nia.
  assert (HS2c : S < 2 * c).
  { unfold p, Binary64.m08 in HSp. nia. }
  assert (Hq_hi : q ≤ K * T).
  { assert (q < K * T + 1); [| lia].
    apply Z.mul_lt_mono_pos_l with (p := 5 * S); [lia |]. nia. }
  assert (Hq_lo : (K - 1) * T < q).
  { apply Z.mul_lt_mono_pos_l with (p := 5 * S); [lia |]. nia. }
  assert (Hgoal : ∀ mant, (K - 1) * T < mant ≤ K * T → - (- mant / T) = K).
  { intros mant Hm.
    assert (- mant / T = - K); [| lia].
    symmetry. apply Z.div_unique with (r := K * T - mant); [lia | lia]. }
  apply Hgoal.
  destruct Hrc as [[-> _] | [-> Hup]].
  - lia.
  - split; [lia |].
    assert (q < K * T); [| lia].
    apply Z.mul_lt_mono_pos_l with (p := 5 * S); [lia |]. nia.
Qed.


(** ** Construction *)

Lemma ceil_four_fifths_bounds c : 1 ≤ c → 1 ≤ ceil_four_fifths c ≤ c.
Proof.
  intros Hc. unfold ceil_four_fifths.
  pose proof (Z.div_mod (4 * c + 4) 5 ltac:(lia)).
  pose proof (Z.mod_pos_bound (4 * c + 4) 5 ltac:(lia)). lia.
Qed.

Section ConstructionFacts.

Variable platform_system : string.
Variable cpu_count : Z.
Variable validate_executable : pathlike -> option exn.
Variable validate_directory : path -> option exn.

Local Abbreviation init :=
  (__init__ platform_system cpu_count validate_executable validate_directory).
Local Abbreviation validate :=
  (_validate_inputs cpu_count validate_executable validate_directory).
Local Abbreviation checks :=
  (validate_paths_and_plot validate_executable validate_directory).
Local Abbreviation others_valid :=
  (paths_and_plot_valid platform_system validate_executable validate_directory).

Lemma checks_set_output_type self v :
  checks (set_output_type self v) = checks self.
Proof. reflexivity. Qed.

(** What [resolve_jobs] returns, and when. *)
Lemma resolve_jobs_Ok self self' :
  resolve_jobs cpu_count self = Ok self' →
  -1 ≤ jobs self
  ∧ case self' = case self
  ∧ output_type self' = output_type self
  ∧ of_executable self' = of_executable self
  ∧ bd_executable self' = bd_executable self
  ∧ jobs self' =
      (let j1 := if jobs self =? -1 then Binary64.ceil_mul_08 cpu_count else jobs self in
       let j2 := if 0 <? j1 then Z.min j1 cpu_count else j1 in
       if Z.of_nat (length (case self)) <? j2
       then Z.of_nat (length (case self)) else j2).
Proof.
  unfold resolve_jobs.
  destruct (Z.ltb_spec (jobs self) (-1)); [done |].
  intros Hr. split; [lia |]. revert Hr. cbv zeta.
  destruct (jobs self =? -1); simpl;
    (destruct (0 <? _); simpl);
    (destruct (_ <? _) eqn:E; simpl; intros [= <-]; simpl; rewrite ?E; done).
Qed.

Lemma resolve_jobs_Raise self e :
  resolve_jobs cpu_count self = Raise e →
  jobs self < -1 ∧ e = ValueError "Input 'jobs' cannot be negative!".
Proof.
  unfold resolve_jobs.
  destruct (Z.ltb_spec (jobs self) (-1)); [intros [= <-]; done | done].
Qed.

Lemma resolve_jobs_total self :
  -1 ≤ jobs self → ∃ self', resolve_jobs cpu_count self = Ok self'.
Proof.
  intros H. unfold resolve_jobs.
  destruct (Z.ltb_spec (jobs self) (-1)); [lia | eauto].
Qed.

(** [__init__] unfolded once the system is known. *)
Lemma init_known a system :
  dict_get SYSTEM_MAP (default platform_system (a_system a)) = Ok system →
  init a =
    (fst (validate_output_type (init_object a system)),
     _ ← checks (init_object a system);
     resolve_jobs cpu_count (snd (validate_output_type (init_object a system)))).
Proof.
  intros Hs. unfold __init__, _validate_inputs. rewrite Hs.
  unfold validate_output_type.
  destruct (negb _); reflexivity.
Qed.

Lemma init_Ok a out self :
  init a = (out, Ok self) →
  ∃ system,
    dict_get SYSTEM_MAP (default platform_system (a_system a)) = Ok system
    ∧ out = fst (validate_output_type (init_object a system))
    ∧ checks (init_object a system) = Ok tt
    ∧ resolve_jobs cpu_count (snd (validate_output_type (init_object a system)))
      = Ok self.
Proof.
  intros H.
  destruct (dict_get SYSTEM_MAP (default platform_system (a_system a)))
    as [system | e] eqn:Hs.
  - rewrite (init_known _ _ Hs) in H. injection H as <- H.
    exists system. split; [done |]. split; [done |].
    destruct (checks (init_object a system)) as [[] | e]; [done | discriminate].
  - unfold __init__ in H. rewrite Hs in H. discriminate.
Qed.

Lemma validate_output_type_fields self :
  jobs (snd (validate_output_type self)) = jobs self
  ∧ case (snd (validate_output_type self)) = case self
  ∧ of_executable (snd (validate_output_type self)) = of_executable self
  ∧ bd_executable (snd (validate_output_type self)) = bd_executable self.
Proof. unfold validate_output_type. destruct (negb _); done. Qed.

(** The attributes of a constructed object, in terms of the arguments. *)
Lemma init_Ok_fields a out self :
  init a = (out, Ok self) →
  -1 ≤ a_jobs a
  ∧ case self = case_list_of (a_case a)
  ∧ of_executable self = fst (select_executables (a_source a) (a_executable a))
  ∧ bd_executable self = snd (select_executables (a_source a) (a_executable a))
  ∧ jobs self =
      (let n := Z.of_nat (length (case_list_of (a_case a))) in
       let j0 := if a_jobs a =? 0 then -1 else a_jobs a in
       let j1 := if j0 =? -1 then Binary64.ceil_mul_08 cpu_count else j0 in
       let j2 := if 0 <? j1 then Z.min j1 cpu_count else j1 in
       if n <? j2 then n else j2).
Proof.
  intros (system & _ & _ & _ & Hr)%init_Ok.
  apply resolve_jobs_Ok in Hr as (Hj & Hc & _ & Hof & Hbd & Hjobs).
  destruct (validate_output_type_fields (init_object a system))
    as (Ej & Ec & Eof & Ebd).
  rewrite Ej, Ec in *. rewrite Hof, Hbd, Eof, Ebd, Hc, Hjobs. simpl in *.
  split; [| done].
  destruct (Z.eqb_spec (a_jobs a) 0); lia.
Qed.

End ConstructionFacts.

Section ConstructionClaims.

Variable platform_system : string.
Variable cpu_count : Z.
Variable validate_executable : pathlike -> option exn.
Variable validate_directory : path -> option exn.

Local Abbreviation init :=
  (__init__ platform_system cpu_count validate_executable validate_directory).
Local Abbreviation checks :=
  (validate_paths_and_plot validate_executable validate_directory).
Local Abbreviation others_valid :=
  (paths_and_plot_valid platform_system validate_executable validate_directory).

Lemma str_in_elem_of x l : str_in x l = true ↔ x ∈ l.
Proof.
  unfold str_in. rewrite existsb_exists. split.
  - intros (y & Hy & ->%String.eqb_eq). by apply list_elem_of_In.
  - intros H. exists x. split; [by apply list_elem_of_In | apply String.eqb_refl].
Qed.

(** C1.  A request below [-1] makes the constructor raise, so that no
    object exists to dispatch with; a request of [-1] or [0] resolves to
    the ceiling of 0.8 times the core count and a positive request to the
    minimum of the request and the core count, each then capped by the
    number of cases. *)
Theorem jobs_resolution (a : args) (out : list string) (r : res Executor) :
  1 ≤ cpu_count < 2 ^ 48 →
  init a = (out, r) →
  let n := Z.of_nat (length (case_list_of (a_case a))) in
  (a_jobs a < -1 →
     ∃ e, r = Raise e
          ∧ (others_valid a → e = ValueError "Input 'jobs' cannot be negative!"))
  ∧ (-1 ≤ a_jobs a → others_valid a → ∃ self, r = Ok self)
  ∧ (∀ self, r = Ok self →
       -1 ≤ a_jobs a
       ∧ ((a_jobs a = -1 ∨ a_jobs a = 0) →
            jobs self = Z.min (ceil_four_fifths cpu_count) n)
       ∧ (0 < a_jobs a →
            jobs self = Z.min (Z.min (a_jobs a) cpu_count) n)).
Proof.
  intros Hcpu Hinit n.
  pose proof (ceil_mul_08_exact cpu_count Hcpu) as Hceil.
  pose proof (ceil_four_fifths_bounds cpu_count ltac:(lia)) as Hb.
  assert (Hvalid : others_valid a →
            r = resolve_jobs cpu_count
                  (snd (validate_output_type
                          (init_object a
                             (match dict_get SYSTEM_MAP
                                      (default platform_system (a_system a))
                              with Ok s => s | Raise _ => "" end))))).
  { intros (system & Hs & Hc). rewrite Hs.
    rewrite (init_known _ _ _ _ _ _ Hs), Hc in Hinit. by injection Hinit as _ <-. }
  split; [| split].
  - intros Hneg. destruct r as [self | e].
    + apply init_Ok_fields in Hinit. lia.
    + exists e. split; [done |]. intros Hv. specialize (Hvalid Hv).
      symmetry in Hvalid. by apply resolve_jobs_Raise in Hvalid as [_ ->].
  - intros Hj Hv. rewrite (Hvalid Hv). apply resolve_jobs_total.
    destruct (validate_output_type_fields
                (init_object a
                   (match dict_get SYSTEM_MAP (default platform_system (a_system a))
                    with Ok s => s | Raise _ => "" end))) as [-> _].
    simpl. destruct (Z.eqb_spec (a_jobs a) 0); lia.
  - intros self ->. apply init_Ok_fields in Hinit as (Hj & _ & _ & _ & Hjobs).
    fold n in Hjobs. rewrite Hjobs. clear Hjobs. cbv zeta. rewrite Hceil.
    split; [done |]. split.
    + intros Hreq.
      replace (if a_jobs a =? 0 then -1 else a_jobs a) with (-1)
        by (destruct (Z.eqb_spec (a_jobs a) 0); lia).
      simpl. destruct (Z.ltb_spec 0 (ceil_four_fifths cpu_count)); [| lia].
      rewrite Z.min_l by lia.
      destruct (Z.ltb_spec n (ceil_four_fifths cpu_count)); lia.
    + intros Hpos.
      destruct (Z.eqb_spec (a_jobs a) 0); [lia |].
      destruct (Z.eqb_spec (a_jobs a) (-1)); [lia |].
      destruct (Z.ltb_spec 0 (a_jobs a)); [| lia].
      destruct (Z.ltb_spec n (Z.min (a_jobs a) cpu_count)); lia.
Qed.

(** C6.  A system and compiler whose joined identifier is not an accepted
    output type: the fallback step sets ["macos-gnu"] and prints the
    warning without raising, and the constructor succeeds whenever the
    remaining inputs are valid. *)
Theorem output_type_fallback (a : args) (system : string) :
  dict_get SYSTEM_MAP (default platform_system (a_system a)) = Ok system →
  str_join "-" [system; lower (a_compiler a)] ∉ output_type_opts →
  validate_output_type (init_object a system)
    = ([fallback_message], set_output_type (init_object a system) "macos-gnu")
  ∧ ∃ r, init a = ([fallback_message], r)
         ∧ (∀ self, r = Ok self → output_type self = "macos-gnu")
         ∧ (checks (init_object a system) = Ok tt → -1 ≤ a_jobs a →
              ∃ self, r = Ok self).
Proof.
  intros Hs Hnot.
  assert (Hv : validate_output_type (init_object a system)
               = ([fallback_message],
                  set_output_type (init_object a system) "macos-gnu")).
  { unfold validate_output_type.
    destruct (str_in _ _) eqn:E; [| done].
    apply str_in_elem_of in E. done. }
  split; [done |].
  rewrite (init_known _ _ _ _ _ _ Hs), Hv. simpl.
  eexists. split; [reflexivity |]. split.
  - intros self Hr.
    destruct (checks (init_object a system)) as [[] |]; [| done].
    simpl in Hr. by apply resolve_jobs_Ok in Hr as (_ & _ & -> & _).
  - intros -> Hj. simpl. apply resolve_jobs_total. simpl.
    destruct (Z.eqb_spec (a_jobs a) 0); lia.
Qed.

End ConstructionClaims.

(** [evaluated E]: from [E : f x = (out, r)], compute [f x] and replace
    [out] and [r] by its components everywhere. *)
Ltac evaluated E :=
  let E' := fresh "E" in
  pose proof E as E'; vm_compute in E'; injection E' as <- <-.

(** At ten cores and three cases a request of [-1] resolves to 3, and the
    bounds of the theorem are met at this input. *)
Lemma jobs_resolution_witness :
  (∃ self, Sample.construct
             (Sample.request Sample.three_cases Sample.both_executables
                             "Linux" "gnu" (-1)) = ([], Ok self)
           ∧ jobs self = 3)
  ∧ ∃ e, snd (Sample.construct
                (Sample.request Sample.three_cases Sample.both_executables
                                "Linux" "gnu" (-2))) = Raise e.
Proof.
  split.
  - destruct (Sample.construct
                (Sample.request Sample.three_cases Sample.both_executables
                                "Linux" "gnu" (-1))) as [out r] eqn:E.
    pose proof (jobs_resolution "Linux" 10 Sample.valid_executable
                  Sample.valid_directory _ out r ltac:(lia) E) as (_ & _ & H).
    evaluated E.
    eexists. split; [reflexivity |].
    destruct (H _ eq_refl) as (_ & H3 & _).
    rewrite H3 by (by left). reflexivity.
  - destruct (Sample.construct
                (Sample.request Sample.three_cases Sample.both_executables
                                "Linux" "gnu" (-2))) as [out r] eqn:E.
    pose proof (jobs_resolution "Linux" 10 Sample.valid_executable
                  Sample.valid_directory _ out r ltac:(lia) E) as (H & _).
    destruct H as (e & -> & _); [simpl; lia |]. by exists e.
Defined.

(** The combination windows-gnu falls back, warns and constructs. *)
Lemma output_type_fallback_witness :
  ∃ self, Sample.construct
            (Sample.request Sample.three_cases Sample.both_executables
                            "Windows" "gnu" (-1))
          = ([fallback_message], Ok self)
          ∧ output_type self = "macos-gnu".
Proof.
  destruct (output_type_fallback "Linux" 10 Sample.valid_executable
              Sample.valid_directory
              (Sample.request Sample.three_cases Sample.both_executables
                              "Windows" "gnu" (-1)) "windows")
    as (_ & r & Hr & Hout & Hok).
  - reflexivity.
  - vm_compute. set_solver.
  - destruct Hok as [self ->]; [vm_compute; reflexivity | simpl; lia |].
    exists self. split; [exact Hr | by apply Hout].
Defined.

(** ** Loops in the state-and-exception monad *)

Lemma m_bind_Ok {S A B} (m : M S A) (k : A -> M S B) s s' b :
  m_bind m k s = (s', Ok b) →
  ∃ s1 a, m s = (s1, Ok a) ∧ k a s1 = (s', Ok b).
Proof.
  unfold m_bind. destruct (m s) as [s1 [a | e]]; [eauto | discriminate].
Qed.

Lemma m_for_cons_Ok {S A} (x : A) xs (body : A -> M S unit) s s' :
  m_for (x :: xs) body s = (s', Ok tt) →
  ∃ s1, body x s = (s1, Ok tt) ∧ m_for xs body s1 = (s', Ok tt).
Proof.
  simpl. intros (s1 & [] & H1 & H2)%m_bind_Ok. eauto.
Qed.

(** A property kept by every turn is kept by the loop, whether it ends
    normally or by an exception. *)
Lemma m_for_invariant {S A} (P : S -> Prop) (xs : list A) (body : A -> M S unit) :
  (∀ x s s' r, x ∈ xs → P s → body x s = (s', r) → P s') →
  ∀ s s' r, P s → m_for xs body s = (s', r) → P s'.
Proof.
  induction xs as [| x xs IH]; intros Hbody s s' r HP.
  - by intros [= <- _].
  - simpl. unfold m_bind. destruct (body x s) as [s1 [[] | e]] eqn:Hx.
    + apply IH.
      * intros y ? ? ? Hy. apply Hbody. by right.
      * eapply Hbody; [by left | done | done].
    + intros [= <- _]. eapply Hbody; [by left | done | done].
Qed.

(** A loop whose turns all leave the state alone leaves it alone. *)
Lemma m_for_skip {S A} (xs : list A) (body : A -> M S unit) s :
  (∀ x, x ∈ xs → body x s = (s, Ok tt)) →
  m_for xs body s = (s, Ok tt).
Proof.
  induction xs as [| x xs IH]; intros H; [done |].
  simpl. unfold m_bind. rewrite H by (by left).
  apply IH. intros y Hy. apply H. by right.
Qed.

(** ** [_build_directory_references] *)

(** The category used for the directories of a registered case. *)
Lemma dict_get_Raise {V} (d : list (string * V)) key e :
  dict_get d key = Raise e → e = KeyError key ∧ key ∉ dict_keys d.
Proof.
  induction d as [| [k v] d IH]; simpl.
  - intros [= <-]. split; [done | set_solver].
  - destruct (String.eqb_spec k key) as [-> | Hne]; [done |].
    intros [-> Hn]%IH. split; [done |]. set_solver.
Qed.

Lemma dict_get_Ok {V} (d : list (string * V)) key v :
  dict_get d key = Ok v → key ∈ dict_keys d.
Proof.
  induction d as [| [k w] d IH]; simpl; [done |].
  destruct (String.eqb_spec k key) as [-> | Hne]; [set_solver |].
  intros ?%IH. set_solver.
Qed.

Lemma dict_get_not_in {V} (d : list (string * V)) key :
  key ∉ dict_keys d → dict_get d key = Raise (KeyError key).
Proof.
  intros Hn. destruct (dict_get d key) eqn:E.
  - by apply dict_get_Ok in E.
  - by apply dict_get_Raise in E as [-> _].
Qed.

Lemma add_reference_fields i c self self' r :
  add_reference (i, c) self = (self', r) →
  jobs self' = jobs self ∧ case self' = case self
  ∧ build self' = build self ∧ module self' = module self
  ∧ rtest self' = rtest self ∧ output_type self' = output_type self
  ∧ of_executable self' = of_executable self
  ∧ bd_executable self' = bd_executable self
  ∧ execution self' = execution self ∧ verbose self' = verbose self.
Proof.
  unfold add_reference.
  destruct (dict_get CASE_MAP c); [| by intros [= <- _]].
  destruct (attr "inputs" _); [| by intros [= <- _]].
  destruct (attr "outputs" _); [| by intros [= <- _]].
  destruct (attr "test_build" _); [| by intros [= <- _]].
  destruct (item _ _); by intros [= <- _].
Qed.

Lemma build_references_fields self self' r :
  _build_directory_references self = (self', r) →
  jobs self' = jobs self ∧ case self' = case self
  ∧ build self' = build self ∧ module self' = module self
  ∧ rtest self' = rtest self ∧ output_type self' = output_type self
  ∧ of_executable self' = of_executable self
  ∧ bd_executable self' = bd_executable self
  ∧ execution self' = execution self ∧ verbose self' = verbose self.
Proof.
  unfold _build_directory_references.
  apply (m_for_invariant
           (fun s => jobs s = jobs self ∧ case s = case self
                     ∧ build s = build self ∧ module s = module self
                     ∧ rtest s = rtest self ∧ output_type s = output_type self
                     ∧ of_executable s = of_executable self
                     ∧ bd_executable s = bd_executable self
                     ∧ execution s = execution self ∧ verbose s = verbose self)).
  - intros [i c] s s' r' _ HP Hs.
    apply add_reference_fields in Hs. naive_solver congruence.
  - done.
Qed.

Lemma dict_get_registered c :
  registered c → dict_get CASE_MAP c = Ok (category_of c).
Proof.
  intros Hc. unfold category_of.
  destruct (dict_get CASE_MAP c) eqn:E; [done |].
  by apply dict_get_Raise in E as [_ ?].
Qed.

Lemma item_snoc {A} (l : list A) x : item (l ++ [x]) (length l) = Ok x.
Proof. unfold item. by rewrite list_lookup_middle. Qed.

(** One turn on a registered case appends its three directories. *)
Lemma add_reference_registered self ins outs ts c :
  registered c →
  add_reference (length ins, c) (set_references self ins outs ts)
  = (set_references self (ins ++ [input_of self c]) (outs ++ [output_of self c])
       (ts ++ [test_of self c]), Ok tt).
Proof.
  intros Hc. unfold add_reference. rewrite (dict_get_registered _ Hc). simpl.
  change (input_directory (set_references self ins outs ts) c (category_of c))
    with (input_of self c).
  by rewrite item_snoc.
Qed.

Lemma add_reference_unregistered self c i :
  ¬ registered c → add_reference (i, c) self = (self, Raise (KeyError c)).
Proof.
  intros Hc. unfold add_reference. by rewrite dict_get_not_in.
Qed.

Lemma add_reference_Ok_registered self self' c i :
  add_reference (i, c) self = (self', Ok tt) → registered c.
Proof.
  unfold add_reference. destruct (dict_get CASE_MAP c) eqn:E.
  - intros _. by apply dict_get_Ok in E.
  - by intros [= _].
Qed.

Lemma references_loop self cs : ∀ ins outs ts,
  Forall registered cs →
  m_for (combine (seq (length ins) (length cs)) cs) add_reference
        (set_references self ins outs ts)
  = (set_references self (ins ++ map (input_of self) cs)
       (outs ++ map (output_of self) cs) (ts ++ map (test_of self) cs), Ok tt).
Proof.
  induction cs as [| c cs IH]; intros ins outs ts Hcs.
  - simpl. by rewrite !app_nil_r.
  - apply Forall_cons in Hcs as [Hc Hcs]. simpl. unfold m_bind.
    rewrite add_reference_registered by done.
    specialize (IH (ins ++ [input_of self c]) (outs ++ [output_of self c])
                   (ts ++ [test_of self c]) Hcs).
    rewrite length_app in IH. simpl in IH.
    replace (length ins + 1)%nat with (S (length ins)) in IH by lia.
    rewrite IH. by rewrite <- !app_assoc.
Qed.

Lemma references_loop_unregistered self known c rest : ∀ ins outs ts,
  Forall registered known → ¬ registered c →
  m_for (combine (seq (length ins) (length (known ++ c :: rest)))
                 (known ++ c :: rest)) add_reference
        (set_references self ins outs ts)
  = (set_references self (ins ++ map (input_of self) known)
       (outs ++ map (output_of self) known) (ts ++ map (test_of self) known),
     Raise (KeyError c)).
Proof.
  induction known as [| k known IH]; intros ins outs ts Hk Hc.
  - simpl. unfold m_bind. rewrite add_reference_unregistered by done.
    by rewrite !app_nil_r.
  - apply Forall_cons in Hk as [Hk Hks]. simpl. unfold m_bind.
    rewrite add_reference_registered by done.
    specialize (IH (ins ++ [input_of self k]) (outs ++ [output_of self k])
                   (ts ++ [test_of self k]) Hks Hc).
    rewrite length_app in IH. simpl in IH.
    replace (length ins + 1)%nat with (S (length ins)) in IH by lia.
    rewrite IH. by rewrite <- !app_assoc.
Qed.

Lemma references_loop_Ok_registered cs : ∀ i self self',
  m_for (combine (seq i (length cs)) cs) add_reference self = (self', Ok tt) →
  Forall registered cs.
Proof.
  induction cs as [| c cs IH]; intros i self self'; [done |].
  simpl. intros (s1 & [] & H1 & H2)%m_bind_Ok.
  constructor; [by eapply add_reference_Ok_registered | by eapply IH].
Qed.

Lemma build_references_unfold self :
  _build_directory_references self
  = m_for (combine (seq 0 (length (case self))) (case self)) add_reference
          (set_references self [] [] []).
Proof. reflexivity. Qed.

(** [_build_directory_references] succeeds exactly on registered cases,
    and then holds one directory triple per case, in order. *)
Lemma build_references_Ok self self' :
  _build_directory_references self = (self', Ok tt) ↔
  Forall registered (case self)
  ∧ self' = set_references self (map (input_of self) (case self))
              (map (output_of self) (case self)) (map (test_of self) (case self)).
Proof.
  rewrite build_references_unfold. split.
  - intros H. assert (Hr : Forall registered (case self)).
    { by apply references_loop_Ok_registered in H. }
    split; [done |].
    pose proof (references_loop self (case self) [] [] [] Hr) as Hl.
    simpl in Hl. rewrite Hl in H. by injection H as <-.
  - intros [Hr ->].
    exact (references_loop self (case self) [] [] [] Hr).
Qed.

Lemma build_references_unregistered self known c rest :
  case self = known ++ c :: rest →
  Forall registered known → ¬ registered c →
  ∃ self', _build_directory_references self = (self', Raise (KeyError c)).
Proof.
  intros Hcase Hk Hc. rewrite build_references_unfold.
  rewrite Hcase. eexists.
  exact (references_loop_unregistered self known c rest [] [] [] Hk Hc).
Qed.

(** ** [run] keeps the resolved attributes *)

Section RunFacts.

Variable cwd : path.
Variable ignore_baseline : path -> list string -> list string.
Variable run_openfast_case :
  pathlike -> path -> string -> string -> bool -> bool -> tree -> tree * Z.

Local Abbreviation run' := (run cwd ignore_baseline run_openfast_case).

Lemma run_references self w self' w' r :
  run' (self, w) = ((self', w'), r) →
  ∃ r0, _build_directory_references self = (self', r0).
Proof.
  unfold run.
  destruct (_build_directory_references self) as [s1 [[] | e]].
  - destruct (execution s1).
    + destruct (m_bind _ _ w) as [w1 r1]. intros [= <- _ _]. eauto.
    + intros [= <- _ _]. eauto.
  - intros [= <- _ _]. eauto.
Qed.

Lemma after_runs_fields self self' :
  after_runs cwd ignore_baseline run_openfast_case self self' →
  jobs self' = jobs self ∧ case self' = case self.
Proof.
  induction 1 as [| self self1 self2 w w' r _ [IHj IHc] Hrun]; [done |].
  apply run_references in Hrun as [r0 Hb].
  apply build_references_fields in Hb as (-> & -> & _). done.
Qed.

End RunFacts.

Section JobsBound.

Variable platform_system : string.
Variable cpu_count : Z.
Variable validate_executable : pathlike -> option exn.
Variable validate_directory : path -> option exn.
Variable cwd : path.
Variable ignore_baseline : path -> list string -> list string.
Variable run_openfast_case :
  pathlike -> path -> string -> string -> bool -> bool -> tree -> tree * Z.

(** C9.  After a successful construction over a non-empty case list on a
    host with at least one core, the job count is at least one, at most the
    core count and at most the number of cases; [run] never changes it, so
    every later dispatch creates its pool with a worker count inside the
    same bounds. *)
Theorem jobs_bounds (a : args) (out : list string) (self : Executor) :
  case_list_of (a_case a) ≠ [] →
  1 ≤ cpu_count < 2 ^ 48 →
  __init__ platform_system cpu_count validate_executable validate_directory a
    = (out, Ok self) →
  ∀ self', after_runs cwd ignore_baseline run_openfast_case self self' →
    1 ≤ jobs self' ≤ cpu_count
    ∧ jobs self' ≤ Z.of_nat (length (case self'))
    ∧ pool_size self' = jobs self'
    ∧ Pool (pool_size self') = Ok (jobs self').
Proof.
  intros Hne Hcpu Hinit self' Hruns.
  unfold pool_size.
  apply after_runs_fields in Hruns as [-> ->].
  pose proof (ceil_mul_08_exact cpu_count Hcpu) as Hceil.
  pose proof (ceil_four_fifths_bounds cpu_count ltac:(lia)) as Hb.
  apply init_Ok_fields in Hinit as (Hj & Hc & _ & _ & Hjobs).
  rewrite Hc. set (n := Z.of_nat (length (case_list_of (a_case a)))) in *.
  assert (Hn : 1 ≤ n).
  { unfold n. destruct (case_list_of (a_case a)); [done | simpl; lia]. }
  assert (Hbound : 1 ≤ jobs self ≤ cpu_count ∧ jobs self ≤ n).
  { rewrite Hjobs. cbv zeta. rewrite Hceil.
    destruct (Z.eqb_spec (a_jobs a) 0).
    - simpl. destruct (Z.ltb_spec 0 (ceil_four_fifths cpu_count)); [| lia].
      destruct (Z.ltb_spec n (Z.min (ceil_four_fifths cpu_count) cpu_count)); lia.
    - destruct (Z.eqb_spec (a_jobs a) (-1)).
      + destruct (Z.ltb_spec 0 (ceil_four_fifths cpu_count)); [| lia].
        destruct (Z.ltb_spec n (Z.min (ceil_four_fifths cpu_count) cpu_count)); lia.
      + destruct (Z.ltb_spec 0 (a_jobs a)); [| lia].
        destruct (Z.ltb_spec n (Z.min (a_jobs a) cpu_count)); lia. }
  split; [lia |]. split; [lia |]. split; [done |].
  unfold Pool. destruct (Z.ltb_spec (jobs self) 1); [lia | done].
Qed.

End JobsBound.

(** The bounds at a ten-core host and a plan of three cases. *)
Lemma jobs_bounds_witness :
  ∃ self, Sample.construct
            (Sample.request Sample.three_cases Sample.both_executables
                            "Linux" "gnu" 5) = ([], Ok self)
          ∧ 1 ≤ jobs self ≤ 10 ∧ jobs self ≤ 3.
Proof.
  destruct (Sample.construct
              (Sample.request Sample.three_cases Sample.both_executables
                              "Linux" "gnu" 5)) as [out r] eqn:E.
  evaluated E.
  destruct (jobs_bounds "Linux" 10 Sample.valid_executable Sample.valid_directory
              [] no_ignore Sample.quiet_case
              (Sample.request Sample.three_cases Sample.both_executables
                              "Linux" "gnu" 5) _ _
              ltac:(vm_compute; discriminate) ltac:(lia) E _
              (after_none _ _ _ _)) as (H1 & H2 & _).
  eexists. split; [reflexivity |].
  split; [exact H1 | exact H2].
Defined.

(** ** The executables: [select_executables] and [_run_single_case] *)

(** A string and a suffix it ends with share their last character. *)
Lemma endswith_last_char s suffix :
  endswith s suffix = true → (0 < String.length suffix)%nat →
  String.get (String.length s - 1) s
  = String.get (String.length suffix - 1) suffix.
Proof.
  unfold endswith. intros [Hle Heq%String.eqb_eq]%andb_true_iff Hpos.
  apply Nat.leb_le in Hle.
  rewrite <- Heq at 2.
  rewrite String.substring_correct1 by lia.
  f_equal. lia.
Qed.

Lemma endswith_openfast_not_driver s :
  endswith s "openfast" = true → endswith s "beamdyn_driver" = false.
Proof.
  intros H1. destruct (endswith s "beamdyn_driver") eqn:H2; [| done].
  apply endswith_last_char in H1; [| simpl; lia].
  apply endswith_last_char in H2; [| simpl; lia].
  rewrite H1 in H2. discriminate.
Qed.

Lemma select_executables_snoc src l exe :
  select_executables src (l ++ [exe]) =
    let acc := select_executables src l in
    if endswith exe "openfast" then (Path (Str exe), snd acc)
    else if endswith exe "beamdyn_driver" then (fst acc, Path (Str exe))
    else acc.
Proof. unfold select_executables. by rewrite fold_left_app. Qed.

Lemma last_such_snoc test l e :
  last_such test (l ++ [e]) = if test e then Some e else last_such test l.
Proof.
  unfold last_such. rewrite List.filter_app. simpl.
  destruct (test e); [by rewrite last_snoc | by rewrite app_nil_r].
Qed.

Lemma select_executables_last src l :
  select_executables src l =
    (executable_or src (last_such (fun e => endswith e "openfast") l),
     executable_or src (last_such (fun e => endswith e "beamdyn_driver") l)).
Proof.
  induction l as [| exe l IH] using rev_ind; [done |].
  rewrite select_executables_snoc, !last_such_snoc, IH. cbv zeta.
  destruct (endswith exe "openfast") eqn:E1.
  - by rewrite (endswith_openfast_not_driver _ E1).
  - by destruct (endswith exe "beamdyn_driver").
Qed.

Section ExecutableClaims.

Variable platform_system : string.
Variable cpu_count : Z.
Variable validate_executable : pathlike -> option exn.
Variable validate_directory : path -> option exn.
Variable run_openfast_case :
  pathlike -> path -> string -> string -> bool -> bool -> tree -> tree * Z.

(** C8, as amended.  Of the supplied paths, the last one ending in
    ["openfast"] is the general executable and the last one ending in
    ["beamdyn_driver"] is the beamdyn driver; any other path is ignored
    and an executable without a qualifying path stays the source argument.
    A beamdyn case is started with the driver, any other registered case
    with the general executable. *)
Theorem executable_selection (a : args) (out : list string) (self : Executor) :
  __init__ platform_system cpu_count validate_executable validate_directory a
    = (out, Ok self) →
  of_executable self
    = executable_or (a_source a)
        (last_such (fun e => endswith e "openfast") (a_executable a))
  ∧ bd_executable self
    = executable_or (a_source a)
        (last_such (fun e => endswith e "beamdyn_driver") (a_executable a))
  ∧ ∀ ix c test w, registered c →
      ∃ w' code,
        _run_single_case run_openfast_case self (ix, c, test) w
          = (w', Ok (code, ix, c))
        ∧ ∃ input,
            w_launched w' =
              w_launched w
              ++ [(if bool_decide (category_of c = beamdyn)
                   then bd_executable self else of_executable self, input)].
Proof.
  intros (_ & _ & Hof & Hbd & _)%init_Ok_fields.
  rewrite select_executables_last in Hof, Hbd. simpl in Hof, Hbd.
  split; [done |]. split; [done |].
  intros ix c test w Hc. unfold _run_single_case, m_bind, m_lift.
  rewrite (dict_get_registered _ Hc).
  destruct (run_openfast_case _ _ _ _ _ _ _) as [t code].
  eexists _, code. split; [reflexivity |]. simpl. eauto.
Qed.

End ExecutableClaims.

Lemma executable_selection_witness :
  ∃ self, Sample.construct
            (Sample.request Sample.three_cases Sample.both_executables
                            "Linux" "gnu" (-1)) = ([], Ok self)
          ∧ of_executable self
            = PurePath ["opt"; "openfast"; "build"; "glue-codes"; "openfast"; "openfast"]
          ∧ bd_executable self
            = PurePath ["opt"; "openfast"; "build"; "modules"; "beamdyn"; "beamdyn_driver"].
Proof.
  destruct (Sample.construct
              (Sample.request Sample.three_cases Sample.both_executables
                              "Linux" "gnu" (-1))) as [out r] eqn:E.
  evaluated E.
  destruct (executable_selection "Linux" 10 Sample.valid_executable
              Sample.valid_directory Sample.quiet_case _ _ _ E) as (H1 & H2 & _).
  eexists. split; [reflexivity |].
  rewrite H1, H2. vm_compute. split; reflexivity.
Defined.

(** C8 as stated fails: a supplied path that carries no beamdyn suffix and
    does not end in ["openfast"] is not taken as the general executable,
    which stays the source argument. *)
Lemma other_path_is_not_general_executable :
  ∃ self, Sample.construct
            (Sample.request Sample.three_cases Sample.suffixed_executables
                            "Linux" "gnu" (-1)) = ([], Ok self)
          ∧ of_executable self = Str "/opt/openfast"
          ∧ of_executable self
            ≠ Path (Str "/opt/openfast/install/bin/openfast_x64").
Proof.
  vm_compute. eexists. split; [reflexivity |]. split; [reflexivity | discriminate].
Qed.

(** ** Unregistered case names *)

Section UnknownCase.

Variable platform_system : string.
Variable cpu_count : Z.
Variable validate_executable : pathlike -> option exn.
Variable validate_directory : path -> option exn.
Variable cwd : path.
Variable ignore_baseline : path -> list string -> list string.
Variable run_openfast_case :
  pathlike -> path -> string -> string -> bool -> bool -> tree -> tree * Z.

(** C5, as amended.  The constructor does not consult the catalog.  An
    object constructed over a case list whose first unregistered name is
    [c] raises [KeyError c] when it is run, out of
    [_build_directory_references]: the file tree is as before, nothing has
    been printed and no external command has been started. *)
Theorem unregistered_case_raises_in_run
    (a : args) (out : list string) (self : Executor)
    (known : list string) (c : string) (rest : list string) :
  __init__ platform_system cpu_count validate_executable validate_directory a
    = (out, Ok self) →
  case_list_of (a_case a) = known ++ c :: rest →
  Forall registered known →
  ¬ registered c →
  ∀ w, ∃ self',
    run cwd ignore_baseline run_openfast_case (self, w)
      = ((self', w), Raise (KeyError c)).
Proof.
  intros Hinit Hcase Hknown Hc w.
  apply init_Ok_fields in Hinit as (_ & Hcs & _).
  rewrite Hcase in Hcs.
  destruct (build_references_unregistered self known c rest Hcs Hknown Hc)
    as [self' Hb].
  exists self'. unfold run. by rewrite Hb.
Qed.

End UnknownCase.

(** C5 as stated fails: construction over an unregistered case name
    raises nothing. *)
Lemma unregistered_case_constructs :
  ∃ self, Sample.construct
            (Sample.request (CaseList ["AOC_WSt"; "no_such_case"])
                            Sample.both_executables "Linux" "gnu" (-1))
          = ([], Ok self)
          ∧ case self = ["AOC_WSt"; "no_such_case"].
Proof. vm_compute. eexists. split; reflexivity. Qed.

Lemma registered_iff c : registered c ↔ str_in c (dict_keys CASE_MAP) = true.
Proof. unfold registered. by rewrite str_in_elem_of. Qed.

Lemma unregistered_case_raises_in_run_witness :
  ∃ self self',
    Sample.construct
      (Sample.request (CaseList ["AOC_WSt"; "no_such_case"])
                      Sample.both_executables "Linux" "gnu" (-1))
    = ([], Ok self)
    ∧ run [] no_ignore Sample.quiet_case (self, Sample.empty_world)
      = ((self', Sample.empty_world), Raise (KeyError "no_such_case")).
Proof.
  destruct (Sample.construct
              (Sample.request (CaseList ["AOC_WSt"; "no_such_case"])
                              Sample.both_executables "Linux" "gnu" (-1)))
    as [out r] eqn:E.
  evaluated E.
  destruct (unregistered_case_raises_in_run "Linux" 10 Sample.valid_executable
              Sample.valid_directory [] no_ignore Sample.quiet_case
              _ _ _ ["AOC_WSt"] "no_such_case" [] E eq_refl
              ltac:(repeat constructor; apply registered_iff; vm_compute; reflexivity)
              ltac:(rewrite registered_iff; vm_compute; discriminate)
              Sample.empty_world) as [self' Hrun].
  eexists _, self'. split; [reflexivity | exact Hrun].
Defined.

(** ** Dispatch *)

Lemma lookup_combine {A B} (l : list A) (k : list B) i x y :
  l !! i = Some x → k !! i = Some y → combine l k !! i = Some (x, y).
Proof.
  revert k i. induction l as [| a l IH]; intros [| b k] [| i]; simpl; try done.
  - by intros [= ->] [= ->].
  - apply IH.
Qed.

Lemma m_map_cons {S A B} (f : A -> M S B) x xs s :
  m_map f (x :: xs) s =
    match f x s with
    | (s1, Ok y) =>
        match m_map f xs s1 with
        | (s2, Ok ys) => (s2, Ok (y :: ys))
        | (s2, Raise e) => (s2, Raise e)
        end
    | (s1, Raise e) => (s1, Raise e)
    end.
Proof.
  simpl. unfold m_bind. destruct (f x s) as [s1 [y | e]]; [| done].
  by destruct (m_map f xs s1) as [s2 [ys | e]].
Qed.

Lemma m_map_Ok_shape {S A B} (f : A -> M S B) (key : A -> Prop) :
  (∀ x s, key x → ∃ s' y, f x s = (s', Ok y)) →
  ∀ xs s, Forall key xs →
    ∃ s' ys, m_map f xs s = (s', Ok ys) ∧ length ys = length xs.
Proof.
  intros Hf. induction xs as [| x xs IH]; intros s Hxs.
  - exists s, []. done.
  - apply Forall_cons in Hxs as [Hx Hxs].
    destruct (Hf x s Hx) as (s1 & y & Hy).
    destruct (IH s1 Hxs) as (s2 & ys & Hys & Hlen).
    exists s2, (y :: ys). rewrite m_map_cons, Hy, Hys. simpl. by rewrite Hlen.
Qed.

Section DispatchFacts.

Variable run_openfast_case :
  pathlike -> path -> string -> string -> bool -> bool -> tree -> tree * Z.

Local Abbreviation single := (_run_single_case run_openfast_case).

Lemma run_single_case_registered self ix c test w :
  registered c →
  ∃ w' code, single self (ix, c, test) w = (w', Ok (code, ix, c)).
Proof.
  intros Hc. unfold _run_single_case, m_bind, m_lift.
  rewrite (dict_get_registered _ Hc).
  destruct (run_openfast_case _ _ _ _ _ _ _) as [t code]. eauto.
Qed.

(** Every task of registered cases returns, and the results carry the
    labels and names of the arguments in the same order. *)
Lemma m_map_single_cases self : ∀ tasks w,
  Forall (fun a : string * string * path => registered (snd (fst a))) tasks →
  ∃ w' results,
    m_map (single self) tasks w = (w', Ok results)
    ∧ map (fun r : Z * string * string => (snd (fst r), snd r)) results
      = map (fun a : string * string * path => (fst (fst a), snd (fst a))) tasks.
Proof.
  induction tasks as [| [[ix c] test] tasks IH]; intros w Htasks.
  - exists w, []. done.
  - apply Forall_cons in Htasks as [Hc Htasks]. simpl in Hc.
    destruct (run_single_case_registered self ix c test w Hc) as (w1 & code & H1).
    destruct (IH w1 Htasks) as (w2 & results & H2 & Hmap).
    exists w2, ((code, ix, c) :: results). rewrite m_map_cons, H1, H2.
    split; [done |]. simpl. by rewrite Hmap.
Qed.

Lemma ordinal_labels_length n : length (ordinal_labels n) = n.
Proof. unfold ordinal_labels. by rewrite length_map, length_seq. Qed.

Lemma ordinal_labels_lookup n i :
  (i < n)%nat →
  ordinal_labels n !! i
  = Some (str_of_Z (Z.of_nat (S i)) +:+ "/" +:+ str_of_Z (Z.of_nat n)).
Proof.
  intros Hi. unfold ordinal_labels. rewrite list_lookup_fmap.
  by rewrite lookup_seq_lt.
Qed.

(** A plan of [n >= 1] registered cases whose references are built and
    whose job count is at least one: the pool returns exactly one result
    per case, the [i]-th carrying the label of ordinal [i + 1] and the name
    of the [i]-th case, and [_run_openfast_cases] ends normally whatever
    the exit codes are. *)
Lemma dispatch_complete self tests w :
  test_build self = Some tests →
  length tests = length (case self) →
  Forall registered (case self) →
  1 ≤ jobs self →
  (∃ w' results,
     dispatch run_openfast_case self w = (w', Ok results)
     ∧ length results = length (case self)
     ∧ ∀ i c, case self !! i = Some c →
         ∃ code, results !! i
                 = Some (code,
                         str_of_Z (Z.of_nat (S i)) +:+ "/"
                           +:+ str_of_Z (Z.of_nat (length (case self))), c))
  ∧ ∃ w'', _run_openfast_cases run_openfast_case self w = (w'', Ok tt).
Proof.
  intros Htests Hlen Hreg Hjobs.
  set (tasks := zip3 (ordinal_labels (length (case self))) (case self) tests).
  assert (Htasks : Forall (fun a : string * string * path =>
                            registered (snd (fst a))) tasks).
  { apply Forall_forall. intros [[ix c] t] Hin. simpl.
    apply list_elem_of_In in Hin.
    apply in_combine_l, in_combine_r in Hin.
    rewrite Forall_forall in Hreg. apply Hreg. by apply list_elem_of_In. }
  destruct (m_map_single_cases self tasks w Htasks) as (w' & results & Hmap & Hshape).
  assert (Hd : dispatch run_openfast_case self w = (w', Ok results)).
  { unfold dispatch, m_bind, m_lift. rewrite Htests. simpl.
    unfold Pool, pool_size. destruct (Z.ltb_spec (jobs self) 1); [lia |]. done. }
  assert (Htasks_len : length tasks = length (case self)).
  { unfold tasks, zip3. rewrite !length_combine, ordinal_labels_length. lia. }
  assert (Hres_len : length results = length (case self)).
  { rewrite <- Htasks_len.
    apply (f_equal (@length _)) in Hshape. by rewrite !length_map in Hshape. }
  split.
  - exists w', results. split; [done |]. split; [done |].
    intros i c Hic.
    assert (Hi : (i < length (case self))%nat) by (by eapply lookup_lt_Some).
    destruct (lookup_lt_is_Some_2 results i ltac:(lia)) as [[[code ix] c'] Hr].
    exists code. rewrite Hr.
    assert (Hx : map (fun r : Z * string * string => (snd (fst r), snd r)) results !! i
                 = Some (ix, c')) by (by rewrite list_lookup_fmap, Hr).
    rewrite Hshape, list_lookup_fmap in Hx.
    destruct (lookup_lt_is_Some_2 tests i ltac:(lia)) as [t Ht].
    assert (Ha : tasks !! i
                 = Some (str_of_Z (Z.of_nat (S i)) +:+ "/"
                           +:+ str_of_Z (Z.of_nat (length (case self))), c, t)).
    { unfold tasks, zip3.
      apply lookup_combine; [| done].
      apply lookup_combine; [| done].
      by apply ordinal_labels_lookup. }
    rewrite Ha in Hx. simpl in Hx. injection Hx as <- <-. reflexivity.
  - unfold _run_openfast_cases, m_bind at 1. rewrite Hd.
    destruct (tally results) as [fail success].
    unfold m_bind, print, m_when. simpl.
    destruct (negb _); eauto.
Qed.

End DispatchFacts.

(** C3 at the empty plan.  Over an empty case list the job count resolves
    to 0, the references are built, and the dispatch phase raises
    [ValueError] out of [Pool] instead of returning an empty list of
    results; nothing is printed and nothing is started. *)
Theorem empty_plan_dispatch_raises :
  ∃ self,
    Sample.prepared (Sample.plan []) = Ok self
    ∧ case self = []
    ∧ pool_size self = 0
    ∧ ∀ w, _run_openfast_cases Sample.quiet_case self w
           = (w, Raise (ValueError "Number of processes must be at least 1")).
Proof.
  vm_compute. eexists. split; [reflexivity |]. split; [reflexivity |].
  split; [reflexivity |]. intros w. reflexivity.
Qed.

(** ** [test_norm] *)

(** C4 at any non-empty case list.  The first turn of the loop reads the
    global name [baseline], which the module does not bind: [test_norm]
    raises [NameError] whatever lists it is given, and only the empty case
    list yields a result (the empty list). *)
Theorem test_norm_raises_name_error
    (Data Info Norms : Type)
    (calculate_norms :
       pyobj (Data * Info) -> pyobj (Data * Info) -> list string -> res Norms)
    (c : string) (case_list : list string)
    (baseline_list test_list : list (Data * Info)) (norm_list : list string) :
  test_norm Data Info Norms calculate_norms (c :: case_list)
            baseline_list test_list norm_list
    = Raise (NameError "baseline")
  ∧ test_norm Data Info Norms calculate_norms [] baseline_list test_list norm_list
    = Ok [].
Proof. split; reflexivity. Qed.

(** ** [read_out_files] *)

Lemma res_bind_Ok {A B} (r : res A) (k : A -> res B) b :
  (r ≫= k) = Ok b → ∃ a, r = Ok a ∧ k a = Ok b.
Proof. destruct r as [a | e]; [eauto | done]. Qed.

Lemma res_fold_app {A B} (f : B -> A -> res B) xs ys b :
  res_fold f (xs ++ ys) b = b' ← res_fold f xs b; res_fold f ys b'.
Proof.
  revert b. induction xs as [| x xs IH]; intros b; simpl; [done |].
  destruct (f b x) as [b1 | e]; simpl; [apply IH | done].
Qed.

Section ReadFacts.

Variables Data Info : Type.
Variable validate_file : path -> option exn.
Variable load_output : path -> res (Data * Info).

Local Abbreviation read_one' := (read_one Data Info validate_file load_output).
Local Abbreviation read_out_files' :=
  (read_out_files Data Info validate_file load_output).

(** One turn on a linear case: the zero-parameter handler is called with
    three arguments. *)
Lemma read_one_linear acc c out_dir target :
  dict_get CASE_MAP c = Ok linear →
  read_one' acc (c, out_dir, target)
  = Raise (TypeError "takes 0 positional arguments but 3 were given").
Proof.
  intros Hc. unfold read_one. destruct acc as [[cl bl] tl]. by rewrite Hc.
Qed.

(** One turn on a regression or beamdyn case: both files are validated,
    local first, then both are loaded, local first. *)
Lemma read_one_files acc c out_dir target :
  registered c → category_of c ≠ linear →
  read_one' acc (c, out_dir, target) =
    (_ ← guard (validate_file (join out_dir [out_file_name c]));
     _ ← guard (validate_file (join target [out_file_name c]));
     test ← load_output (join out_dir [out_file_name c]);
     base ← load_output (join target [out_file_name c]);
     Ok (fst (fst acc) ++ [c], snd (fst acc) ++ [base], snd acc ++ [test])).
Proof.
  intros Hc Hcat. unfold read_one. destruct acc as [[cl bl] tl].
  rewrite (dict_get_registered _ Hc). unfold out_file_name.
  destruct (category_of c); [| done |]; simpl;
    destruct (validate_file _); simpl; try done;
    destruct (validate_file _); simpl; done.
Qed.

(** The three lists grow together. *)
Lemma read_one_lengths acc acc' item :
  read_one' acc item = Ok acc' →
  length (fst (fst acc)) = length (snd (fst acc)) →
  length (fst (fst acc)) = length (snd acc) →
  length (fst (fst acc')) = length (snd (fst acc'))
  ∧ length (fst (fst acc')) = length (snd acc').
Proof.
  unfold read_one. destruct acc as [[cl bl] tl], item as [[c o] t].
  intros (cat & _ & H)%res_bind_Ok.
  apply res_bind_Ok in H as ([local baseline] & _ & H).
  intros H1 H2. simpl in H1, H2.
  assert (Hload : (test ← load_output_of Data Info load_output local;
                   base ← load_output_of Data Info load_output baseline;
                   Ok (cl ++ [c], bl ++ [base], tl ++ [test])) = Ok acc' →
                  length (fst (fst acc')) = length (snd (fst acc'))
                  ∧ length (fst (fst acc')) = length (snd acc')).
  { intros (test & _ & (base & _ & [= <-])%res_bind_Ok)%res_bind_Ok.
    simpl. rewrite !length_app. simpl. lia. }
  destruct local, baseline; try (by apply Hload).
  injection H as <-. done.
Qed.

End ReadFacts.

Section ReadClaims.

Variables Data Info : Type.
Variable validate_file : path -> option exn.
Variable load_output : path -> res (Data * Info).

Local Abbreviation read_one' := (read_one Data Info validate_file load_output).
Local Abbreviation read_out_files' :=
  (read_out_files Data Info validate_file load_output).

Lemma read_out_files_unfold self tests outs :
  test_build self = Some tests → outputs self = Some outs →
  read_out_files' self
  = res_fold read_one' (zip3 (case self) tests outs) ([], [], []).
Proof. intros Ht Ho. unfold read_out_files. by rewrite Ht, Ho. Qed.

(** C2, as amended.  When the cases before [c] have been read and the
    local output file of the regression or beamdyn case [c] fails
    validation, or its local file passes and its baseline file fails,
    [read_out_files] raises the validator's exception: no list is
    returned, for this case or for any other. *)
Theorem missing_output_is_fatal
    (self : Executor) (tests outs : list path)
    (before : list (string * path * path)) (c : string) (out_dir target : path)
    (after : list (string * path * path)) (acc : out_lists Data Info) (e : exn) :
  test_build self = Some tests →
  outputs self = Some outs →
  zip3 (case self) tests outs = before ++ (c, out_dir, target) :: after →
  res_fold read_one' before ([], [], []) = Ok acc →
  registered c →
  category_of c ≠ linear →
  validate_file (join out_dir [out_file_name c]) = Some e
  ∨ (validate_file (join out_dir [out_file_name c]) = None
     ∧ validate_file (join target [out_file_name c]) = Some e) →
  read_out_files' self = Raise e.
Proof.
  intros Ht Ho Hzip Hbefore Hc Hcat Hmissing.
  rewrite (read_out_files_unfold _ _ _ Ht Ho), Hzip, res_fold_app, Hbefore.
  simpl. rewrite read_one_files by done.
  destruct Hmissing as [-> | [-> ->]]; done.
Qed.

(** A linear case after cases that were read makes the whole call raise. *)
Lemma read_out_files_linear self tests outs before c out_dir target after acc :
  test_build self = Some tests →
  outputs self = Some outs →
  zip3 (case self) tests outs = before ++ (c, out_dir, target) :: after →
  res_fold read_one' before ([], [], []) = Ok acc →
  dict_get CASE_MAP c = Ok linear →
  read_out_files' self
  = Raise (TypeError "takes 0 positional arguments but 3 were given").
Proof.
  intros Ht Ho Hzip Hbefore Hc.
  rewrite (read_out_files_unfold _ _ _ Ht Ho), Hzip, res_fold_app, Hbefore.
  simpl. by rewrite read_one_linear.
Qed.

(** C10 at a plan with a linear case.  Whatever the validator and the
    loader do, reading the outputs of the plan made of the one linear case
    [5MW_Land_BD_Linear] raises [TypeError]: the handler of the linear
    category takes no parameter and is called with three arguments, so the
    case is never skipped and no list is returned. *)
Theorem linear_case_read_raises :
  ∃ self,
    Sample.prepared (Sample.plan ["5MW_Land_BD_Linear"]) = Ok self
    ∧ read_out_files' self
      = Raise (TypeError "takes 0 positional arguments but 3 were given").
Proof.
  destruct (Sample.prepared (Sample.plan ["5MW_Land_BD_Linear"])) as [self |] eqn:E;
    vm_compute in E; [| discriminate].
  injection E as <-. eexists. split; [reflexivity |].
  eapply (read_out_files_linear _ _ _ []); try reflexivity.
Qed.

End ReadClaims.

(** C2 as stated fails.  In the scenario of the specification, where
    [bd_curved_beam] lacks its local output file, the read raises with a
    validator that rejects missing files, and also with one that accepts
    everything (the loader then fails on the missing file): no case is
    marked as skipped and no list is returned, although the files of
    [AOC_WSt] are in place. *)
Lemma missing_output_aborts_batch :
  ∃ self,
    Sample.prepared (Sample.plan ["AOC_WSt"; "bd_curved_beam"]) = Ok self
    ∧ read_out_files string unit (Sample.strict_validate Sample.outputs_tree)
        (Sample.load_content Sample.outputs_tree) self
      = Raise (FileNotFoundError
                 ["opt"; "openfast"; "build"; "local_results";
                  "bd_curved_beam"; "bd_driver.out"])
    ∧ read_out_files string unit Sample.lenient_validate
        (Sample.load_content Sample.outputs_tree) self
      = Raise (FileNotFoundError
                 ["opt"; "openfast"; "build"; "local_results";
                  "bd_curved_beam"; "bd_driver.out"]).
Proof.
  vm_compute. eexists. split; [reflexivity |]. split; reflexivity.
Qed.

Lemma missing_output_is_fatal_witness :
  ∃ self,
    Sample.prepared (Sample.plan ["AOC_WSt"; "bd_curved_beam"]) = Ok self
    ∧ read_out_files string unit (Sample.strict_validate Sample.outputs_tree)
        (Sample.load_content Sample.outputs_tree) self
      = Raise (FileNotFoundError
                 ["opt"; "openfast"; "build"; "local_results";
                  "bd_curved_beam"; "bd_driver.out"]).
Proof.
  destruct (Sample.prepared (Sample.plan ["AOC_WSt"; "bd_curved_beam"]))
    as [self |] eqn:E; vm_compute in E; [| discriminate].
  injection E as <-. eexists. split; [reflexivity |].
  eapply (missing_output_is_fatal string unit
            (Sample.strict_validate Sample.outputs_tree)
            (Sample.load_content Sample.outputs_tree) _ _ _
            [("AOC_WSt",
              ["opt"; "openfast"; "build"; "local_results"; "AOC_WSt"],
              ["opt"; "openfast"; "reg_tests"; "r-test"; "glue-codes";
               "openfast"; "AOC_WSt"; "linux-gnu"])]
            "bd_curved_beam" _ _ []).
  - reflexivity.
  - reflexivity.
  - vm_compute. reflexivity.
  - vm_compute. reflexivity.
  - apply registered_iff. vm_compute. reflexivity.
  - vm_compute. discriminate.
  - left. vm_compute. reflexivity.
Defined.

(** ** The file tree *)

Lemma isdir_true t p : isdir t p = true ↔ t !! p = Some Dir.
Proof. unfold isdir. destruct (t !! p) as [[] |]; naive_solver. Qed.

Lemma isfile_true t p : isfile t p = true ↔ ∃ content, t !! p = Some (File content).
Proof. unfold isfile. destruct (t !! p) as [[] |]; naive_solver. Qed.

Lemma elem_of_prefixes (p q : path) : q ∈ prefixes p ↔ q `prefix_of` p.
Proof.
  unfold prefixes. rewrite list_elem_of_fmap. split.
  - intros (k & -> & _). apply prefix_take.
  - intros [rest ->]. exists (length q). split.
    + by rewrite take_app_length.
    + apply elem_of_seq. rewrite length_app. lia.
Qed.

Lemma lookup_set_dirs (t : tree) (l : list path) x :
  foldr (fun q acc => <[q := Dir]> acc) t l !! x
  = if bool_decide (x ∈ l) then Some Dir else t !! x.
Proof.
  induction l as [| q l IH]; cbn [foldr].
  - by rewrite bool_decide_eq_false_2 by set_solver.
  - destruct (decide (q = x)) as [-> | Hne].
    + rewrite lookup_insert_eq. by rewrite bool_decide_eq_true_2 by set_solver.
    + rewrite lookup_insert_ne by done. rewrite IH.
      destruct (decide (x ∈ l)).
      * by rewrite !bool_decide_eq_true_2 by set_solver.
      * by rewrite !bool_decide_eq_false_2 by set_solver.
Qed.

(** [makedirs] keeps every entry, adds entries only on the way to [p],
    and leaves [p] a directory. *)
Lemma makedirs_Ok t p t' :
  makedirs t p = Ok t' →
  t ⊆ t'
  ∧ (∀ x, t !! x = None → is_Some (t' !! x) → x `prefix_of` p)
  ∧ t' !! p = Some Dir.
Proof.
  unfold makedirs. case_bool_decide; [done |].
  destruct (existsb (isfile t) (prefixes p)) eqn:Hfiles; [done |].
  assert (Hl : ∀ x, x ∈ prefixes p ↔ x `prefix_of` p) by apply elem_of_prefixes.
  revert Hfiles Hl. generalize (prefixes p). intros l Hfiles Hl Heq.
  assert (t' = foldr (fun q acc => <[q := Dir]> acc) t l) as -> by congruence.
  clear Heq. split; [| split].
  - apply map_subseteq_spec. intros x n Hx. rewrite lookup_set_dirs.
    case_bool_decide as Hin; [| done].
    destruct n as [content |]; [| done].
    assert (existsb (isfile t) l = true); [| congruence].
    apply existsb_exists. exists x. split; [by apply list_elem_of_In |].
    apply isfile_true. eauto.
  - intros x Hx [n Hn]. rewrite lookup_set_dirs in Hn.
    case_bool_decide as Hin; [by apply Hl |].
    congruence.
  - rewrite lookup_set_dirs. rewrite bool_decide_eq_true_2; [done |].
    by apply Hl.
Qed.

Lemma strip_prefix_Some p q rel : strip_prefix p q = Some rel ↔ q = p ++ rel.
Proof.
  revert q. induction p as [| a p IH]; intros q; simpl.
  - naive_solver.
  - destruct q as [| b q]; [naive_solver |].
    destruct (String.eqb_spec a b) as [-> | Hne].
    + rewrite IH. naive_solver.
    + naive_solver.
Qed.

(** Every entry [copytree] writes lies strictly below the destination and
    copies an entry of the source. *)
Lemma copied_lookup (ig : path -> list string -> list string) (t : tree) src dst x n :
  copied ig t src dst !! x = Some n →
  ∃ name rel, x = dst ++ name :: rel ∧ t !! (src ++ name :: rel) = Some n.
Proof.
  unfold copied. intros H%elem_of_list_to_map_2.
  apply list_elem_of_omap in H as ([q m] & Hq & Hf). cbn [fst snd] in Hf.
  destruct (strip_prefix src q) as [[| name rel] |] eqn:Hs; try done.
  destruct (ignored ig t src (name :: rel)) eqn:Hig; [done |].
  injection Hf as <- <-. apply strip_prefix_Some in Hs as ->.
  exists name, rel. split; [done |]. by apply elem_of_map_to_list.
Qed.

(** [copytree] keeps every entry, adds entries only at, above and below
    the destination, and leaves the destination a directory. *)
Lemma copytree_Ok (ig : path -> list string -> list string) (t : tree) src dst t' :
  copytree ig t src dst = Ok t' →
  t ⊆ t'
  ∧ (∀ x, t !! x = None → is_Some (t' !! x) → related dst x)
  ∧ t' !! dst = Some Dir
  ∧ t !! src = Some Dir.
Proof.
  unfold copytree. destruct (t !! src) as [[] |] eqn:Hsrc; try done.
  case_bool_decide; [done |].
  intros (t1 & Hmk & [= <-])%res_bind_Ok.
  apply makedirs_Ok in Hmk as (Hsub & Hnew & Hdst).
  split; [| split; [| split]].
  - etrans; [exact Hsub |]. apply map_union_subseteq_l.
  - intros x Hx [n Hn]. apply lookup_union_Some_raw in Hn as [Hn | [_ Hn]].
    + right. apply Hnew; [done | eauto].
    + apply copied_lookup in Hn as (name & rel & -> & _).
      left. by apply prefix_app_r.
  - by apply lookup_union_Some_l.
  - done.
Qed.

(** On a well-formed tree the ancestors of an entry are directories. *)
Lemma well_formed_ancestor t p rel :
  well_formed t → rel ≠ [] → is_Some (t !! (p ++ rel)) → t !! p = Some Dir.
Proof.
  intros Hwf. induction rel as [| name rel IH] using rev_ind; [done |].
  intros _ Hsome. rewrite app_assoc in Hsome.
  apply Hwf in Hsome. destruct rel as [| a rel].
  - by rewrite app_nil_r in Hsome.
  - apply IH; [done | by rewrite Hsome].
Qed.

(** On a well-formed tree no entry written by [copytree] meets an
    existing one: the order of the union in its definition is immaterial. *)
Lemma copytree_replaces_nothing (ig : path -> list string -> list string) (t : tree) src dst t' :
  well_formed t →
  copytree ig t src dst = Ok t' →
  ∃ t1, makedirs t dst = Ok t1
        ∧ t1 ##ₘ copied ig t src dst
        ∧ t' = copied ig t src dst ∪ t1.
Proof.
  intros Hwf. unfold copytree. destruct (t !! src) as [[] |]; try done.
  case_bool_decide; [done |].
  intros (t1 & Hmk & [= <-])%res_bind_Ok. exists t1. split; [done |].
  assert (Hdisj : t1 ##ₘ copied ig t src dst).
  { apply map_disjoint_spec. intros x n m Hx Hc.
    apply copied_lookup in Hc as (name & rel & -> & _).
    pose proof Hmk as (_ & Hnew & _)%makedirs_Ok.
    assert (Hfresh : t !! dst = None).
    { unfold makedirs in Hmk. case_bool_decide as Hd; [done |].
      by apply eq_None_not_Some. }
    destruct (t !! (dst ++ name :: rel)) as [y |] eqn:Hy.
    - assert (t !! dst = Some Dir); [| congruence].
      apply (well_formed_ancestor t dst (name :: rel)); [done | done | by rewrite Hy].
    - specialize (Hnew _ Hy ltac:(eauto)).
      apply prefix_length in Hnew. rewrite length_app in Hnew. simpl in Hnew. lia. }
  split; [done |]. by apply map_union_comm.
Qed.

(** What a successful [copy] does: one file is written. *)
Lemma copy_Ok t src dst t' :
  copy t src dst = Ok t' →
  ∃ content,
    let d := if isdir t dst then dst ++ [basename src] else dst in
    t !! src = Some (File content)
    ∧ src ≠ d
    ∧ t !! d ≠ Some Dir
    ∧ isdir t (dirname d) = true
    ∧ t' = <[d := File content]> t.
Proof.
  unfold copy. set (d := if isdir t dst then dst ++ [basename src] else dst).
  destruct (t !! src) as [[content |] |] eqn:Hsrc; try done.
  case_bool_decide as Hsame; [done |].
  intros H. exists content. split; [done |]. split; [done |].
  destruct (t !! d) as [[] |] eqn:Hd; try done;
    (destruct (isdir t (dirname d)) eqn:Hparent; [| done]);
    injection H as <-; done.
Qed.

(** A [copy] whose destination already holds the content changes nothing. *)
Lemma copy_synced t src dst d :
  d = (if isdir t dst then dst ++ [basename src] else dst) →
  synced t src d → src ≠ d → isdir t (dirname d) = true →
  copy t src dst = Ok t.
Proof.
  intros Hd_eq (content & Hsrc & Hd) Hne Hparent. unfold copy. cbv zeta.
  rewrite <- Hd_eq, Hsrc. rewrite bool_decide_eq_false_2 by done.
  rewrite Hd, Hparent. f_equal. by apply insert_id.
Qed.

(** ** How a tree evolves *)

Section Evolves.

Variable writes : path -> path -> Prop.
Variable region : path -> Prop.

Local Abbreviation ev := (evolves writes region).

Lemma evolves_trans t1 t2 t3 : ev t1 t2 → ev t2 t3 → ev t1 t3.
Proof.
  induction 1 as [| t t' t'' Hsub Hnew _ IH | t src d content t'' Hs Hd Hw Hr _ IH];
    intros H3; [done | |].
  - eapply evolves_extend; eauto.
  - eapply evolves_write; eauto.
Qed.

(** Directories stay directories and files stay files. *)
Lemma evolves_dir t t' p : ev t t' → t !! p = Some Dir → t' !! p = Some Dir.
Proof.
  induction 1 as [| t t' t'' Hsub Hnew _ IH | t src d content t'' Hs Hd Hw Hr _ IH];
    intros Hp; [done | |].
  - apply IH. by eapply lookup_weaken.
  - apply IH. rewrite lookup_insert_ne; [done |]. congruence.
Qed.

Lemma evolves_isdir t t' p : ev t t' → isdir t p = true → isdir t' p = true.
Proof. rewrite !isdir_true. apply evolves_dir. Qed.

Lemma evolves_isfile t t' p : ev t t' → isfile t p = true → isfile t' p = true.
Proof.
  induction 1 as [| t t' t'' Hsub Hnew _ IH | t src d content t'' Hs Hd Hw Hr _ IH];
    intros Hp; [done | |].
  - apply IH. apply isfile_true in Hp as [c Hc]. apply isfile_true.
    exists c. by eapply lookup_weaken.
  - apply IH. apply isfile_true. destruct (decide (d = p)) as [-> | Hne].
    + exists content. by rewrite lookup_insert_eq.
    + rewrite lookup_insert_ne by done. by apply isfile_true.
Qed.

(** Nothing changes outside the region. *)
Lemma evolves_frame t t' p : ev t t' → ¬ region p → t' !! p = t !! p.
Proof.
  induction 1 as [| t t' t'' Hsub Hnew _ IH | t src d content t'' Hs Hd Hw Hr _ IH];
    intros Hp; [done | |].
  - rewrite IH by done. destruct (t !! p) as [n |] eqn:Htp.
    + by eapply lookup_weaken.
    + destruct (t' !! p) eqn:Ht'p; [| done].
      destruct Hp. apply Hnew; [done | by rewrite Ht'p].
  - rewrite IH by done. apply lookup_insert_ne. congruence.
Qed.

(** A file that is a copy of a source outside the region stays one, when
    every write to its path copies that same source. *)
Lemma evolves_synced t t' src d :
  ev t t' → ¬ region src → (∀ src', writes src' d → src' = src) →
  synced t src d → synced t' src d.
Proof.
  intros Hev Hsrc Hfun.
  induction Hev as [| t t' t'' Hsub Hnew _ IH
                    | t s' d' content t'' Hs Hd Hw Hr _ IH];
    intros (c & Hc & Hdc); [by exists c | |].
  - apply IH. exists c. split; by eapply lookup_weaken.
  - apply IH. assert (d' ≠ src) by congruence.
    destruct (decide (d' = d)) as [-> | Hne].
    + apply Hfun in Hw as ->. assert (content = c) as -> by congruence.
      exists c. by rewrite lookup_insert_ne, lookup_insert_eq.
    + exists c. by rewrite !lookup_insert_ne.
Qed.

End Evolves.

Lemma evolves_weaken (W W' : path -> path -> Prop) (N N' : path -> Prop) t t' :
  (∀ s d, W s d → W' s d) → (∀ p, N p → N' p) →
  evolves W N t t' → evolves W' N' t t'.
Proof.
  intros HW HN.
  induction 1 as [| t t' t'' Hsub Hnew _ IH | t src d content t'' Hs Hd Hw Hr _ IH].
  - constructor.
  - eapply evolves_extend; eauto.
  - eapply evolves_write; eauto.
Qed.

(** The primitives as steps. *)
Lemma makedirs_evolves (W : path -> path -> Prop) (N : path -> Prop) p t t' r :
  (∀ x, x `prefix_of` p → N x) →
  fs_step (fun t => makedirs t p) t = (t', r) → evolves W N t t'.
Proof.
  intros HN. unfold fs_step. destruct (makedirs t p) as [t1 |] eqn:E.
  - intros [= <- _]. apply makedirs_Ok in E as (Hsub & Hnew & _).
    eapply evolves_extend; [done | | constructor]. intros x ? ?. apply HN. eauto.
  - intros [= <- _]. constructor.
Qed.

Lemma copytree_evolves (W : path -> path -> Prop) (N : path -> Prop)
    (ig : path -> list string -> list string) src dst t t' r :
  (∀ x, related dst x → N x) →
  fs_step (fun t => copytree ig t src dst) t = (t', r) → evolves W N t t'.
Proof.
  intros HN. unfold fs_step. destruct (copytree ig t src dst) as [t1 |] eqn:E.
  - intros [= <- _]. apply copytree_Ok in E as (Hsub & Hnew & _).
    eapply evolves_extend; [done | | constructor]. intros x ? ?. apply HN. eauto.
  - intros [= <- _]. constructor.
Qed.

Lemma copy_evolves (W : path -> path -> Prop) (N : path -> Prop) src dst t t' r :
  (∀ d, d = dst ∨ d = dst ++ [basename src] → W src d ∧ N d) →
  fs_step (fun t => copy t src dst) t = (t', r) → evolves W N t t'.
Proof.
  intros HWN. unfold fs_step. destruct (copy t src dst) as [t1 |] eqn:E.
  - intros [= <- _]. apply copy_Ok in E as (content & Hsrc & Hne & Hd & _ & ->).
    destruct (HWN (if isdir t dst then dst ++ [basename src] else dst)) as [HW HN].
    { destruct (isdir t dst); eauto. }
    eapply evolves_write; [done | done | done | done | constructor].
  - intros [= <- _]. constructor.
Qed.

(** Loops and sequences of evolving steps evolve. *)
Lemma m_for_evolves {A : Type} (W : path -> path -> Prop) (N : path -> Prop) (xs : list A) (body : A -> M tree unit) t t' r :
  (∀ x s s' r, x ∈ xs → body x s = (s', r) → evolves W N s s') →
  m_for xs body t = (t', r) → evolves W N t t'.
Proof.
  intros Hbody.
  apply (m_for_invariant (fun s => evolves W N t s)); [| constructor].
  intros x s s' r' Hx Hs Hb. eapply evolves_trans; [done |]. by eapply Hbody.
Qed.

Lemma m_bind_evolves {A B : Type} (W : path -> path -> Prop) (N : path -> Prop) (m : M tree A) (k : A -> M tree B) t t' r :
  (∀ s s' r, m s = (s', r) → evolves W N s s') →
  (∀ a s s' r, k a s = (s', r) → evolves W N s s') →
  m_bind m k t = (t', r) → evolves W N t t'.
Proof.
  intros Hm Hk. unfold m_bind. destruct (m t) as [t1 [a | e]] eqn:E.
  - intros Hka. eapply evolves_trans; [by eapply Hm | by eapply Hk].
  - intros [= <- _]. by eapply Hm.
Qed.

Lemma m_lift_evolves {A : Type} (W : path -> path -> Prop) (N : path -> Prop) (r0 : res A) t t' r :
  @m_lift tree A r0 t = (t', r) → evolves W N t t'.
Proof. intros [= <- _]. constructor. Qed.

Lemma m_when_evolves (W : path -> path -> Prop) (N : path -> Prop) (c : bool) (m : M tree unit) t t' r :
  (∀ s s' r, m s = (s', r) → evolves W N s s') →
  m_when c m t = (t', r) → evolves W N t t'.
Proof.
  intros Hm. destruct c; simpl; [apply Hm |]. intros [= <- _]. constructor.
Qed.

(** What every turn establishes for its own element, and no later turn
    destroys, holds for all elements after the loop. *)
Lemma m_for_establish {S A : Type} (Q : A -> S -> Prop) (Rel : S -> S -> Prop)
    (xs : list A) (body : A -> M S unit) :
  (∀ x s s', x ∈ xs → body x s = (s', Ok tt) → Q x s' ∧ Rel s s') →
  (∀ x s s', Q x s → Rel s s' → Q x s') →
  ∀ s s', m_for xs body s = (s', Ok tt) → ∀ x, x ∈ xs → Q x s'.
Proof.
  intros Hbody Hstable.
  induction xs as [| y ys IH]; intros s s' Hrun x Hx; [by apply elem_of_nil in Hx |].
  apply m_for_cons_Ok in Hrun as (s1 & Hy & Hrest).
  assert (Hrel : ∀ u u', m_for ys body u = (u', Ok tt) →
                         ∀ z, Q z u → Q z u').
  { clear -Hbody Hstable. induction ys as [| w ws IHw]; intros u u' Hu z Hz.
    - by injection Hu as <-.
    - apply m_for_cons_Ok in Hu as (u1 & Hw & Hws).
      eapply IHw; [| done |].
      + intros a b c Ha. apply Hbody. set_solver.
      + eapply Hstable; [done |]. eapply Hbody; [| done]. set_solver. }
  apply elem_of_cons in Hx as [-> | Hx].
  - eapply Hrel; [done |]. eapply Hbody; [| done]. by left.
  - eapply IH; [| done | done]. intros a b c Ha. apply Hbody. by right.
Qed.

(** The same with an invariant of the state that the steps keep. *)
Lemma m_for_establish_inv {S A : Type} (Q : A -> S -> Prop) (I : S -> Prop)
    (Rel : S -> S -> Prop) (xs : list A) (body : A -> M S unit) :
  (∀ x s s', x ∈ xs → I s → body x s = (s', Ok tt) → Q x s' ∧ Rel s s') →
  (∀ s s', I s → Rel s s' → I s') →
  (∀ x s s', x ∈ xs → Q x s → Rel s s' → Q x s') →
  ∀ s s', I s → m_for xs body s = (s', Ok tt) →
    I s' ∧ ∀ x, x ∈ xs → Q x s'.
Proof.
  intros Hbody HI Hstable.
  assert (Hrel : ∀ ys, (∀ y, y ∈ ys → y ∈ xs) →
            ∀ u u', I u → m_for ys body u = (u', Ok tt) →
              I u' ∧ (∀ z, z ∈ xs → Q z u → Q z u') ∧ ∀ y, y ∈ ys → Q y u').
  { induction ys as [| w ws IHw]; intros Hsub u u' Hu Hrun.
    - injection Hrun as <-. split; [done |]. split; [done |].
      intros y Hy. by apply elem_of_nil in Hy.
    - apply m_for_cons_Ok in Hrun as (u1 & Hw & Hws).
      destruct (Hbody w u u1 ltac:(apply Hsub; by left) Hu Hw) as [HQ HR].
      destruct (IHw ltac:(intros y Hy; apply Hsub; by right) u1 u'
                    ltac:(by eapply HI) Hws) as (HI' & Hkeep & Hall).
      split; [done |]. split.
      + intros z Hz HQz. apply Hkeep; [done |]. by eapply Hstable.
      + intros y [-> | Hy]%elem_of_cons; [| by apply Hall].
        apply Hkeep; [apply Hsub; by left | done]. }
  intros s s' Hs Hrun.
  destruct (Hrel xs ltac:(done) s s' Hs Hrun) as (? & _ & ?). done.
Qed.

Lemma m_for_evolves_inv {A : Type} (W : path -> path -> Prop) (N : path -> Prop)
    (I : tree -> Prop) (xs : list A) (body : A -> M tree unit) t t' r :
  (∀ s s', I s → evolves W N s s' → I s') →
  (∀ x s s' r, x ∈ xs → I s → body x s = (s', r) → evolves W N s s') →
  I t → m_for xs body t = (t', r) → evolves W N t t'.
Proof.
  intros HI Hbody Ht Hrun.
  assert (evolves W N t t' ∧ I t'); [| tauto].
  revert Hrun.
  apply (m_for_invariant (fun s => evolves W N t s ∧ I s)); [| split; [constructor | done]].
  intros x s s' r' Hx [Hs HIs] Hb.
  pose proof (Hbody x s s' r' Hx HIs Hb) as Hstep.
  split; [by eapply evolves_trans | by eapply HI].
Qed.

(** A [copy] step: where it writes, and what it leaves. *)
Lemma copy_step (W : path -> path -> Prop) (N : path -> Prop) src dst t t' r :
  fs_step (fun t => copy t src dst) t = (t', r) →
  let d := if isdir t dst then dst ++ [basename src] else dst in
  (W src d → N d → evolves W N t t')
  ∧ (r = Ok tt →
       ∃ content, t !! src = Some (File content) ∧ src ≠ d
                  ∧ t' = <[d := File content]> t).
Proof.
  unfold fs_step. destruct (copy t src dst) as [t1 |] eqn:E.
  - intros [= <- <-]. apply copy_Ok in E as (content & Hsrc & Hne & Hd & _ & ->).
    cbv zeta. split.
    + intros HW HN. eapply evolves_write; [done | done | done | done | constructor].
    + intros _. eauto.
  - intros [= <- <-]. split; [constructor | done].
Qed.

Lemma basename_snoc (p : path) x : basename (p ++ [x]) = x.
Proof. apply last_last. Qed.

Lemma dirname_snoc (p : path) x : dirname (p ++ [x]) = p.
Proof. apply removelast_last. Qed.

Lemma list_index_elem x l :
  x ∈ l → ∃ i, list_index x l = Some i ∧ l !! i = Some x.
Proof.
  induction l as [| y l IH]; [by intros ?%elem_of_nil |].
  simpl. destruct (String.eqb_spec y x) as [-> | Hne].
  - intros _. by exists O.
  - intros [-> | Hx]%elem_of_cons; [done |].
    destruct (IH Hx) as (i & -> & Hi). by exists (S i).
Qed.

(** ** Materialization *)

Lemma prefix_snoc_inv (x l : path) a :
  x `prefix_of` l ++ [a] → x `prefix_of` l ∨ x = l ++ [a].
Proof.
  intros [k Hk]. destruct k as [| b k _] using rev_ind.
  - right. by rewrite app_nil_r in Hk.
  - left. rewrite app_assoc in Hk. apply app_inj_tail in Hk as [-> _].
    by apply prefix_app_r.
Qed.

Lemma registered_not_baseline c : registered c → c ≠ "5MW_Baseline".
Proof.
  intros Hc ->. apply registered_iff in Hc. vm_compute in Hc. discriminate.
Qed.

Section Layout.

Variable self : Executor.
Hypothesis Hlayout : standard_layout self.

Lemma test_of_local_results c : test_of self c = local_results self ++ [c].
Proof. unfold test_of, local_results, join. by rewrite <- app_assoc. Qed.

(** The sources of the copies lie outside the workspace. *)
Lemma source_outside_workspace P p :
  rtest self `prefix_of` p → ¬ workspace self P p.
Proof.
  destruct Hlayout as (root & Hb & Hr & _).
  intros [k ->]. unfold workspace, local_results, join. rewrite Hb, Hr.
  rewrite <- !app_assoc. simpl. intros [Hpre | (name & rest & _ & Heq)].
  - apply prefix_app_inv in Hpre. by apply prefix_cons_inv_1 in Hpre.
  - rewrite <- app_assoc in Heq. by apply app_inv_head in Heq.
Qed.

Lemma module_below_rtest : module self = rtest self ++ ["glue-codes"; "openfast"].
Proof.
  destruct Hlayout as (root & _ & -> & ->). by rewrite <- app_assoc.
Qed.

Lemma input_of_below_rtest c rest : rtest self `prefix_of` input_of self c ++ rest.
Proof.
  unfold input_of, input_directory, join. case_bool_decide.
  - rewrite <- app_assoc. by apply prefix_app_r.
  - rewrite module_below_rtest, <- !app_assoc. by apply prefix_app_r.
Qed.

Lemma baseline_source_below_rtest rest :
  rtest self `prefix_of` baseline_source self ++ rest.
Proof.
  unfold baseline_source, join. rewrite module_below_rtest, <- !app_assoc.
  by apply prefix_app_r.
Qed.

(** Whatever is related to an entry of [local_results] is in the workspace
    of that entry. *)
Lemma related_workspace (P : string -> Prop) name rest x :
  P name → related (local_results self ++ name :: rest) x → workspace self P x.
Proof.
  intros HP [Hpre | Hpre].
  - destruct Hpre as [k ->]. right. exists name, (rest ++ k).
    split; [done |]. by rewrite <- app_assoc.
  - revert x Hpre. induction rest as [| b rest IH] using rev_ind; intros x Hpre.
    + apply prefix_snoc_inv in Hpre as [Hpre | ->]; [by left |].
      right. by exists name, [].
    + replace (local_results self ++ name :: rest ++ [b])
        with ((local_results self ++ name :: rest) ++ [b]) in Hpre
        by (by rewrite <- app_assoc).
      apply prefix_snoc_inv in Hpre as [Hpre | ->]; [by apply IH |].
      right. exists name, (rest ++ [b]). split; [done |].
      by rewrite <- app_assoc.
  Qed.

Lemma workspace_weaken (P Q : string -> Prop) p :
  (∀ name, P name → Q name) → workspace self P p → workspace self Q p.
Proof. intros HPQ [? | (name & rest & ? & ?)]; [by left | right; eauto]. Qed.

End Layout.

Lemma m_for_map {S A B : Type} (f : A -> B) (xs : list A) (body : B -> M S unit) :
  m_for (map f xs) body = m_for xs (fun x => body (f x)).
Proof. induction xs as [| x xs IH]; simpl; [done | by rewrite IH]. Qed.

Lemma combine_map {A B C : Type} (f : A -> B) (g : A -> C) (l : list A) :
  combine (map f l) (map g l) = map (fun x => (f x, g x)) l.
Proof. induction l as [| x l IH]; simpl; [done | by rewrite IH]. Qed.

(** Any evolution keeps directories and files in place. *)
Abbreviation anywhere := (fun _ : path => True).
Abbreviation any_write := (fun _ _ : path => True).
Abbreviation other_entry := (fun name : string => name ≠ "5MW_Baseline").
Abbreviation baseline_entry := (fun name : string => name = "5MW_Baseline").

Lemma evolves_any W N t t' : evolves W N t t' → evolves any_write anywhere t t'.
Proof. by apply evolves_weaken. Qed.

Section Stages.

Variable cwd : path.
Variable ignore_baseline : path -> list string -> list string.
Variable self : Executor.
Hypothesis Hlayout : standard_layout self.
Hypothesis Href : referenced self.

Lemma join_local_results rest :
  join (build self) ("local_results" :: rest) = local_results self ++ rest.
Proof. unfold local_results, join. by rewrite <- app_assoc. Qed.

(** *** The shared directories *)

Lemma shared_directory_step data t t' r :
  data ≠ "5MW_Baseline" →
  m_when (negb (isdir t (join (build self) ["local_results"; data])))
    (fs_step (fun t => copytree no_ignore t (join (module self) [data])
                         (join (build self) ["local_results"; data]))) t
  = (t', r) →
  evolves any_write (workspace self other_entry) t t'
  ∧ (r = Ok tt → isdir t' (local_results self ++ [data]) = true).
Proof.
  intros Hdata. rewrite join_local_results.
  destruct (isdir t (local_results self ++ [data])) eqn:Hd; simpl.
  - intros [= <- <-]. split; [constructor | done].
  - intros Hstep. split.
    + eapply copytree_evolves; [| exact Hstep].
      intros x Hx. by eapply related_workspace.
    + intros ->. unfold fs_step in Hstep.
      destruct (copytree _ _ _ _) as [t1 |] eqn:E; [| done].
      injection Hstep as <-. apply copytree_Ok in E as (_ & _ & E & _).
      by apply isdir_true.
Qed.

Lemma shared_directories_evolve dirs t t' r :
  Forall other_entry dirs →
  copy_shared_directories self dirs t = (t', r) →
  evolves any_write (workspace self other_entry) t t'.
Proof.
  intros Hdirs. unfold copy_shared_directories. apply m_for_evolves.
  intros data s s' r' Hin Hstep. rewrite Forall_forall in Hdirs.
  by eapply shared_directory_step; [apply Hdirs | exact Hstep].
Qed.

Lemma shared_directories_post dirs t t' :
  Forall other_entry dirs →
  copy_shared_directories self dirs t = (t', Ok tt) →
  ∀ data, data ∈ dirs → isdir t' (local_results self ++ [data]) = true.
Proof.
  intros Hdirs. rewrite Forall_forall in Hdirs. unfold copy_shared_directories.
  apply (m_for_establish
           (fun data s => isdir s (local_results self ++ [data]) = true)
           (evolves any_write anywhere)).
  - intros data s s' Hin Hstep.
    apply shared_directory_step in Hstep as [Hev Hpost]; [| by apply Hdirs].
    split; [by apply Hpost | by eapply evolves_any].
  - intros data s s' Hd Hev. by eapply evolves_isdir.
Qed.

Lemma shared_directories_skip dirs t :
  (∀ data, data ∈ dirs → isdir t (local_results self ++ [data]) = true) →
  copy_shared_directories self dirs t = (t, Ok tt).
Proof.
  intros Hd. unfold copy_shared_directories. apply m_for_skip.
  intros data Hin. rewrite join_local_results. by rewrite Hd.
Qed.

(** *** The per-case build directories *)

(** One turn of the loop of [_build_test_directory]. *)
Abbreviation test_directory_step :=
  (fun (input_dir test_dir : path) (t : tree) =>
     if negb (isdir t test_dir)
     then fs_step (fun t => copytree ignore_baseline t input_dir test_dir) t
     else
       (names <~ (fun t => (t, listdir t input_dir)) ;;
        m_for names (fun f =>
          fun t => m_when (isfile t (cwd ++ [f]))
                     (fs_step (fun t => copy t (join input_dir [f]) test_dir)) t)) t).

Lemma build_test_directory_unfold :
  _build_test_directory cwd ignore_baseline self
  = m_for (case self)
      (fun c => test_directory_step (input_of self c) (test_of self c)).
Proof.
  destruct Href as (_ & Hins & Htests).
  unfold _build_test_directory. rewrite Hins, Htests.
  unfold m_bind, m_lift, attr, zip2. rewrite combine_map, m_for_map. done.
Qed.

Lemma test_directory_step_spec c t t' r :
  registered c →
  test_directory_step (input_of self c) (test_of self c) t = (t', r) →
  evolves any_write (workspace self other_entry) t t'
  ∧ (r = Ok tt →
       isdir t' (test_of self c) = true ∧ isdir t' (input_of self c) = true).
Proof.
  intros Hc. pose proof (registered_not_baseline c Hc) as Hne.
  rewrite test_of_local_results.
  destruct (isdir t (local_results self ++ [c])) eqn:Hd; simpl.
  - unfold m_bind, listdir.
    destruct (t !! input_of self c) as [[content |] |] eqn:Hin;
      try (intros [= <- <-]; split; [constructor | done]).
    intros Hloop.
    assert (Hev : evolves any_write (workspace self other_entry) t t').
    { eapply m_for_evolves; [| exact Hloop].
      intros f s s' r' _. apply m_when_evolves.
      intros u u' r''. apply copy_evolves. intros d Hd'. split; [done |].
      destruct Hd' as [-> | ->].
      - right. by exists c, [].
      - right. eexists c, [_]. split; [done |]. by rewrite <- app_assoc. }
    split; [done |]. intros _. split.
    + by eapply evolves_isdir.
    + eapply evolves_isdir; [done |]. by apply isdir_true.
  - intros Hstep. split.
    + eapply copytree_evolves; [| exact Hstep].
      intros x Hx. by eapply related_workspace.
    + intros ->. unfold fs_step in Hstep.
      destruct (copytree _ _ _ _) as [t1 |] eqn:E; [| done].
      injection Hstep as <-.
      apply copytree_Ok in E as (Hsub & _ & Hdst & Hsrc).
      split; apply isdir_true; [done | by eapply lookup_weaken].
Qed.

Lemma build_test_directory_evolves t t' r :
  _build_test_directory cwd ignore_baseline self t = (t', r) →
  evolves any_write (workspace self other_entry) t t'.
Proof.
  rewrite build_test_directory_unfold. apply m_for_evolves.
  intros c s s' r' Hin Hstep. destruct Href as (Hreg & _).
  rewrite Forall_forall in Hreg.
  by eapply test_directory_step_spec; [apply Hreg | exact Hstep].
Qed.

Lemma build_test_directory_post t t' :
  _build_test_directory cwd ignore_baseline self t = (t', Ok tt) →
  ∀ c, c ∈ case self →
    isdir t' (test_of self c) = true ∧ isdir t' (input_of self c) = true.
Proof.
  rewrite build_test_directory_unfold. destruct Href as (Hreg & _).
  rewrite Forall_forall in Hreg.
  apply (m_for_establish
           (fun c s => isdir s (test_of self c) = true
                       ∧ isdir s (input_of self c) = true)
           (evolves any_write anywhere)).
  - intros c s s' Hin Hstep.
    apply test_directory_step_spec in Hstep as [Hev Hpost]; [| by apply Hreg].
    split; [by apply Hpost | by eapply evolves_any].
  - intros c s s' [H1 H2] Hev. split; by eapply evolves_isdir.
Qed.

Lemma build_test_directory_skip t :
  (∀ c, c ∈ case self →
     isdir t (test_of self c) = true ∧ isdir t (input_of self c) = true) →
  no_cwd_clash cwd self t →
  _build_test_directory cwd ignore_baseline self t = (t, Ok tt).
Proof.
  intros Hdirs Hclash. rewrite build_test_directory_unfold. apply m_for_skip.
  intros c Hin. destruct (Hdirs c Hin) as [Ht Hi]. rewrite Ht. simpl.
  unfold m_bind, listdir. apply isdir_true in Hi. rewrite Hi.
  apply m_for_skip. intros f Hf. by rewrite (Hclash c f Hin Hf).
Qed.

End Stages.

Lemma m_for_ext {S A : Type} (xs : list A) (body body' : A -> M S unit) s :
  (∀ x u, x ∈ xs → body x u = body' x u) →
  m_for xs body s = m_for xs body' s.
Proof.
  revert s. induction xs as [| x xs IH]; intros s Hext; [done |].
  simpl. unfold m_bind. rewrite Hext by (by left).
  destruct (body' x s) as [s1 [[] | e]]; [| done].
  apply IH. intros y u Hy. apply Hext. by right.
Qed.

Section BeamdynStage.

Variable self : Executor.
Hypothesis Hlayout : standard_layout self.
Hypothesis Href : referenced self.

Local Abbreviation build_directories_exist := (build_directories_exist self).

Lemma build_directories_exist_evolves W N t t' :
  build_directories_exist t → evolves W N t t' → build_directories_exist t'.
Proof. intros Ht Hev c Hc. eapply evolves_isdir; [done | by apply Ht]. Qed.

Lemma case_registered c : c ∈ case self → registered c.
Proof. destruct Href as (Hreg & _). rewrite Forall_forall in Hreg. apply Hreg. Qed.

Lemma test_of_inj c c' : test_of self c = test_of self c' → c = c'.
Proof.
  unfold test_of, join. intros H%app_inv_head. by injection H.
Qed.

(** The loop of [_build_beamdyn_output_directories], with the directories
    of each case looked up. *)
Lemma beamdyn_directories_unfold l t :
  (∀ c, c ∈ l → c ∈ case self) →
  _build_beamdyn_output_directories self l t
  = m_for l (fun c =>
      m_for bd_files (fun bd_file =>
        fs_step (fun t => copy t (input_of self c ++ [bd_file]) (test_of self c)))) t.
Proof.
  intros Hl. unfold _build_beamdyn_output_directories. apply m_for_ext.
  intros c u Hc. destruct Href as (_ & Hins & Htests).
  destruct (list_index_elem c (case self) (Hl c Hc)) as (ix & -> & Hix).
  rewrite Hins, Htests. unfold m_bind, m_lift, attr, item.
  by rewrite !list_lookup_fmap, Hix.
Qed.

Lemma beamdyn_synced_stable P c bd t t' :
  registered c →
  evolves (beamdyn_writes self) (workspace self P) t t' →
  synced t (input_of self c ++ [bd]) (test_of self c ++ [bd]) →
  synced t' (input_of self c ++ [bd]) (test_of self c ++ [bd]).
Proof.
  intros Hc Hev. apply (evolves_synced _ _ _ _ _ _ Hev).
  - apply source_outside_workspace; [done |]. apply input_of_below_rtest; done.
  - intros src' (c' & bd' & _ & -> & Heq).
    apply app_inj_tail in Heq as [Heq ->]. by apply test_of_inj in Heq as ->.
Qed.

Lemma beamdyn_copy_step c bd t t' r :
  registered c → isdir t (test_of self c) = true →
  fs_step (fun t => copy t (input_of self c ++ [bd]) (test_of self c)) t = (t', r) →
  evolves (beamdyn_writes self) (workspace self other_entry) t t'
  ∧ (r = Ok tt →
       synced t' (input_of self c ++ [bd]) (test_of self c ++ [bd])).
Proof.
  intros Hc Hdir Hstep.
  apply (copy_step (beamdyn_writes self) (workspace self other_entry)) in Hstep.
  rewrite Hdir, basename_snoc in Hstep. cbv zeta in Hstep.
  destruct Hstep as [Hev Hpost]. split.
  - apply Hev.
    + by exists c, bd.
    + rewrite test_of_local_results, <- app_assoc. right. exists c, [bd].
      split; [by apply registered_not_baseline | done].
  - intros Hr. destruct (Hpost Hr) as (content & Hsrc & Hne & ->).
    exists content. by rewrite lookup_insert_ne, lookup_insert_eq.
Qed.

Lemma beamdyn_case_spec c t t' r :
  registered c → isdir t (test_of self c) = true →
  m_for bd_files (fun bd_file =>
    fs_step (fun t => copy t (input_of self c ++ [bd_file]) (test_of self c))) t
  = (t', r) →
  evolves (beamdyn_writes self) (workspace self other_entry) t t'
  ∧ (r = Ok tt →
       ∀ bd, bd ∈ bd_files →
         synced t' (input_of self c ++ [bd]) (test_of self c ++ [bd])).
Proof.
  intros Hc Hdir Hrun. split.
  - eapply (m_for_evolves_inv _ _ (fun s => isdir s (test_of self c) = true));
      [| | exact Hdir | exact Hrun].
    + intros s s' Hs Hev. by eapply evolves_isdir.
    + intros bd s s' r' _ Hs Hstep.
      exact (proj1 (beamdyn_copy_step c bd s s' r' Hc Hs Hstep)).
  - intros ->.
    eapply (m_for_establish_inv
              (fun bd s => synced s (input_of self c ++ [bd]) (test_of self c ++ [bd]))
              (fun s => isdir s (test_of self c) = true)
              (evolves (beamdyn_writes self) (workspace self other_entry)));
      [| | | exact Hdir | exact Hrun].
    + intros bd s s' _ Hs Hstep.
      apply beamdyn_copy_step in Hstep as [Hev Hpost]; [| done | done].
      split; [by apply Hpost | done].
    + intros s s' Hs Hev. by eapply evolves_isdir.
    + intros bd s s' _ Hs Hev. by eapply beamdyn_synced_stable.
Qed.

Lemma beamdyn_directories_evolve l t t' r :
  (∀ c, c ∈ l → c ∈ case self) →
  build_directories_exist t →
  _build_beamdyn_output_directories self l t = (t', r) →
  evolves (beamdyn_writes self) (workspace self other_entry) t t'.
Proof.
  intros Hl Ht. rewrite beamdyn_directories_unfold by done.
  apply (m_for_evolves_inv _ _ build_directories_exist); [| | done].
  - intros s s'. apply build_directories_exist_evolves.
  - intros c s s' r' Hc Hs Hstep.
    refine (proj1 (beamdyn_case_spec c s s' r' _ _ Hstep)).
    + apply case_registered. by apply Hl.
    + apply Hs. by apply Hl.
Qed.

Lemma beamdyn_directories_post l t t' :
  (∀ c, c ∈ l → c ∈ case self) →
  build_directories_exist t →
  _build_beamdyn_output_directories self l t = (t', Ok tt) →
  ∀ c, c ∈ l → ∀ bd, bd ∈ bd_files →
    synced t' (input_of self c ++ [bd]) (test_of self c ++ [bd]).
Proof.
  intros Hl Ht. rewrite beamdyn_directories_unfold by done. intros Hrun.
  eapply (m_for_establish_inv
            (fun c s => ∀ bd, bd ∈ bd_files →
               synced s (input_of self c ++ [bd]) (test_of self c ++ [bd]))
            build_directories_exist
            (evolves (beamdyn_writes self) (workspace self other_entry)));
    [| | | exact Ht | exact Hrun].
  - intros c s s' Hc Hs Hstep.
    apply beamdyn_case_spec in Hstep as [Hev Hpost].
    + split; [by apply Hpost | done].
    + apply case_registered. by apply Hl.
    + apply Hs. by apply Hl.
  - intros s s'. apply build_directories_exist_evolves.
  - intros c s s' Hc Hs Hev bd Hbd.
    eapply beamdyn_synced_stable; [| done | by apply Hs].
    apply case_registered. by apply Hl.
Qed.

Lemma beamdyn_directories_skip l t :
  (∀ c, c ∈ l → c ∈ case self) →
  build_directories_exist t →
  (∀ c, c ∈ l → ∀ bd, bd ∈ bd_files →
     synced t (input_of self c ++ [bd]) (test_of self c ++ [bd])) →
  _build_beamdyn_output_directories self l t = (t, Ok tt).
Proof.
  intros Hl Ht Hsync. rewrite beamdyn_directories_unfold by done.
  apply m_for_skip. intros c Hc. apply m_for_skip. intros bd Hbd.
  unfold fs_step.
  rewrite (copy_synced t _ _ (test_of self c ++ [bd])); [done | | | |].
  - by rewrite (Ht c (Hl c Hc)), basename_snoc.
  - by apply Hsync.
  - intros Heq.
    apply (source_outside_workspace self Hlayout other_entry
             (input_of self c ++ [bd])).
    + by apply input_of_below_rtest.
    + rewrite Heq, test_of_local_results, <- app_assoc. right. exists c, [bd].
      split; [| done].
      apply registered_not_baseline, case_registered. by apply Hl.
  - rewrite dirname_snoc. apply Ht. by apply Hl.
Qed.

End BeamdynStage.

Lemma makedirs_prefix_dir t p t' x :
  makedirs t p = Ok t' → x `prefix_of` p → t' !! x = Some Dir.
Proof.
  unfold makedirs. case_bool_decide; [done |].
  destruct (existsb (isfile t) (prefixes p)); [done |].
  assert (Hl : ∀ x, x ∈ prefixes p ↔ x `prefix_of` p) by apply elem_of_prefixes.
  revert Hl. generalize (prefixes p). intros l Hl Heq Hx.
  assert (t' = foldr (fun q acc => <[q := Dir]> acc) t l) as -> by congruence.
  rewrite lookup_set_dirs. rewrite bool_decide_eq_true_2; [done |]. by apply Hl.
Qed.

Lemma elem_of_children (t : tree) p name :
  name ∈ children t p ↔ is_Some (t !! (p ++ [name])).
Proof.
  unfold children. rewrite list_elem_of_omap. split.
  - intros (q & Hq & Hc). unfold child_name in Hc.
    destruct (strip_prefix p q) as [[| n [| ? ?]] |] eqn:Hs; try done.
    injection Hc as ->. apply strip_prefix_Some in Hs as ->.
    apply elem_of_elements in Hq. by apply elem_of_dom.
  - intros Hsome. exists (p ++ [name]). split.
    + apply elem_of_elements. by apply elem_of_dom.
    + unfold child_name.
      by rewrite (proj2 (strip_prefix_Some p (p ++ [name]) [name]) eq_refl).
Qed.

Section BaselineStages.

Variable self : Executor.
Hypothesis Hlayout : standard_layout self.

Local Abbreviation in_baseline := (workspace self baseline_entry).
Local Abbreviation write_in_baseline := (fun (_ d : path) => in_baseline d).

Lemma servo_target_join :
  join (build self) ["local_results"; "5MW_Baseline"; "ServoData"]
  = servo_target self.
Proof.
  unfold servo_target, baseline_target, local_results, join.
  by rewrite <- !app_assoc.
Qed.

Lemma baseline_target_join :
  join (build self) ["local_results"; "5MW_Baseline"] = baseline_target self.
Proof. unfold baseline_target, local_results, join. by rewrite <- !app_assoc. Qed.

Lemma in_baseline_below rest : in_baseline (baseline_target self ++ rest).
Proof.
  right. exists "5MW_Baseline", rest. split; [done |].
  unfold baseline_target. by rewrite <- app_assoc.
Qed.

Lemma related_baseline rest x :
  related (baseline_target self ++ rest) x → in_baseline x.
Proof.
  unfold baseline_target. rewrite <- app_assoc. simpl.
  by apply related_workspace.
Qed.

(** *** The controller libraries: [_check_5MW_dll_files] *)

Lemma check_dll_files_evolves t t' r :
  _check_5MW_dll_files self t = (t', r) →
  evolves write_in_baseline in_baseline t t'.
Proof.
  unfold _check_5MW_dll_files. rewrite servo_target_join.
  apply m_bind_evolves.
  - intros s s' r'. apply m_when_evolves. intros u u' r''.
    apply makedirs_evolves. intros x Hx. apply (related_baseline ["ServoData"]).
    by right.
  - intros _ s s' r'. apply m_for_evolves. intros f u u' r'' _.
    apply m_when_evolves. intros v v' r3. apply copy_evolves.
    intros d [-> | ->].
    + split; apply (in_baseline_below ["ServoData"]).
    + unfold servo_target. rewrite <- app_assoc.
      split; apply in_baseline_below.
Qed.

Lemma dll_files_nonempty f : f ∈ dll_files → f ≠ [].
Proof. unfold dll_files. intros Hf ->. set_solver. Qed.

Lemma last_app_nonempty (p f : path) : f ≠ [] → List.last (p ++ f) "" = List.last f "".
Proof.
  intros Hf. destruct f as [| a f _] using rev_ind; [done |].
  by rewrite app_assoc, !last_last.
Qed.

(** After a successful check the library folder is a directory, its
    parent too when the tree started well-formed there, and the three
    libraries are files. *)
Lemma check_dll_files_post t t' :
  (t !! servo_target self = Some Dir → t !! baseline_target self = Some Dir) →
  _check_5MW_dll_files self t = (t', Ok tt) →
  isdir t' (servo_target self) = true
  ∧ isdir t' (baseline_target self) = true
  ∧ ∀ f, f ∈ dll_files → isfile t' (servo_target self ++ [List.last f ""]) = true.
Proof.
  intros Hparent. unfold _check_5MW_dll_files. rewrite servo_target_join.
  intros (t1 & [] & Hmk & Hloop)%m_bind_Ok.
  assert (Hdirs : isdir t1 (servo_target self) = true
                  ∧ isdir t1 (baseline_target self) = true).
  { destruct (isdir t (servo_target self)) eqn:Hd; simpl in Hmk.
    - injection Hmk as <-. split; [done |].
      apply isdir_true, Hparent. by apply isdir_true.
    - unfold fs_step in Hmk.
      destruct (makedirs t (servo_target self)) as [t2 |] eqn:E; [| done].
      injection Hmk as <-. split; apply isdir_true.
      + by eapply makedirs_prefix_dir.
      + eapply makedirs_prefix_dir; [done |]. unfold servo_target.
        by apply prefix_app_r. }
  destruct Hdirs as [Hservo Hbase].
  assert (Hres : isdir t' (servo_target self) = true
                 ∧ ∀ f, f ∈ dll_files →
                     isfile t' (servo_target self ++ [List.last f ""]) = true).
  { eapply (m_for_establish_inv
              (fun f s => isfile s (servo_target self ++ [List.last f ""]) = true)
              (fun s => isdir s (servo_target self) = true)
              (evolves any_write anywhere));
      [| | | exact Hservo | exact Hloop].
    - intros f s s' Hf Hs Hstep.
      assert (Hev : evolves any_write anywhere s s').
      { revert Hstep. apply m_when_evolves. intros u u' r'. by apply copy_evolves. }
      split; [| done]. unfold join in Hstep.
      destruct (isfile s (servo_target self ++ [List.last f ""])) eqn:Hfile;
        simpl in Hstep.
      + by injection Hstep as <-.
      + apply (copy_step any_write anywhere) in Hstep as [_ Hpost].
        destruct (Hpost eq_refl) as (content & _ & _ & ->).
        rewrite Hs. unfold basename.
        rewrite last_app_nonempty by (by apply dll_files_nonempty).
        apply isfile_true. exists content. by rewrite lookup_insert_eq.
    - intros s s' Hs Hev. by eapply evolves_isdir.
    - intros f s s' _ Hs Hev. by eapply evolves_isfile. }
  destruct Hres as [Hservo' Hfiles].
  split; [done |]. split; [| done].
  eapply evolves_isdir; [| exact Hbase].
  eapply (m_for_evolves any_write anywhere); [| exact Hloop].
  intros f s s' r' _. apply m_when_evolves. intros u u' r''. by apply copy_evolves.
Qed.

Lemma check_dll_files_skip t :
  isdir t (servo_target self) = true →
  (∀ f, f ∈ dll_files → isfile t (servo_target self ++ [List.last f ""]) = true) →
  _check_5MW_dll_files self t = (t, Ok tt).
Proof.
  intros Hdir Hfiles. unfold _check_5MW_dll_files. rewrite servo_target_join.
  unfold m_bind, m_when at 1. rewrite Hdir. cbn [negb]. unfold m_ret at 1.
  apply m_for_skip. intros f Hf. unfold join. by rewrite (Hfiles f Hf).
Qed.

End BaselineStages.

Section BaselineFolder.

Variable self : Executor.
Hypothesis Hlayout : standard_layout self.

Local Abbreviation in_baseline := (workspace self baseline_entry).
Local Abbreviation src5 := (baseline_source self).
Local Abbreviation target5 := (baseline_target self).

(** One turn of the loop of [_build_5MW_directories]. *)
Local Abbreviation baseline_step :=
  (fun name : string =>
     if String.eqb name "ServoData" then m_ret tt
     else
       fun t : tree =>
         if isdir t (join src5 [name])
         then m_when (negb (isdir t (join (join (build self) ["local_results"; "5MW_Baseline"]) [name])))
                (fs_step (fun t => copytree no_ignore t (join src5 [name])
                                     (join (join (build self) ["local_results"; "5MW_Baseline"]) [name]))) t
         else fs_step (fun t => copy t (join src5 [name])
                                  (join (join (build self) ["local_results"; "5MW_Baseline"]) [name])) t).

Lemma build_5MW_unfold t :
  isdir t target5 = true →
  _build_5MW_directories self t
  = (names <~ (fun t => (t, listdir t src5)) ;; m_for names baseline_step) t.
Proof.
  intros Hdir. unfold _build_5MW_directories.
  rewrite baseline_target_join. by rewrite Hdir.
Qed.

Lemma baseline_source_outside rest : ¬ in_baseline (src5 ++ rest).
Proof.
  apply source_outside_workspace; [done |]. by apply baseline_source_below_rtest.
Qed.

Lemma baseline_writes_in_baseline s d : baseline_writes self s d → in_baseline d.
Proof.
  intros (name & _ & _ & [-> | ->]); apply in_baseline_below.
Qed.

Lemma baseline_writes_functional name src' d :
  d = target5 ++ [name] ∨ d = target5 ++ [name; name] →
  baseline_writes self src' d → src' = src5 ++ [name].
Proof.
  intros Hd (n' & _ & -> & Hd'). do 2 f_equal.
  destruct Hd as [-> | ->], Hd' as [H | H];
    apply app_inv_head in H; by injection H.
Qed.

Lemma baseline_settled_stable name s s' :
  evolves (baseline_writes self) in_baseline s s' →
  baseline_entry_settled self s name → baseline_entry_settled self s' name.
Proof.
  intros Hev. unfold baseline_entry_settled.
  assert (Hsrc : isdir s' (src5 ++ [name]) = isdir s (src5 ++ [name])).
  { unfold isdir. by rewrite (evolves_frame _ _ _ _ _ Hev (baseline_source_outside [name])). }
  rewrite Hsrc. destruct (isdir s (src5 ++ [name])).
  - by apply (evolves_isdir _ _ _ _ _ Hev).
  - intros Hsync.
    assert (Hsync' : synced s' (src5 ++ [name])
                       (if isdir s (target5 ++ [name])
                        then target5 ++ [name; name] else target5 ++ [name])).
    { eapply evolves_synced; [exact Hev | apply baseline_source_outside | | done].
      intros src'. apply baseline_writes_functional.
      destruct (isdir s (target5 ++ [name])); eauto. }
    destruct (isdir s (target5 ++ [name])) eqn:Hd.
    + by rewrite (evolves_isdir _ _ _ _ _ Hev Hd).
    + destruct Hsync' as (content & _ & Hfile).
      assert (isdir s' (target5 ++ [name]) = false) as ->.
      { unfold isdir. by rewrite Hfile. }
      destruct Hsync as (c & Hc1 & Hc2).
      eapply evolves_synced; [exact Hev | apply baseline_source_outside | |].
      * intros src'. apply baseline_writes_functional. eauto.
      * by exists c.
Qed.

Lemma baseline_step_spec name s s' r :
  baseline_step name s = (s', r) →
  evolves (baseline_writes self) in_baseline s s'
  ∧ (r = Ok tt → name ≠ "ServoData" → baseline_entry_settled self s' name).
Proof.
  cbn beta. destruct (String.eqb name "ServoData") eqn:Hname.
  { unfold m_ret. intros [= <- <-]. split; [constructor |].
    intros _ Hne. by apply String.eqb_eq in Hname. }
  apply String.eqb_neq in Hname.
  rewrite baseline_target_join. unfold join, m_when, m_ret.
  destruct (isdir s (src5 ++ [name])) eqn:Hsrc.
  - destruct (isdir s (target5 ++ [name])) eqn:Htgt; cbn [negb]; cbn beta.
    + intros [= <- <-]. split; [constructor |]. intros _ _.
      unfold baseline_entry_settled. by rewrite Hsrc.
    + intros Hstep. split.
      * eapply copytree_evolves; [| exact Hstep]. apply related_baseline; done.
      * intros -> _. unfold fs_step in Hstep.
        destruct (copytree _ _ _ _) as [t1 |] eqn:E; [| done].
        injection Hstep as <-. apply copytree_Ok in E as (Hsub & _ & Hdst & _).
        unfold baseline_entry_settled.
        assert (isdir t1 (src5 ++ [name]) = true) as ->.
        { apply isdir_true. eapply lookup_weaken; [| done]. by apply isdir_true. }
        by apply isdir_true.
  - intros Hstep.
    apply (copy_step (baseline_writes self) in_baseline) in Hstep.
    rewrite basename_snoc in Hstep. cbv zeta in Hstep.
    destruct Hstep as [Hev Hpost]. split.
    + apply Hev.
      * exists name. split; [done |]. split; [done |].
        destruct (isdir s (target5 ++ [name])); [right | left]; [| done].
        by rewrite <- app_assoc.
      * destruct (isdir s (target5 ++ [name])); [| apply in_baseline_below].
        rewrite <- app_assoc. apply in_baseline_below.
    + intros Hr _. destruct (Hpost Hr) as (content & Hc & Hne & ->).
      unfold baseline_entry_settled.
      assert (Hsrc' : isdir (<[(if isdir s (target5 ++ [name])
                                then (target5 ++ [name]) ++ [name]
                                else target5 ++ [name]) := File content]> s)
                        (src5 ++ [name]) = false).
      { unfold isdir. rewrite lookup_insert_ne by done. by rewrite Hc. }
      rewrite Hsrc'.
      destruct (isdir s (target5 ++ [name])) eqn:Htgt.
      * assert (isdir (<[(target5 ++ [name]) ++ [name] := File content]> s)
                  (target5 ++ [name]) = true) as ->.
        { unfold isdir. rewrite lookup_insert_ne.
          - apply isdir_true in Htgt. by rewrite Htgt.
          - intros Heq. apply (f_equal (@length _)) in Heq.
            rewrite !length_app in Heq. simpl in Heq. lia. }
        exists content. rewrite <- app_assoc in *. simpl in *.
        by rewrite lookup_insert_ne, lookup_insert_eq.
      * assert (isdir (<[target5 ++ [name] := File content]> s)
                  (target5 ++ [name]) = false) as ->.
        { unfold isdir. by rewrite lookup_insert_eq. }
        exists content. by rewrite lookup_insert_ne, lookup_insert_eq.
Qed.

Lemma build_5MW_evolves t t' r :
  isdir t target5 = true →
  _build_5MW_directories self t = (t', r) →
  evolves (baseline_writes self) in_baseline t t'.
Proof.
  intros Hdir. rewrite build_5MW_unfold by done.
  apply m_bind_evolves.
  - intros s s' r' [= <- _]. constructor.
  - intros names s s' r'. apply m_for_evolves.
    intros name u u' r'' _ Hstep. by apply baseline_step_spec in Hstep as [? _].
Qed.

(** After a successful call every entry of the baseline folder other
    than [ServoData] is settled. *)
Lemma build_5MW_post t t' :
  isdir t target5 = true →
  _build_5MW_directories self t = (t', Ok tt) →
  t' !! src5 = Some Dir
  ∧ ∀ name, name ∈ children t' src5 → name ≠ "ServoData" →
      baseline_entry_settled self t' name.
Proof.
  intros Hdir Hrun.
  pose proof (build_5MW_evolves t t' _ Hdir Hrun) as Hev.
  rewrite build_5MW_unfold in Hrun by done.
  apply m_bind_Ok in Hrun as (t0 & names & Hlist & Hloop).
  injection Hlist as <- Hlist. unfold listdir in Hlist.
  destruct (t !! src5) as [[content |] |] eqn:Hsrc; try done.
  injection Hlist as <-. split.
  - rewrite (evolves_frame _ _ _ _ _ Hev); [done |].
    rewrite <- (app_nil_r src5). apply baseline_source_outside.
  - intros name Hname Hne.
    assert (Hin : name ∈ children t src5).
    { apply elem_of_children. apply elem_of_children in Hname.
      by rewrite (evolves_frame _ _ _ _ _ Hev (baseline_source_outside [name]))
        in Hname. }
    revert Hne.
    eapply (m_for_establish
              (fun name s => name ≠ "ServoData" → baseline_entry_settled self s name)
              (evolves (baseline_writes self) in_baseline));
      [| | exact Hloop | exact Hin].
    + intros n s s' _ Hstep. apply baseline_step_spec in Hstep as [Hev' Hpost].
      split; [by apply Hpost | done].
    + intros n s s' Hs Hev' Hn. eapply baseline_settled_stable; [done | by apply Hs].
Qed.

Lemma build_5MW_skip t :
  isdir t target5 = true →
  t !! src5 = Some Dir →
  (∀ name, name ∈ children t src5 → name ≠ "ServoData" →
     baseline_entry_settled self t name) →
  _build_5MW_directories self t = (t, Ok tt).
Proof.
  intros Hdir Hsrc Hsettled. rewrite build_5MW_unfold by done.
  unfold m_bind, listdir. rewrite Hsrc.
  apply m_for_skip. intros name Hname. cbn beta.
  destruct (String.eqb name "ServoData") eqn:Hne; [done |].
  apply String.eqb_neq in Hne.
  specialize (Hsettled name Hname Hne). unfold baseline_entry_settled in Hsettled.
  rewrite baseline_target_join. unfold join.
  destruct (isdir t (src5 ++ [name])) eqn:Hs.
  - by rewrite Hsettled.
  - unfold fs_step.
    rewrite (copy_synced t _ _
               (if isdir t (target5 ++ [name])
                then target5 ++ [name; name] else target5 ++ [name]));
      [done | | done | |].
    + rewrite basename_snoc, <- app_assoc. done.
    + intros Heq. apply (baseline_source_outside [name]). rewrite Heq.
      destruct (isdir t (target5 ++ [name])); apply in_baseline_below.
    + destruct (isdir t (target5 ++ [name])) eqn:Ht.
      * replace (target5 ++ [name; name]) with ((target5 ++ [name]) ++ [name])
          by (by rewrite <- app_assoc).
        by rewrite dirname_snoc.
      * by rewrite dirname_snoc.
Qed.

End BaselineFolder.

(** *** The whole of [_build_test_output_directories] *)

Lemma res_bind_Ok_l {A B : Type} (a : A) (k : A -> res B) : (Ok a ≫= k) = k a.
Proof. reflexivity. Qed.

Lemma res_map_registered cs :
  Forall registered cs →
  res_map (dict_get CASE_MAP) cs = Ok (map category_of cs).
Proof.
  induction 1 as [| c cs Hc _ IH]; [done |].
  cbn [res_map map]. rewrite (dict_get_registered _ Hc), res_bind_Ok_l.
  by rewrite IH, res_bind_Ok_l.
Qed.

Lemma beamdyn_cases_registered self :
  Forall registered (case self) →
  beamdyn_cases self
  = Ok (List.filter (fun c => bool_decide (category_of c = beamdyn)) (case self)).
Proof.
  intros Hreg. unfold beamdyn_cases.
  assert (Hmap : res_map (fun c => cat ← dict_get CASE_MAP c; Ok (c, cat)) (case self)
                 = Ok (map (fun c => (c, category_of c)) (case self))).
  { induction Hreg as [| c cs Hc _ IH]; [done |].
    cbn [res_map map]. rewrite (dict_get_registered _ Hc), !res_bind_Ok_l.
    by rewrite IH, res_bind_Ok_l. }
  rewrite Hmap, res_bind_Ok_l. f_equal. clear Hreg Hmap.
  induction (case self) as [| c cs IH]; [done |].
  cbn [map List.filter snd].
  destruct (bool_decide (category_of c = beamdyn)); cbn [map fst];
    by rewrite IH.
Qed.

Lemma shared_directories_other :
  Forall other_entry (_linear ++ _regression).
Proof. unfold _linear, _regression. repeat constructor; discriminate. Qed.

Section Materialization.

Variable cwd : path.
Variable ignore_baseline : path -> list string -> list string.
Variable self : Executor.
Hypothesis Hlayout : standard_layout self.
Hypothesis Href : referenced self.

Local Abbreviation materialize :=
  (_build_test_output_directories cwd ignore_baseline self).

(** The shared directories and the beamdyn cases the call works on. *)
Lemma materialize_unfold :
  ∃ dirs l,
    Forall other_entry dirs
    ∧ (∀ c, c ∈ l ↔ c ∈ case self ∧ category_of c = beamdyn)
    ∧ ∀ t, materialize t
           = (copy_shared_directories self dirs ;;;
              _build_test_directory cwd ignore_baseline self ;;;
              _build_beamdyn_output_directories self l ;;;
              _check_5MW_dll_files self ;;;
              _build_5MW_directories self) t.
Proof.
  destruct Href as (Hreg & _).
  set (types := map category_of (case self)).
  exists ((if bool_decide (linear ∈ types) then _linear else [])
          ++ (if bool_decide (regression ∈ types) then _regression else [])),
         (List.filter (fun c => bool_decide (category_of c = beamdyn)) (case self)).
  split; [| split].
  - pose proof shared_directories_other as Hall.
    apply Forall_app in Hall as [H1 H2].
    apply Forall_app. split; case_bool_decide; done.
  - intros c. rewrite list_elem_of_In, filter_In, bool_decide_eq_true.
    by rewrite <- list_elem_of_In.
  - intros t. unfold _build_test_output_directories.
    rewrite (res_map_registered _ Hreg). fold types.
    unfold m_bind at 1, m_lift at 1.
    unfold m_bind at 1. case_bool_decide as Hbd.
    + unfold m_lift. by rewrite (beamdyn_cases_registered _ Hreg).
    + unfold m_ret.
      replace (List.filter (fun c => bool_decide (category_of c = beamdyn)) (case self))
        with (@nil string); [done |].
      symmetry. clear -Hbd. subst types.
      induction (case self) as [| c cs IH]; [done |].
      cbn [List.filter map] in *. case_bool_decide as Hc.
      * destruct Hbd. rewrite <- Hc. by left.
      * apply IH. intros Hin. apply Hbd. by right.
Qed.

End Materialization.

Lemma m_bind_skip {S A B : Type} (m : M S A) (k : A -> M S B) s a :
  m s = (s, Ok a) → m_bind m k s = k a s.
Proof. intros H. unfold m_bind. by rewrite H. Qed.

Section Idempotence.

Variable cwd : path.
Variable ignore_baseline : path -> list string -> list string.
Variable self : Executor.
Hypothesis Hlayout : standard_layout self.
Hypothesis Href : referenced self.

Local Abbreviation materialize :=
  (_build_test_output_directories cwd ignore_baseline self).
Local Abbreviation in_baseline := (workspace self baseline_entry).
Local Abbreviation in_other := (workspace self other_entry).

Lemma baseline_not_other rest : ¬ in_other (baseline_target self ++ rest).
Proof.
  unfold baseline_target. rewrite <- app_assoc.
  intros [Hpre | (name & rest' & Hname & Heq)].
  - apply prefix_length in Hpre. rewrite length_app in Hpre. simpl in Hpre. lia.
  - apply app_inv_head in Heq. by injection Heq as <-.
Qed.

Lemma test_file_not_baseline c rest :
  registered c → ¬ in_baseline (test_of self c ++ rest).
Proof.
  intros Hc. rewrite test_of_local_results, <- app_assoc.
  intros [Hpre | (name & rest' & -> & Heq)].
  - apply prefix_length in Hpre. rewrite length_app in Hpre. simpl in Hpre. lia.
  - apply app_inv_head in Heq. injection Heq as -> _.
    by apply registered_not_baseline in Hc.
Qed.

Lemma evolves_to_baseline_writes W t t' :
  (∀ s d, W s d → in_baseline d) →
  evolves W in_baseline t t' →
  evolves (fun _ d => in_baseline d) in_baseline t t'.
Proof. intros HW. by apply evolves_weaken. Qed.

(** The materialization run once more on its own result. *)
Lemma materialize_again t t1 :
  (t !! servo_target self = Some Dir → t !! baseline_target self = Some Dir) →
  materialize t = (t1, Ok tt) →
  (no_cwd_clash cwd self t1 → materialize t1 = (t1, Ok tt))
  ∧ evolves any_write anywhere t t1
  ∧ ∀ c bd, c ∈ case self → category_of c = beamdyn → bd ∈ bd_files →
      synced t1 (input_of self c ++ [bd]) (test_of self c ++ [bd]).
Proof.
  intros Hparent Hrun.
  destruct (materialize_unfold cwd ignore_baseline self Href)
    as (dirs & l & Hdirs & Hl & Hunf).
  rewrite Hunf in Hrun.
  apply m_bind_Ok in Hrun as (ta & [] & H1 & Hrun).
  apply m_bind_Ok in Hrun as (tb & [] & H2 & Hrun).
  apply m_bind_Ok in Hrun as (tc & [] & H3 & Hrun).
  apply m_bind_Ok in Hrun as (td & [] & H4 & H5).
  assert (Hlsub : ∀ c, c ∈ l → c ∈ case self) by (intros c Hc; by apply Hl).
  (* how the tree evolves, stage by stage *)
  assert (E1 : evolves any_write in_other t ta)
    by (eapply shared_directories_evolve; eauto).
  assert (E2 : evolves any_write in_other ta tb)
    by (eapply build_test_directory_evolves; eauto).
  assert (P2 : ∀ c, c ∈ case self →
                 isdir tb (test_of self c) = true ∧ isdir tb (input_of self c) = true)
    by (eapply build_test_directory_post; eauto).
  assert (I2 : build_directories_exist self tb).
  { intros c Hc. by apply P2. }
  assert (E3 : evolves (beamdyn_writes self) in_other tb tc)
    by (eapply beamdyn_directories_evolve; eauto).
  assert (P3 : ∀ c, c ∈ l → ∀ bd, bd ∈ bd_files →
                 synced tc (input_of self c ++ [bd]) (test_of self c ++ [bd]))
    by (eapply beamdyn_directories_post; eauto).
  assert (E4 : evolves (fun _ d => in_baseline d) in_baseline tc td)
    by (eapply check_dll_files_evolves; eauto).
  assert (E13 : evolves any_write in_other t tc).
  { eapply evolves_trans; [exact E1 |]. eapply evolves_trans; [exact E2 |].
    by eapply evolves_weaken; [| | exact E3]. }
  assert (Hparent_c : tc !! servo_target self = Some Dir
                      → tc !! baseline_target self = Some Dir).
  { unfold servo_target.
    rewrite (evolves_frame _ _ _ _ _ E13 (baseline_not_other ["ServoData"])).
    rewrite <- (app_nil_r (baseline_target self)) at 2.
    rewrite (evolves_frame _ _ _ _ _ E13 (baseline_not_other [])).
    by rewrite app_nil_r. }
  assert (P4 : isdir td (servo_target self) = true
               ∧ isdir td (baseline_target self) = true
               ∧ ∀ f, f ∈ dll_files →
                   isfile td (servo_target self ++ [List.last f ""]) = true)
    by (eapply check_dll_files_post; eauto).
  destruct P4 as (P4s & P4b & P4f).
  assert (E5 : evolves (baseline_writes self) in_baseline td t1)
    by (eapply build_5MW_evolves; eauto).
  assert (P5 : t1 !! baseline_source self = Some Dir
               ∧ ∀ name, name ∈ children t1 (baseline_source self) →
                   name ≠ "ServoData" → baseline_entry_settled self t1 name)
    by (eapply build_5MW_post; eauto).
  destruct P5 as (P5s & P5n).
  assert (A5 : evolves any_write anywhere td t1) by (by eapply evolves_any).
  assert (A4 : evolves any_write anywhere tc t1).
  { eapply evolves_trans; [by eapply evolves_any | done]. }
  assert (A3 : evolves any_write anywhere tb t1).
  { eapply evolves_trans; [by eapply evolves_any | done]. }
  assert (A2 : evolves any_write anywhere ta t1).
  { eapply evolves_trans; [by eapply evolves_any | done]. }
  assert (A1 : evolves any_write anywhere t t1).
  { eapply evolves_trans; [by eapply evolves_any | done]. }
  assert (E45 : evolves (fun _ d => in_baseline d) in_baseline tc t1).
  { eapply evolves_trans; [exact E4 |].
    eapply evolves_to_baseline_writes; [| exact E5].
    intros s d. by apply baseline_writes_in_baseline. }
  (* what holds of the result *)
  assert (F1 : ∀ data, data ∈ dirs → isdir t1 (local_results self ++ [data]) = true).
  { intros data Hd. eapply evolves_isdir; [exact A2 |].
    by eapply shared_directories_post. }
  assert (F2 : ∀ c, c ∈ case self →
                 isdir t1 (test_of self c) = true ∧ isdir t1 (input_of self c) = true).
  { intros c Hc. destruct (P2 c Hc).
    split; (eapply evolves_isdir; [exact A3 | done]). }
  assert (F3 : ∀ c, c ∈ l → ∀ bd, bd ∈ bd_files →
                 synced t1 (input_of self c ++ [bd]) (test_of self c ++ [bd])).
  { intros c Hc bd Hbd.
    eapply evolves_synced; [exact E45 | | | by apply P3].
    - apply source_outside_workspace; [done |]. by apply input_of_below_rtest.
    - intros src' Hin. exfalso. revert Hin. apply test_file_not_baseline.
      eapply case_registered; [done |]. by apply Hlsub. }
  split; [| split; [done |]].
  - intros Hclash. rewrite Hunf.
    rewrite (m_bind_skip _ _ _ tt) by (by apply shared_directories_skip).
    rewrite (m_bind_skip _ _ _ tt) by (by apply build_test_directory_skip).
    rewrite (m_bind_skip _ _ _ tt).
    2:{ apply beamdyn_directories_skip; try done. intros c Hc. by apply F2. }
    rewrite (m_bind_skip _ _ _ tt).
    2:{ apply check_dll_files_skip.
        - eapply evolves_isdir; [exact A5 | done].
        - intros f Hf. eapply evolves_isfile; [exact A5 | by apply P4f]. }
    apply build_5MW_skip; [done | | done | done].
    eapply evolves_isdir; [exact A5 | done].
  - intros c bd Hc Hcat Hbd. apply F3; [| done]. by apply Hl.
Qed.

End Idempotence.

(** ** From the constructor to the materialization *)

Section Prepared.

Variable platform_system : string.
Variable cpu_count : Z.
Variable validate_executable : pathlike -> option exn.
Variable validate_directory : path -> option exn.

Lemma resolve_jobs_layout self self' :
  resolve_jobs cpu_count self = Ok self' →
  build self' = build self ∧ rtest self' = rtest self
  ∧ module self' = module self.
Proof.
  unfold resolve_jobs.
  destruct (Z.ltb_spec (jobs self) (-1)); [done |]. cbv zeta.
  destruct (jobs self =? -1); simpl;
    (destruct (0 <? _); simpl);
    (destruct (_ <? _); simpl; intros [= <-]; done).
Qed.

Lemma init_layout a out self :
  __init__ platform_system cpu_count validate_executable validate_directory a
    = (out, Ok self) →
  standard_layout self.
Proof.
  intros (system & _ & _ & _ & Hr)%init_Ok.
  apply resolve_jobs_layout in Hr as (Hb & Hr & Hm).
  exists (fspath (Path (a_source a))).
  rewrite Hb, Hr, Hm. unfold validate_output_type.
  destruct (negb _); simpl; unfold join; by rewrite <- ?app_assoc.
Qed.

(** An object that was constructed and whose references were built has
    the standard layout and holds the directories of its cases. *)
Lemma prepared_layout a out self0 self :
  __init__ platform_system cpu_count validate_executable validate_directory a
    = (out, Ok self0) →
  _build_directory_references self0 = (self, Ok tt) →
  standard_layout self ∧ referenced self.
Proof.
  intros Hinit Hrefs. apply init_layout in Hinit as (root & Hb & Hr & Hm).
  apply build_references_Ok in Hrefs as [Hreg ->]. split.
  - by exists root.
  - done.
Qed.

End Prepared.

Lemma well_formed_check_sound t : well_formed_check t = true → well_formed t.
Proof.
  unfold well_formed_check. rewrite forallb_forall. intros Hall p name Hsome.
  specialize (Hall (p ++ [name])). rewrite dirname_snoc in Hall.
  apply isdir_true.
  assert (Hin : In (p ++ [name]) (elements (dom t))).
  { by apply list_elem_of_In, elem_of_elements, elem_of_dom. }
  apply Hall, orb_true_iff in Hin as [Hnil | Hdir]; [| done].
  apply bool_decide_eq_true in Hnil. by destruct p.
Qed.

Lemma no_cwd_clash_empty cwd self t :
  children t cwd = [] → no_cwd_clash cwd self t.
Proof.
  intros Hempty c f _ _. destruct (isfile t (cwd ++ [f])) eqn:Hf; [| done].
  apply isfile_true in Hf as [content Hf].
  assert (f ∈ children t cwd) as Hin by (apply elem_of_children; eauto).
  rewrite Hempty in Hin. by apply elem_of_nil in Hin.
Qed.

Section IdempotenceClaim.

Variable platform_system : string.
Variable cpu_count : Z.
Variable validate_executable : pathlike -> option exn.
Variable validate_directory : path -> option exn.
Variable cwd : path.
Variable ignore_baseline : path -> list string -> list string.

(** C7, as amended.  When the materialization of a constructed plan
    succeeds on a well-formed tree, a second run on the result raises no
    error and leaves the tree as it is, provided that no entry name of a
    case's input directory names a file in the working directory.
    Directories that exist stay in place; files are written over: after a
    successful run each of the three beamdyn input files in the build
    directory of a beamdyn case holds the content of its source. *)
Theorem materialization_idempotent
    (a : args) (out : list string) (self0 self : Executor) (t t1 : tree) :
  __init__ platform_system cpu_count validate_executable validate_directory a
    = (out, Ok self0) →
  _build_directory_references self0 = (self, Ok tt) →
  well_formed t →
  _build_test_output_directories cwd ignore_baseline self t = (t1, Ok tt) →
  (no_cwd_clash cwd self t1 →
     _build_test_output_directories cwd ignore_baseline self t1 = (t1, Ok tt))
  ∧ (∀ p, t !! p = Some Dir → t1 !! p = Some Dir)
  ∧ (∀ c bd, c ∈ case self → category_of c = beamdyn → bd ∈ bd_files →
       synced t1 (input_of self c ++ [bd]) (test_of self c ++ [bd])).
Proof.
  intros Hinit Hrefs Hwf Hrun.
  destruct (prepared_layout _ _ _ _ _ _ _ _ Hinit Hrefs) as [Hlayout Href].
  destruct (materialize_again cwd ignore_baseline self Hlayout Href t t1)
    as (Hagain & Hev & Hsync); [| done |].
  - intros Hservo. apply (Hwf (baseline_target self) "ServoData").
    unfold servo_target in Hservo. by rewrite Hservo.
  - split; [done |]. split; [| done].
    intros p. exact (evolves_dir _ _ _ _ _ Hev).
Qed.

End IdempotenceClaim.

(** C7 as stated fails.  The build directory of [bd_curved_beam] exists
    and holds an edited [bd_driver.inp]; the materialization succeeds and
    the file then holds the content of the source: an existing file in an
    existing target directory was written over. *)
Lemma materialization_overwrites_existing_file :
  ∃ self t1,
    Sample.prepared (Sample.plan ["bd_curved_beam"]) = Ok self
    ∧ Sample.materialize self Sample.fixture_tree = (t1, Ok tt)
    ∧ isdir Sample.fixture_tree Sample.beam_build = true
    ∧ Sample.fixture_tree !! (Sample.beam_build ++ ["bd_driver.inp"])
      = Some (File "driver, edited in the build directory")
    ∧ t1 !! (Sample.beam_build ++ ["bd_driver.inp"]) = Some (File "driver").
Proof.
  destruct (Sample.prepared (Sample.plan ["bd_curved_beam"])) as [self |] eqn:E;
    vm_compute in E; [| discriminate].
  injection E as <-.
  match goal with |- ∃ self t1, Ok ?s = Ok self ∧ _ =>
    assert (Hr : snd (Sample.materialize s Sample.fixture_tree) = Ok tt)
      by (vm_compute; reflexivity);
    assert (Hl : fst (Sample.materialize s Sample.fixture_tree)
                   !! (Sample.beam_build ++ ["bd_driver.inp"])
                 = Some (File "driver"))
      by (vm_compute; reflexivity);
    exists s;
    destruct (Sample.materialize s Sample.fixture_tree) as [t1 r]
  end.
  simpl in Hr, Hl. subst r. exists t1.
  split; [reflexivity |]. split; [reflexivity |].
  split; [vm_compute; reflexivity |].
  split; [vm_compute; reflexivity | exact Hl].
Qed.

Lemma materialization_idempotent_witness :
  ∃ self t1,
    Sample.prepared (Sample.plan ["bd_curved_beam"]) = Ok self
    ∧ Sample.materialize self Sample.fixture_tree = (t1, Ok tt)
    ∧ Sample.materialize self t1 = (t1, Ok tt).
Proof.
  assert (Hp : Sample.prepared (Sample.plan ["bd_curved_beam"])
               = match Sample.construct (Sample.plan ["bd_curved_beam"]) with
                 | (_, Ok self) =>
                     match _build_directory_references self with
                     | (self', Ok _) => Ok self'
                     | (_, Raise e) => Raise e
                     end
                 | (_, Raise e) => Raise e
                 end) by reflexivity.
  destruct (Sample.construct (Sample.plan ["bd_curved_beam"])) as [out r] eqn:E.
  evaluated E.
  destruct (_build_directory_references _) as [self r] eqn:Eb in Hp.
  assert (Hr : r = Ok tt).
  { apply (f_equal snd) in Eb. vm_compute in Eb. done. }
  subst r. rewrite Hp. clear Hp.
  assert (Hs : snd (Sample.materialize self Sample.fixture_tree) = Ok tt).
  { apply (f_equal fst) in Eb. vm_compute in Eb. subst self.
    vm_compute. reflexivity. }
  assert (Hc : children (fst (Sample.materialize self Sample.fixture_tree))
                 Sample.working_directory = []).
  { apply (f_equal fst) in Eb. vm_compute in Eb. subst self.
    vm_compute. reflexivity. }
  destruct (Sample.materialize self Sample.fixture_tree) as [t1 r] eqn:Em.
  simpl in Hs, Hc. subst r.
  exists self, t1. split; [reflexivity |]. split; [exact Em |].
  assert (Hwf : well_formed Sample.fixture_tree).
  { apply well_formed_check_sound. vm_compute. reflexivity. }
  destruct (materialization_idempotent "Linux" 10 Sample.valid_executable
              Sample.valid_directory Sample.working_directory no_ignore
              (Sample.plan ["bd_curved_beam"]) _ _ self Sample.fixture_tree t1
              E Eb Hwf Em) as (Hagain & _ & _).
  apply Hagain. by apply no_cwd_clash_empty.
Defined.

(** * Further properties of the code *)

(** ** The constructor: which check fails first, and when it succeeds *)

Section ConstructionOutcome.

Variable platform_system : string.
Variable cpu_count : Z.
Variable validate_executable : pathlike -> option exn.
Variable validate_directory : path -> option exn.

Local Abbreviation init :=
  (__init__ platform_system cpu_count validate_executable validate_directory).
Local Abbreviation checks :=
  (validate_paths_and_plot validate_executable validate_directory).

Lemma init_checks_pass a system :
  dict_get SYSTEM_MAP (default platform_system (a_system a)) = Ok system →
  checks (init_object a system) = Ok tt →
  (a_jobs a < -1 →
     snd (init a) = Raise (ValueError "Input 'jobs' cannot be negative!"))
  ∧ (-1 ≤ a_jobs a → ∃ self, snd (init a) = Ok self).
Proof.
  intros Hs Hc. rewrite (init_known _ _ _ _ _ _ Hs). simpl.
  rewrite Hc, res_bind_Ok_l.
  destruct (validate_output_type_fields (init_object a system)) as (Hj & _).
  assert (Hjobs : jobs (snd (validate_output_type (init_object a system)))
                  = if a_jobs a =? 0 then -1 else a_jobs a) by (by rewrite Hj).
  split.
  - intros Hneg. unfold resolve_jobs. rewrite Hjobs.
    destruct (Z.eqb_spec (a_jobs a) 0); [lia |].
    by destruct (Z.ltb_spec (a_jobs a) (-1)); [| lia].
  - intros Hok. apply resolve_jobs_total. rewrite Hjobs.
    destruct (Z.eqb_spec (a_jobs a) 0); lia.
Qed.

(** X1.  The checks of the constructor in their order.  A system name that
    is not a key of [SYSTEM_MAP] raises [KeyError] and prints nothing,
    whatever the other arguments are.  With a known system, an exception of
    the executable, directory or plot check is the exception of the
    constructor, also when the job count is invalid too; when these checks
    pass, the constructor raises for a job count below [-1] and succeeds
    otherwise. *)
Theorem construction_outcome (a : args) :
  let key := default platform_system (a_system a) in
  (key ∉ dict_keys SYSTEM_MAP → init a = ([], Raise (KeyError key)))
  ∧ ∀ system, dict_get SYSTEM_MAP key = Ok system →
      (∀ e, checks (init_object a system) = Raise e → snd (init a) = Raise e)
      ∧ (checks (init_object a system) = Ok tt →
           (a_jobs a < -1 →
              snd (init a) = Raise (ValueError "Input 'jobs' cannot be negative!"))
           ∧ (-1 ≤ a_jobs a → ∃ self, snd (init a) = Ok self)).
Proof.
  intros key. split.
  - intros Hkey. unfold __init__. fold key. by rewrite dict_get_not_in.
  - intros system Hs. split.
    + rewrite (init_known _ _ _ _ _ _ Hs). simpl. by intros e ->.
    + by apply init_checks_pass.
Qed.



End ConstructionOutcome.



(** ** The directory references *)

(** X4.  [_build_directory_references] succeeds exactly when every case of
    the plan is registered, and the object then holds one input, one
    baseline and one build directory per case, in the order of the plan;
    no other attribute changes. *)
Theorem references_succeed_iff_registered (self self' : Executor) :
  _build_directory_references self = (self', Ok tt) ↔
  Forall registered (case self) ∧ self' = with_references self.
Proof. apply build_references_Ok. Qed.

(** X5.  At the first unregistered case [c] the loop raises [KeyError c]
    and leaves the three lists filled for the cases before [c] only. *)
Theorem references_stop_at_first_unregistered
    (self : Executor) (known : list string) (c : string) (rest : list string) :
  case self = known ++ c :: rest →
  Forall registered known → ¬ registered c →
  _build_directory_references self
  = (set_references self (map (input_of self) known)
       (map (output_of self) known) (map (test_of self) known),
     Raise (KeyError c)).
Proof.
  intros Hcase Hk Hc. rewrite build_references_unfold, Hcase.
  exact (references_loop_unregistered self known c rest [] [] [] Hk Hc).
Qed.

Lemma references_stop_at_first_unregistered_witness :
  _build_directory_references Sample.object_with_unknown
  = (set_references Sample.object_with_unknown
       (map (input_of Sample.object_with_unknown) ["AOC_WSt"])
       (map (output_of Sample.object_with_unknown) ["AOC_WSt"])
       (map (test_of Sample.object_with_unknown) ["AOC_WSt"]),
     Raise (KeyError "no_such_case")).
Proof.
  apply (references_stop_at_first_unregistered Sample.object_with_unknown
           ["AOC_WSt"] "no_such_case" ["bd_curved_beam"]).
  - reflexivity.
  - repeat constructor; apply registered_iff; vm_compute; reflexivity.
  - rewrite registered_iff. vm_compute. discriminate.
Defined.

Lemma with_references_again self :
  with_references (with_references self) = with_references self.
Proof. reflexivity. Qed.

(** X6.  The three lists are rebuilt from scratch on every call: calling
    [_build_directory_references] on the object a successful call returned
    succeeds and returns that object again, with no entry added. *)
Theorem references_rebuilt_not_extended (self self' : Executor) :
  _build_directory_references self = (self', Ok tt) →
  _build_directory_references self' = (self', Ok tt).
Proof.
  intros [Hreg ->]%build_references_Ok.
  apply build_references_Ok. split; [done |].
  symmetry. apply with_references_again.
Qed.

Lemma references_rebuilt_not_extended_witness :
  _build_directory_references (with_references Sample.object)
  = (with_references Sample.object, Ok tt).
Proof.
  apply (references_rebuilt_not_extended Sample.object).
  vm_compute. reflexivity.
Defined.

(** ** Dispatch and [run] *)

Lemma zip3_commands {I A B C : Type} (f : A -> B -> C) :
  ∀ (ixs : list I) (cs : list A) (ts : list B),
    length ixs = length cs →
    map (fun a : I * A * B => f (snd (fst a)) (snd a)) (zip3 ixs cs ts)
    = zip_with f cs ts.
Proof.
  unfold zip3.
  induction ixs as [| i ixs IH]; intros [| c cs] [| t ts] Hlen; simpl in *;
    try done.
  f_equal. apply IH. lia.
Qed.

Lemma zip_with_map_r {A B C : Type} (f : A -> B -> C) (g : A -> B) (l : list A) :
  zip_with f l (map g l) = map (fun x => f x (g x)) l.
Proof. induction l as [| x l IH]; simpl; [done | by rewrite IH]. Qed.

Lemma tally_acc (results : list (Z * string * string)) : ∀ (fail : string) (n : Z),
  snd (fold_left
         (fun (acc : string * Z) (r : Z * string * string) =>
            let '(code, ix, c) := r in
            if negb (code =? 0)
            then (str_join (nl +:+ "  ")
                    [fst acc; rjust 6 (hd "" (components "" ix)) +:+ ": " +:+ c],
                  snd acc)
            else (fst acc, snd acc + 1))
         results (fail, n))
  = n + Z.of_nat (length (passed results)).
Proof.
  induction results as [| [[code ix] c] results IH]; intros fail n.
  - simpl. lia.
  - cbn [fold_left]. unfold passed. cbn [List.filter fst].
    destruct (code =? 0) eqn:E; cbn [negb]; rewrite IH; unfold passed.
    + cbn [snd length]. lia.
    + cbn [snd]. lia.
Qed.

Lemma passed_length results :
  (length (passed results) ≤ length results)%nat
  ∧ (length (passed results) = length results
     ↔ Forall (fun r : Z * string * string => fst (fst r) = 0) results).
Proof.
  unfold passed. induction results as [| r results [IHle IHall]]; simpl.
  - split; [lia |]. split; [constructor | done].
  - destruct (Z.eqb_spec (fst (fst r)) 0) as [E | E]; simpl.
    + split; [lia |]. split.
      * intros [= H]. constructor; [done |]. by apply IHall.
      * intros [_ H]%Forall_cons. f_equal. by apply IHall.
    + split; [lia |]. split; [lia |]. by intros [? _]%Forall_cons.
Qed.

Section RunProperties.

Variable cwd : path.
Variable ignore_baseline : path -> list string -> list string.
Variable run_openfast_case :
  pathlike -> path -> string -> string -> bool -> bool -> tree -> tree * Z.

Local Abbreviation single := (_run_single_case run_openfast_case).
Local Abbreviation run' := (run cwd ignore_baseline run_openfast_case).

(** The workers print nothing, and start the command of each task in the
    order of the tasks. *)
Lemma m_map_single_launched self : ∀ (tasks : list (string * string * path)) w w' r,
  Forall (fun a : string * string * path => registered (snd (fst a))) tasks →
  m_map (single self) tasks w = (w', r) →
  w_out w' = w_out w
  ∧ w_launched w'
    = w_launched w
      ++ map (fun a : string * string * path => command_of self (snd (fst a)) (snd a))
             tasks.
Proof.
  induction tasks as [| [[ix c] test] tasks IH]; intros w w' r Htasks.
  - intros [= <- _]. by rewrite app_nil_r.
  - apply Forall_cons in Htasks as [Hc Htasks]. simpl in Hc.
    rewrite m_map_cons.
    assert (H1 : ∃ w1 code, single self (ix, c, test) w = (w1, Ok (code, ix, c))
                   ∧ w_out w1 = w_out w
                   ∧ w_launched w1 = w_launched w ++ [command_of self c test]).
    { unfold _run_single_case, m_bind, m_lift, command_of.
      rewrite (dict_get_registered _ Hc).
      destruct (run_openfast_case _ _ _ _ _ _ _) as [t code].
      eexists _, code. split; [reflexivity |]. split; [done |].
      cbn [w_launched]. by case_bool_decide. }
    destruct H1 as (w1 & code & -> & Hout & Hl).
    destruct (m_map (single self) tasks w1) as [w2 r2] eqn:E2.
    destruct (IH w1 w2 r2 Htasks E2) as [Hout2 Hl2].
    assert (Hw : w_out w2 = w_out w
                 ∧ w_launched w2
                   = w_launched w
                     ++ command_of self c test
                        :: map (fun a : string * string * path =>
                                  command_of self (snd (fst a)) (snd a)) tasks).
    { rewrite Hout2, Hl2, Hout, Hl, <- app_assoc. done. }
    destruct r2; intros [= <- _]; exact Hw.
Qed.

(** X7.  A run that executes: over a plan of registered cases whose job
    count is at least one, when the materialization succeeds, [run] ends
    normally whatever the exit codes are, and has started exactly one
    command per case in the order of the plan: the beamdyn driver on
    [bd_driver.inp] for a beamdyn case, the general executable on
    [<case>.fst] otherwise, each in the build directory of its case. *)
Theorem run_starts_one_command_per_case
    (self : Executor) (w : world) (t1 : tree) :
  execution self = true →
  Forall registered (case self) →
  1 ≤ jobs self →
  _build_test_output_directories cwd ignore_baseline (with_references self)
    (w_tree w) = (t1, Ok tt) →
  ∃ w', run' (self, w) = ((with_references self, w'), Ok tt)
        ∧ w_launched w'
          = w_launched w
            ++ map (fun c => command_of self c (test_of self c)) (case self).
Proof.
  intros Hexec Hreg Hjobs Hmat.
  assert (Hb : _build_directory_references self = (with_references self, Ok tt))
    by (by apply build_references_Ok).
  set (self' := with_references self) in *.
  set (tasks := zip3 (ordinal_labels (length (case self'))) (case self')
                     (map (test_of self) (case self))).
  assert (Htasks : Forall (fun a : string * string * path =>
                            registered (snd (fst a))) tasks).
  { apply Forall_forall. intros [[ix c] t] Hin. simpl.
    apply list_elem_of_In in Hin.
    apply in_combine_l, in_combine_r in Hin.
    rewrite Forall_forall in Hreg. apply Hreg. by apply list_elem_of_In. }
  set (w1 := {| w_tree := t1; w_out := w_out w; w_launched := w_launched w |}).
  destruct (m_map_single_cases run_openfast_case self' tasks w1 Htasks)
    as (w2 & results & Hmap & _).
  destruct (m_map_single_launched self' tasks w1 w2 _ Htasks Hmap) as [Hout Hl].
  assert (Hd : dispatch run_openfast_case self' w1 = (w2, Ok results)).
  { unfold dispatch, m_bind, m_lift. simpl.
    unfold Pool, pool_size. simpl.
    destruct (Z.ltb_spec (jobs self) 1); [lia |]. exact Hmap. }
  assert (Hcases : ∃ w3, _run_openfast_cases run_openfast_case self' w1 = (w3, Ok tt)
                         ∧ w_launched w3 = w_launched w2).
  { unfold _run_openfast_cases, m_bind at 1. rewrite Hd.
    destruct (tally results) as [fail success].
    unfold m_bind, print, m_when. simpl.
    destruct (negb _); eauto. }
  destruct Hcases as (w3 & Hc & Hl3).
  exists w3. split.
  - unfold run. rewrite Hb.
    replace (execution self') with true by (by rewrite <- Hexec).
    unfold m_bind, on_tree. rewrite Hmat. fold w1. by rewrite Hc.
  - rewrite Hl3, Hl. unfold tasks. f_equal.
    rewrite (zip3_commands (command_of self')).
    + simpl. by rewrite zip_with_map_r.
    + by rewrite ordinal_labels_length.
Qed.

(** X8.  A run that does not execute: with [execution] off, [run] over a
    plan of registered cases only builds the references; the file tree,
    the output and the commands started are as before. *)
Theorem dry_run_only_builds_references (self : Executor) (w : world) :
  execution self = false →
  Forall registered (case self) →
  run' (self, w) = ((with_references self, w), Ok tt).
Proof.
  intros Hexec Hreg. unfold run.
  assert (Hb : _build_directory_references self = (with_references self, Ok tt))
    by (by apply build_references_Ok).
  rewrite Hb.
  by replace (execution (with_references self)) with false by (by rewrite <- Hexec).
Qed.

(** X9.  A failed materialization starts nothing: when
    [_build_test_output_directories] raises, [run] raises the same
    exception, no command has been started and nothing has been printed. *)
Theorem failed_materialization_starts_nothing
    (self : Executor) (w : world) (t1 : tree) (e : exn) :
  execution self = true →
  Forall registered (case self) →
  _build_test_output_directories cwd ignore_baseline (with_references self)
    (w_tree w) = (t1, Raise e) →
  run' (self, w)
  = ((with_references self,
      {| w_tree := t1; w_out := w_out w; w_launched := w_launched w |}),
     Raise e).
Proof.
  intros Hexec Hreg Hmat. unfold run.
  assert (Hb : _build_directory_references self = (with_references self, Ok tt))
    by (by apply build_references_Ok).
  rewrite Hb.
  replace (execution (with_references self)) with true by (by rewrite <- Hexec).
  unfold m_bind, on_tree. by rewrite Hmat.
Qed.

(** X10.  The report of [_run_openfast_cases]: after the pool has returned
    [results], the number printed as passed is the number of results whose
    exit code is zero, and the list of failed cases is printed exactly when
    that number differs from the number of cases; a non-zero exit code
    raises nothing. *)
Theorem report_counts_zero_exit_codes
    (self : Executor) (w w' : world) (results : list (Z * string * string)) :
  dispatch run_openfast_case self w = (w', Ok results) →
  let n := Z.of_nat (length (case self)) in
  let success := Z.of_nat (length (passed results)) in
  snd (tally results) = success
  ∧ _run_openfast_cases run_openfast_case self w
    = ({| w_tree := w_tree w';
          w_out := w_out w'
                   ++ (nl +:+ nl +:+ "    " +:+ str_of_Z success +:+ "/"
                         +:+ str_of_Z n +:+ " test cases passed")
                   :: (if success =? n then []
                       else [nl +:+ fst (tally results)]);
          w_launched := w_launched w' |}, Ok tt).
Proof.
  intros Hd n success.
  assert (Ht : snd (tally results) = success).
  { unfold tally. rewrite tally_acc. subst success. lia. }
  split; [done |].
  unfold _run_openfast_cases, m_bind at 1. rewrite Hd.
  destruct (tally results) as [fail s] eqn:E. simpl in Ht. subst s.
  fold n. unfold m_bind, print, m_when. cbn [w_tree w_out w_launched fst].
  destruct (success =? n); cbn [negb]; unfold m_ret; cbn [w_tree w_out w_launched].
  - reflexivity.
  - by rewrite <- app_assoc.
Qed.

End RunProperties.

Lemma run_starts_one_command_per_case_witness :
  ∃ self w',
    Sample.construct (Sample.plan ["bd_curved_beam"]) = ([], Ok self)
    ∧ run Sample.working_directory no_ignore Sample.quiet_case
          (self, Sample.fixture_world)
      = ((with_references self, w'), Ok tt)
    ∧ w_launched w'
      = [(PurePath ["opt"; "openfast"; "build"; "modules"; "beamdyn";
                    "beamdyn_driver"],
          Sample.beam_build ++ ["bd_driver.inp"])].
Proof.
  destruct (Sample.construct (Sample.plan ["bd_curved_beam"])) as [out r] eqn:E.
  evaluated E.
  match goal with |- ∃ self w', (_, Ok ?s) = (_, Ok self) ∧ _ =>
    assert (Hs : snd (_build_test_output_directories Sample.working_directory
                        no_ignore (with_references s)
                        (w_tree Sample.fixture_world)) = Ok tt)
      by (vm_compute; reflexivity);
    destruct (_build_test_output_directories Sample.working_directory
                no_ignore (with_references s) (w_tree Sample.fixture_world))
      as [t1 r] eqn:Em;
    simpl in Hs; subst r;
    destruct (run_starts_one_command_per_case Sample.working_directory no_ignore
                Sample.quiet_case s Sample.fixture_world t1)
      as (w' & Hrun & Hl);
    [ reflexivity
    | repeat constructor; apply registered_iff; vm_compute; reflexivity
    | simpl; lia
    | exact Em
    | exists s, w' ]
  end.
  split; [reflexivity |]. split; [exact Hrun |].
  rewrite Hl. vm_compute. reflexivity.
Defined.

Lemma dry_run_only_builds_references_witness :
  run [] no_ignore Sample.quiet_case (Sample.dry_object, Sample.empty_world)
  = ((with_references Sample.dry_object, Sample.empty_world), Ok tt).
Proof.
  apply (dry_run_only_builds_references [] no_ignore Sample.quiet_case).
  - reflexivity.
  - repeat constructor; apply registered_iff; vm_compute; reflexivity.
Defined.

Lemma failed_materialization_starts_nothing_witness :
  ∃ t1 e,
    run Sample.working_directory no_ignore Sample.quiet_case
        (Sample.object, Sample.empty_world)
    = ((with_references Sample.object,
        {| w_tree := t1; w_out := []; w_launched := [] |}), Raise e).
Proof.
  assert (Hs : ∃ e, snd (_build_test_output_directories Sample.working_directory
                           no_ignore (with_references Sample.object)
                           (w_tree Sample.empty_world)) = Raise e)
    by (vm_compute; eexists; reflexivity).
  destruct Hs as [e Hs].
  destruct (_build_test_output_directories Sample.working_directory
              no_ignore (with_references Sample.object)
              (w_tree Sample.empty_world)) as [t1 r] eqn:Em.
  simpl in Hs. subst r. exists t1, e.
  apply (failed_materialization_starts_nothing Sample.working_directory no_ignore
           Sample.quiet_case Sample.object Sample.empty_world t1 e).
  - reflexivity.
  - repeat constructor; apply registered_iff; vm_compute; reflexivity.
  - exact Em.
Defined.

Lemma report_counts_zero_exit_codes_witness :
  ∃ self w',
    Sample.prepared (Sample.plan ["AOC_WSt"; "bd_curved_beam"]) = Ok self
    ∧ _run_openfast_cases Sample.failing_beam self Sample.empty_world
      = (w', Ok tt)
    ∧ w_out w'
      = [nl +:+ nl +:+ "    1/2 test cases passed";
         nl +:+ "    Failed cases:" +:+ nl +:+ "       2: bd_curved_beam"].
Proof.
  destruct (Sample.prepared (Sample.plan ["AOC_WSt"; "bd_curved_beam"]))
    as [self |] eqn:E; vm_compute in E; [| discriminate].
  injection E as <-.
  match goal with |- ∃ self w', Ok ?s = Ok self ∧ _ =>
    destruct (dispatch Sample.failing_beam s Sample.empty_world) as [w1 r] eqn:Ed;
    pose proof Ed as Ed'; vm_compute in Ed'; injection Ed' as Hw Hr;
    subst r;
    destruct (report_counts_zero_exit_codes Sample.failing_beam s
                Sample.empty_world w1 _ Ed) as [_ Hrep];
    eexists s, _
  end.
  split; [reflexivity |]. split; [exact Hrep |].
  cbn [w_out]. rewrite <- Hw. vm_compute. reflexivity.
Defined.

(** ** The default job count in floating point *)

(** X11.  [int(np.ceil(cpu_count() * 0.8))], computed in binary64 with the
    rounded constant 0.8, is the exact ceiling of four fifths of the core
    count for every count below [2^48]: the rounding of the product never
    crosses an integer.  The default is therefore at least one job and at
    most one job per core. *)
Theorem default_jobs_float_is_exact (c : Z) :
  1 ≤ c < 2 ^ 48 →
  Binary64.ceil_mul_08 c = ceil_four_fifths c
  ∧ 1 ≤ Binary64.ceil_mul_08 c ≤ c
  ∧ 4 * c ≤ 5 * Binary64.ceil_mul_08 c < 4 * c + 5.
Proof.
  intros Hc. rewrite (ceil_mul_08_exact c Hc).
  pose proof (ceil_four_fifths_bounds c ltac:(lia)).
  split; [done |]. split; [done |]. unfold ceil_four_fifths.
  pose proof (Z.div_mod (4 * c + 4) 5 ltac:(lia)).
  pose proof (Z.mod_pos_bound (4 * c + 4) 5 ltac:(lia)). lia.
Qed.

Lemma default_jobs_float_is_exact_witness :
  Binary64.ceil_mul_08 10 = ceil_four_fifths 10
  ∧ 1 ≤ Binary64.ceil_mul_08 10 ≤ 10
  ∧ 4 * 10 ≤ 5 * Binary64.ceil_mul_08 10 < 4 * 10 + 5.
Proof. apply (default_jobs_float_is_exact 10). lia. Defined.

(** ** The object the constructor returns *)

Lemma set_jobs_same self : set_jobs self (jobs self) = self.
Proof. by destruct self. Qed.

Lemma resolve_jobs_Ok_shape cpu_count self self' :
  resolve_jobs cpu_count self = Ok self' → self' = set_jobs self (jobs self').
Proof.
  unfold resolve_jobs.
  destruct (jobs self <? -1); [done |]. cbv zeta.
  destruct (jobs self =? -1); simpl;
    (destruct (0 <? _); simpl);
    (destruct (_ <? _); simpl; intros [= <-]; simpl;
     by rewrite ?set_jobs_same).
Qed.

Section ConstructedObject.

Variable platform_system : string.
Variable cpu_count : Z.
Variable validate_executable : pathlike -> option exn.
Variable validate_directory : path -> option exn.
Variables Data Info : Type.
Variable validate_file : path -> option exn.
Variable load_output : path -> res (Data * Info).
Variable run_openfast_case :
  pathlike -> path -> string -> string -> bool -> bool -> tree -> tree * Z.

Local Abbreviation init :=
  (__init__ platform_system cpu_count validate_executable validate_directory).

Lemma init_Ok_shape a out self :
  init a = (out, Ok self) →
  ∃ system j,
    dict_get SYSTEM_MAP (default platform_system (a_system a)) = Ok system
    ∧ out = fst (validate_output_type (init_object a system))
    ∧ validate_paths_and_plot validate_executable validate_directory
        (init_object a system) = Ok tt
    ∧ self = set_jobs (snd (validate_output_type (init_object a system))) j.
Proof.
  intros (system & Hs & Hout & Hchecks & Hr)%init_Ok.
  exists system, (jobs self). split; [done |]. split; [done |]. split; [done |].
  by apply resolve_jobs_Ok_shape in Hr.
Qed.

Lemma checks_Ok_plot self :
  validate_paths_and_plot validate_executable validate_directory self = Ok tt →
  plot self ∈ [0; 1; 2].
Proof.
  unfold validate_paths_and_plot.
  intros (? & _ & (? & _ & (? & _ & H)%res_bind_Ok)%res_bind_Ok)%res_bind_Ok.
  destruct (decide (plot self ∈ [0; 1; 2])) as [| Hn]; [done |].
  by rewrite bool_decide_eq_false_2 in H.
Qed.

(** X12.  What holds of every object the constructor returns: its output
    type is one of the four accepted identifiers, being the identifier
    derived from the system and the lowered compiler name when nothing was
    printed and ["macos-gnu"] when the warning was printed; the plot flag
    is 0, 1 or 2, the compiler name is kept as given, and the directories
    are derived from the source root. *)
Theorem constructed_object_invariants (a : args) (out : list string) (self : Executor) :
  init a = (out, Ok self) →
  output_type self ∈ output_type_opts
  ∧ (out = [] ∧
       (∃ system,
          dict_get SYSTEM_MAP (default platform_system (a_system a)) = Ok system
          ∧ output_type self = str_join "-" [system; lower (a_compiler a)])
     ∨ out = [fallback_message] ∧ output_type self = "macos-gnu")
  ∧ plot self ∈ [0; 1; 2]
  ∧ compiler self = a_compiler a
  ∧ build self = source self ++ ["build"]
  ∧ rtest self = source self ++ ["reg_tests"; "r-test"]
  ∧ module self = rtest self ++ ["glue-codes"; "openfast"].
Proof.
  intros (system & j & Hs & -> & Hchecks & ->)%init_Ok_shape.
  apply checks_Ok_plot in Hchecks.
  unfold validate_output_type.
  destruct (str_in _ output_type_opts) eqn:E; cbn [negb fst snd].
  - apply str_in_elem_of in E. cbn.
    split; [done |]. split; [left; split; [done | by exists system] |].
    split; [done |]. by repeat split.
  - cbn. split; [set_solver |]. split; [by right |].
    split; [done |]. by repeat split.
Qed.

(** X13.  An object that was constructed and not yet run holds no
    directory references: reading the outputs and dispatching the cases
    both raise [AttributeError] for [test_build], before any file is
    validated and before any command is started. *)
Theorem fresh_object_has_no_references
    (a : args) (out : list string) (self : Executor) (w : world) :
  init a = (out, Ok self) →
  inputs self = None ∧ outputs self = None ∧ test_build self = None
  ∧ read_out_files Data Info validate_file load_output self
    = Raise (AttributeError "test_build")
  ∧ _run_openfast_cases run_openfast_case self w
    = (w, Raise (AttributeError "test_build")).
Proof.
  intros (system & j & _ & _ & _ & ->)%init_Ok_shape.
  unfold validate_output_type. by destruct (negb _).
Qed.

End ConstructedObject.

Lemma constructed_object_invariants_witness :
  ∃ self,
    Sample.construct (Sample.request Sample.three_cases Sample.both_executables
                        "Windows" "GNU" (-1)) = ([fallback_message], Ok self)
    ∧ output_type self ∈ output_type_opts
    ∧ compiler self = "GNU".
Proof.
  destruct (Sample.construct
              (Sample.request Sample.three_cases Sample.both_executables
                 "Windows" "GNU" (-1))) as [out r] eqn:E.
  evaluated E.
  eexists. split; [reflexivity |].
  match type of E with _ = (_, Ok ?s) =>
    destruct (constructed_object_invariants "Linux" 10 Sample.valid_executable
                Sample.valid_directory _ _ s E) as (Ho & _ & _ & Hc & _)
  end.
  split; [exact Ho | exact Hc].
Defined.

Lemma fresh_object_has_no_references_witness :
  ∃ self,
    Sample.construct (Sample.plan ["AOC_WSt"]) = ([], Ok self)
    ∧ read_out_files string unit Sample.lenient_validate
        (Sample.load_content Sample.outputs_tree) self
      = Raise (AttributeError "test_build")
    ∧ _run_openfast_cases Sample.quiet_case self Sample.empty_world
      = (Sample.empty_world, Raise (AttributeError "test_build")).
Proof.
  destruct (Sample.construct (Sample.plan ["AOC_WSt"])) as [out r] eqn:E.
  evaluated E.
  eexists. split; [reflexivity |].
  match type of E with _ = (_, Ok ?s) =>
    destruct (fresh_object_has_no_references "Linux" 10 Sample.valid_executable
                Sample.valid_directory string unit Sample.lenient_validate
                (Sample.load_content Sample.outputs_tree) Sample.quiet_case
                _ _ s Sample.empty_world E) as (_ & _ & _ & Hr & Hd)
  end.
  split; [exact Hr | exact Hd].
Defined.

(** ** What [read_out_files] returns *)

Section ReadResult.

Variables Data Info : Type.
Variable validate_file : path -> option exn.
Variable load_output : path -> res (Data * Info).

Local Abbreviation read_one' := (read_one Data Info validate_file load_output).
Local Abbreviation read_out_files' :=
  (read_out_files Data Info validate_file load_output).

Lemma read_one_Ok acc item acc' :
  read_one' acc item = Ok acc' ↔
  readable validate_file item
  ∧ ∃ test base,
      load_output (local_file item) = Ok test
      ∧ load_output (baseline_file item) = Ok base
      ∧ acc' = (fst (fst acc) ++ [fst (fst item)], snd (fst acc) ++ [base],
                snd acc ++ [test]).
Proof.
  destruct item as [[c out_dir] target]. unfold readable, local_file, baseline_file.
  cbn [fst snd]. split.
  - intros H. destruct (decide (registered c)) as [Hc | Hc].
    + destruct (decide (category_of c = linear)) as [Hl | Hl].
      * rewrite read_one_linear in H; [done |].
        by rewrite (dict_get_registered _ Hc), Hl.
      * rewrite read_one_files in H by done.
        destruct (validate_file (join out_dir _)); [done |].
        destruct (validate_file (join target _)); [done |].
        simpl in H.
        destruct (load_output (join out_dir _)) as [test |]; [| done].
        destruct (load_output (join target _)) as [base |]; [| done].
        simpl in H. injection H as <-. eauto 10.
    + unfold read_one in H. destruct acc as [[cl bl] tl].
      by rewrite (dict_get_not_in _ _ Hc) in H.
  - intros ((Hc & Hl & Hv1 & Hv2) & test & base & Ht & Hb & ->).
    rewrite read_one_files by done. by rewrite Hv1, Hv2, Ht, Hb.
Qed.

Lemma res_fold_read_Ok items : ∀ acc acc',
  res_fold read_one' items acc = Ok acc' ↔
  Forall (readable validate_file) items
  ∧ ∃ tests bases,
      map (fun item => load_output (local_file item)) items = map Ok tests
      ∧ map (fun item => load_output (baseline_file item)) items = map Ok bases
      ∧ acc' = (fst (fst acc) ++ map (fun item => fst (fst item)) items,
                snd (fst acc) ++ bases, snd acc ++ tests).
Proof.
  induction items as [| item items IH]; intros acc acc'; cbn [res_fold map].
  - split.
    + intros [= <-]. split; [constructor |]. exists [], [].
      rewrite !app_nil_r. by destruct acc as [[] ?].
    + intros (_ & tests & bases & Ht & Hb & ->).
      destruct tests; [| done]. destruct bases; [| done].
      rewrite !app_nil_r. by destruct acc as [[] ?].
  - split.
    + intros (acc1 & H1 & H2)%res_bind_Ok.
      apply read_one_Ok in H1 as (Hr & test & base & Ht & Hb & ->).
      apply IH in H2 as (Hrs & tests & bases & Hts & Hbs & ->).
      split; [by constructor |]. exists (test :: tests), (base :: bases).
      cbn [map fst snd]. rewrite Ht, Hb, Hts, Hbs, <- !app_assoc. done.
    + intros ([Hr Hrs]%Forall_cons & tests & bases & Hts & Hbs & ->).
      destruct tests as [| test tests]; [done |].
      destruct bases as [| base bases]; [done |].
      cbn [map] in Hts, Hbs. injection Hts as Ht Hts. injection Hbs as Hb Hbs.
      assert (H1 : read_one' acc item
                   = Ok (fst (fst acc) ++ [fst (fst item)], snd (fst acc) ++ [base],
                         snd acc ++ [test])).
      { apply read_one_Ok. eauto 10. }
      rewrite H1, res_bind_Ok_l. apply IH. split; [done |].
      exists tests, bases. cbn [fst snd]. by rewrite <- !app_assoc.
Qed.

Lemma read_out_files_Ok_iff
    (self : Executor) (case_list : list string)
    (baseline_list test_list : list (Data * Info)) :
  read_out_files' self = Ok (case_list, baseline_list, test_list) ↔
  ∃ tests outs,
    test_build self = Some tests ∧ outputs self = Some outs
    ∧ Forall (readable validate_file) (zip3 (case self) tests outs)
    ∧ case_list = map (fun item => fst (fst item)) (zip3 (case self) tests outs)
    ∧ map (fun item => load_output (baseline_file item))
          (zip3 (case self) tests outs) = map Ok baseline_list
    ∧ map (fun item => load_output (local_file item))
          (zip3 (case self) tests outs) = map Ok test_list.
Proof.
  unfold read_out_files. split.
  - intros (tests & Ht & (outs & Ho & H)%res_bind_Ok)%res_bind_Ok.
    destruct (test_build self) as [tests' |]; [| done].
    destruct (outputs self) as [outs' |]; [| done].
    injection Ht as ->. injection Ho as ->.
    apply res_fold_read_Ok in H as (Hr & ts & bs & Hts & Hbs & [= -> -> ->]).
    exists tests, outs. by rewrite Hts, Hbs.
  - intros (tests & outs & -> & -> & Hr & -> & Hbs & Hts).
    cbn [attr]. rewrite !res_bind_Ok_l.
    apply res_fold_read_Ok. split; [done |]. eauto.
Qed.

(** X14.  [read_out_files] returns exactly when the references are built,
    every case of the plan is registered and not linear, both files of
    every case pass the validator and both load.  It then returns the case
    names in the order of the plan, and at each position the data loaded
    from the baseline directory and from the build directory of that
    case: the three lists have the same length and no case is left out. *)
Theorem read_out_files_returns_iff
    (self : Executor) (case_list : list string)
    (baseline_list test_list : list (Data * Info)) :
  read_out_files' self = Ok (case_list, baseline_list, test_list) ↔
  ∃ tests outs,
    test_build self = Some tests ∧ outputs self = Some outs
    ∧ Forall (readable validate_file) (zip3 (case self) tests outs)
    ∧ case_list = map (fun item => fst (fst item)) (zip3 (case self) tests outs)
    ∧ map (fun item => load_output (baseline_file item))
          (zip3 (case self) tests outs) = map Ok baseline_list
    ∧ map (fun item => load_output (local_file item))
          (zip3 (case self) tests outs) = map Ok test_list.
Proof. apply read_out_files_Ok_iff. Qed.

(** X15.  The lists [read_out_files] returns are aligned: they have one
    length, which is the number of cases of the plan once the references
    are built by [_build_directory_references]. *)
Theorem read_out_files_lists_aligned
    (self0 self : Executor) (case_list : list string)
    (baseline_list test_list : list (Data * Info)) :
  _build_directory_references self0 = (self, Ok tt) →
  read_out_files' self = Ok (case_list, baseline_list, test_list) →
  case_list = case self
  ∧ length baseline_list = length (case self)
  ∧ length test_list = length (case self).
Proof.
  intros [_ ->]%build_references_Ok
         (tests & outs & Ht & Ho & _ & -> & Hbs & Hts)%read_out_files_Ok_iff.
  cbn in Ht, Ho. injection Ht as <-. injection Ho as <-.
  apply (f_equal (@length _)) in Hbs, Hts. rewrite !length_map in Hbs, Hts.
  assert (Hlen : length (zip3 (case self0) (map (test_of self0) (case self0))
                           (map (output_of self0) (case self0)))
                 = length (case self0)).
  { unfold zip3. rewrite !length_combine, !length_map. lia. }
  unfold with_references in *. cbn [case set_references] in *.
  split; [| split; [lia | lia]].
  unfold zip3. clear. induction (case self0) as [| c cs IH]; [done |].
  cbn [map combine fst]. by f_equal.
Qed.

End ReadResult.

(** ** What the materialization touches, whatever its outcome *)

Lemma m_bind_cases {S A B : Type} (m : M S A) (k : A -> M S B) s s' r :
  m_bind m k s = (s', r) →
  (∃ e, m s = (s', Raise e) ∧ r = Raise e)
  ∨ (∃ s1 a, m s = (s1, Ok a) ∧ k a s1 = (s', r)).
Proof.
  unfold m_bind. destruct (m s) as [s1 [a | e]].
  - right. eauto.
  - intros [= <- <-]. left. eauto.
Qed.

(** An entry that no write may target is kept. *)
Lemma evolves_keeps (W : path -> path -> Prop) (N : path -> Prop)
    (t t' : tree) (d0 : path) (v : node) :
  (∀ s, ¬ W s d0) → evolves W N t t' → t !! d0 = Some v → t' !! d0 = Some v.
Proof.
  intros HW.
  induction 1 as [t | t t' t'' Hsub Hnew _ IH
                 | t src d content t'' Hsrc Hd Hw Hn _ IH]; intros Hv.
  - done.
  - apply IH. by eapply lookup_weaken.
  - apply IH. rewrite lookup_insert_ne; [done |]. intros ->. by eapply HW.
Qed.

Lemma workspace_related self (P : string -> Prop) p :
  workspace self P p → related (local_results self) p.
Proof.
  intros [Hpre | (name & rest & _ & ->)]; [by right | left].
  by apply prefix_app_r.
Qed.

(** [_check_5MW_dll_files] copies a library only when its name is not a
    file of the target folder: a file of that folder keeps its content. *)
Lemma check_dll_files_keeps self t t' r x content :
  _check_5MW_dll_files self t = (t', r) →
  t !! (servo_target self ++ [x]) = Some (File content) →
  t' !! (servo_target self ++ [x]) = Some (File content).
Proof.
  set (d0 := servo_target self ++ [x]).
  set (W := fun (_ d : path) => d ≠ d0).
  intros Hrun Hv.
  assert (HW : ∀ s, ¬ W s d0) by (intros s Hs; by apply Hs).
  assert (Hev : evolves W anywhere t t');
    [| by eapply evolves_keeps].
  revert Hrun. unfold _check_5MW_dll_files. rewrite servo_target_join.
  assert (Hmk : ∀ s s' r',
            m_when (negb (isdir s (servo_target self)))
              (fs_step (fun t => makedirs t (servo_target self))) s = (s', r') →
            evolves W anywhere s s').
  { intros s s' r'. apply m_when_evolves. intros u u' r''.
    by apply makedirs_evolves. }
  intros [(e & H1 & _) | (t1 & [] & H1 & H2)]%m_bind_cases; [by eapply Hmk |].
  assert (E1 : evolves W anywhere t t1) by (by eapply Hmk).
  eapply evolves_trans; [exact E1 |].
  eapply (m_for_evolves_inv W anywhere (fun s => s !! d0 = Some (File content)));
    [| | | exact H2].
  - intros s s' Hs Hevs. by eapply evolves_keeps.
  - intros f s s' r' Hf Hs. unfold join.
    destruct (isfile s (servo_target self ++ [List.last f ""])) eqn:Hfile;
      cbn [negb m_when].
    + intros [= <- _]. constructor.
    + apply copy_evolves. intros d Hd. split; [| done]. unfold W, d0.
      destruct Hd as [-> | ->].
      * intros Heq. apply (f_equal (@length _)) in Heq.
        rewrite length_app in Heq. simpl in Heq. lia.
      * assert (Hne : f ≠ []).
        { intros ->. clear -Hf. unfold dll_files in Hf. set_solver. }
        unfold basename. rewrite last_app_nonempty by done.
        intros [= Heq]%app_inv_head. rewrite Heq in Hfile.
        assert (isfile s d0 = true) by (apply isfile_true; eauto).
        unfold d0 in *. congruence.
  - by eapply evolves_keeps.
Qed.

Section MaterializeOutcome.

Variable cwd : path.
Variable ignore_baseline : path -> list string -> list string.
Variable self : Executor.
Hypothesis Hlayout : standard_layout self.
Hypothesis Href : referenced self.

Local Abbreviation materialize :=
  (_build_test_output_directories cwd ignore_baseline self).
Local Abbreviation in_baseline := (workspace self baseline_entry).
Local Abbreviation in_other := (workspace self other_entry).

(** The stages of one materialization, whatever its outcome: the first
    three act outside the baseline folder, then the library check and the
    baseline copy act inside it. *)
Lemma materialize_stages t t' r :
  (t !! servo_target self = Some Dir → t !! baseline_target self = Some Dir) →
  materialize t = (t', r) →
  ∃ tc td,
    evolves any_write in_other t tc
    ∧ (td = tc ∨ ∃ r4, _check_5MW_dll_files self tc = (td, r4))
    ∧ evolves (baseline_writes self) in_baseline td t'.
Proof.
  intros Hparent Hrun.
  destruct (materialize_unfold cwd ignore_baseline self Href)
    as (dirs & l & Hdirs & Hl & Hunf).
  rewrite Hunf in Hrun.
  assert (Hlsub : ∀ c, c ∈ l → c ∈ case self) by (intros c Hc; by apply Hl).
  apply m_bind_cases in Hrun as [(e & H1 & _) | (ta & [] & H1 & Hrun)].
  { exists t', t'. split; [by eapply shared_directories_evolve |].
    split; [by left | constructor]. }
  assert (E1 : evolves any_write in_other t ta)
    by (by eapply shared_directories_evolve).
  apply m_bind_cases in Hrun as [(e & H2 & _) | (tb & [] & H2 & Hrun)].
  { exists t', t'. split; [| split; [by left | constructor]].
    eapply evolves_trans; [exact E1 |]. by eapply build_test_directory_evolves. }
  assert (E2 : evolves any_write in_other ta tb)
    by (by eapply build_test_directory_evolves).
  assert (I2 : build_directories_exist self tb).
  { intros c Hc. by eapply build_test_directory_post. }
  assert (E3 : ∀ tc r3, _build_beamdyn_output_directories self l tb = (tc, r3) →
                 evolves any_write in_other t tc).
  { intros tc r3 H3. eapply evolves_trans; [exact E1 |].
    eapply evolves_trans; [exact E2 |].
    eapply evolves_weaken; [| | by eapply beamdyn_directories_evolve]; done. }
  apply m_bind_cases in Hrun as [(e & H3 & _) | (tc & [] & H3 & Hrun)].
  { exists t', t'. split; [by eapply E3 |]. split; [by left | constructor]. }
  assert (E13 : evolves any_write in_other t tc) by (by eapply E3).
  exists tc.
  apply m_bind_cases in Hrun as [(e & H4 & _) | (td & [] & H4 & H5)].
  { exists t'. split; [done |]. split; [right; eauto | constructor]. }
  exists td. split; [done |]. split; [right; eauto |].
  assert (Hparent_c : tc !! servo_target self = Some Dir
                      → tc !! baseline_target self = Some Dir).
  { unfold servo_target.
    rewrite (evolves_frame _ _ _ _ _ E13 (baseline_not_other self ["ServoData"])).
    rewrite <- (app_nil_r (baseline_target self)) at 2.
    rewrite (evolves_frame _ _ _ _ _ E13 (baseline_not_other self [])).
    by rewrite app_nil_r. }
  eapply build_5MW_evolves; [| exact H5].
  by eapply check_dll_files_post.
Qed.

Lemma materialize_evolves t t' r :
  (t !! servo_target self = Some Dir → t !! baseline_target self = Some Dir) →
  materialize t = (t', r) →
  evolves any_write (workspace self (fun _ => True)) t t'.
Proof.
  intros Hparent Hrun.
  destruct (materialize_stages t t' r Hparent Hrun) as (tc & td & E13 & H4 & E5).
  eapply evolves_trans.
  { eapply evolves_weaken; [| | exact E13]; [done |].
    intros p. by apply workspace_weaken. }
  eapply evolves_trans.
  - destruct H4 as [-> | [r4 H4]]; [constructor |].
    eapply evolves_weaken; [| | by eapply check_dll_files_evolves]; [done |].
    intros p. by apply workspace_weaken.
  - eapply evolves_weaken; [| | exact E5]; [done |].
    intros p. by apply workspace_weaken.
Qed.

Lemma materialize_keeps_library t t' r x content :
  (t !! servo_target self = Some Dir → t !! baseline_target self = Some Dir) →
  materialize t = (t', r) →
  t !! (servo_target self ++ [x]) = Some (File content) →
  t' !! (servo_target self ++ [x]) = Some (File content).
Proof.
  intros Hparent Hrun Hv.
  destruct (materialize_stages t t' r Hparent Hrun) as (tc & td & E13 & H4 & E5).
  assert (Hc : tc !! (servo_target self ++ [x]) = Some (File content)).
  { unfold servo_target in *. rewrite <- app_assoc in *.
    by rewrite (evolves_frame _ _ _ _ _ E13 (baseline_not_other self _)). }
  assert (Hd : td !! (servo_target self ++ [x]) = Some (File content)).
  { destruct H4 as [-> | [r4 H4]]; [done |]. by eapply check_dll_files_keeps. }
  eapply (evolves_keeps (fun (_ d : path) => d ≠ servo_target self ++ [x]));
    [| | exact Hd].
  - intros s Hs. by apply Hs.
  - eapply evolves_weaken; [| | exact E5]; [| done].
    intros s d (name & Hname & _ & [-> | ->]) Heq; unfold servo_target in Heq.
    + apply (f_equal (@length _)) in Heq. rewrite !length_app in Heq.
      simpl in Heq. lia.
    + rewrite <- app_assoc in Heq. apply app_inv_head in Heq.
      by injection Heq as -> _.
Qed.

(** What a successful materialization leaves behind. *)
Lemma materialize_Ok_facts t t1 :
  (t !! servo_target self = Some Dir → t !! baseline_target self = Some Dir) →
  materialize t = (t1, Ok tt) →
  (∀ c, c ∈ case self →
     isdir t1 (test_of self c) = true ∧ isdir t1 (input_of self c) = true)
  ∧ isdir t1 (servo_target self) = true
  ∧ (∀ f, f ∈ dll_files →
       isfile t1 (servo_target self ++ [List.last f ""]) = true)
  ∧ (∀ name, name ∈ children t1 (baseline_source self) →
       name ≠ "ServoData" → baseline_entry_settled self t1 name).
Proof.
  intros Hparent Hrun.
  destruct (materialize_unfold cwd ignore_baseline self Href)
    as (dirs & l & Hdirs & Hl & Hunf).
  rewrite Hunf in Hrun.
  apply m_bind_Ok in Hrun as (ta & [] & H1 & Hrun).
  apply m_bind_Ok in Hrun as (tb & [] & H2 & Hrun).
  apply m_bind_Ok in Hrun as (tc & [] & H3 & Hrun).
  apply m_bind_Ok in Hrun as (td & [] & H4 & H5).
  assert (Hlsub : ∀ c, c ∈ l → c ∈ case self) by (intros c Hc; by apply Hl).
  assert (E1 : evolves any_write in_other t ta)
    by (by eapply shared_directories_evolve).
  assert (E2 : evolves any_write in_other ta tb)
    by (by eapply build_test_directory_evolves).
  assert (P2 : ∀ c, c ∈ case self →
                 isdir tb (test_of self c) = true ∧ isdir tb (input_of self c) = true)
    by (by eapply build_test_directory_post).
  assert (I2 : build_directories_exist self tb) by (intros c Hc; by apply P2).
  assert (E3 : evolves (beamdyn_writes self) in_other tb tc)
    by (by eapply beamdyn_directories_evolve).
  assert (E4 : evolves (fun _ d => in_baseline d) in_baseline tc td)
    by (by eapply check_dll_files_evolves).
  assert (E13 : evolves any_write in_other t tc).
  { eapply evolves_trans; [exact E1 |]. eapply evolves_trans; [exact E2 |].
    by eapply evolves_weaken; [| | exact E3]. }
  assert (Hparent_c : tc !! servo_target self = Some Dir
                      → tc !! baseline_target self = Some Dir).
  { unfold servo_target.
    rewrite (evolves_frame _ _ _ _ _ E13 (baseline_not_other self ["ServoData"])).
    rewrite <- (app_nil_r (baseline_target self)) at 2.
    rewrite (evolves_frame _ _ _ _ _ E13 (baseline_not_other self [])).
    by rewrite app_nil_r. }
  destruct (check_dll_files_post self Hlayout tc td Hparent_c H4)
    as (P4s & P4b & P4f).
  assert (E5 : evolves (baseline_writes self) in_baseline td t1)
    by (by eapply build_5MW_evolves).
  destruct (build_5MW_post self Hlayout td t1 P4b H5) as (_ & P5n).
  assert (A5 : evolves any_write anywhere td t1) by (by eapply evolves_any).
  assert (A3 : evolves any_write anywhere tb t1).
  { eapply evolves_trans; [by eapply evolves_any |].
    eapply evolves_trans; [by eapply evolves_any | done]. }
  split; [| split; [| split]].
  - intros c Hc. destruct (P2 c Hc).
    split; (eapply evolves_isdir; [exact A3 | done]).
  - eapply evolves_isdir; [exact A5 | done].
  - intros f Hf. eapply evolves_isfile; [exact A5 | by apply P4f].
  - done.
Qed.

End MaterializeOutcome.

Section MaterializationProperties.

Variable platform_system : string.
Variable cpu_count : Z.
Variable validate_executable : pathlike -> option exn.
Variable validate_directory : path -> option exn.
Variable cwd : path.
Variable ignore_baseline : path -> list string -> list string.

(** X16.  The materialization of a constructed plan on a well-formed
    tree, whether it succeeds or raises part-way, changes nothing outside
    [build/local_results] and the directories leading to it: every other
    path, and in particular every path below the [r-test] sources, holds
    what it held before.  Nothing is removed: a directory stays a
    directory and a file stays a file. *)
Theorem materialization_confined_to_local_results
    (a : args) (out : list string) (self0 self : Executor)
    (t t' : tree) (r : res unit) :
  __init__ platform_system cpu_count validate_executable validate_directory a
    = (out, Ok self0) →
  _build_directory_references self0 = (self, Ok tt) →
  well_formed t →
  _build_test_output_directories cwd ignore_baseline self t = (t', r) →
  (∀ p, ¬ related (local_results self) p → t' !! p = t !! p)
  ∧ (∀ p, rtest self `prefix_of` p → t' !! p = t !! p)
  ∧ (∀ p, t !! p = Some Dir → t' !! p = Some Dir)
  ∧ (∀ p, isfile t p = true → isfile t' p = true).
Proof.
  intros Hinit Hrefs Hwf Hrun.
  destruct (prepared_layout _ _ _ _ _ _ _ _ Hinit Hrefs) as [Hlayout Href].
  assert (Hparent : t !! servo_target self = Some Dir
                    → t !! baseline_target self = Some Dir).
  { intros Hservo. apply (Hwf (baseline_target self) "ServoData").
    unfold servo_target in Hservo. by rewrite Hservo. }
  pose proof (materialize_evolves cwd ignore_baseline self Hlayout Href
                t t' r Hparent Hrun) as Hev.
  split; [| split; [| split]].
  - intros p Hp. apply (evolves_frame _ _ _ _ _ Hev).
    intros Hw. by apply Hp, (workspace_related self (fun _ => True)).
  - intros p Hp. apply (evolves_frame _ _ _ _ _ Hev).
    by apply source_outside_workspace.
  - intros p. exact (evolves_dir _ _ _ _ _ Hev).
  - intros p. exact (evolves_isfile _ _ _ _ _ Hev).
Qed.

(** X17.  After a successful materialization every case of the plan has
    its build directory, and the 5MW baseline is in place whatever the
    plan holds: the [ServoData] folder of the build tree exists with the
    three controller libraries, and every other entry of the baseline
    source folder has its counterpart in the build tree. *)
Theorem materialization_builds_every_directory
    (a : args) (out : list string) (self0 self : Executor) (t t1 : tree) :
  __init__ platform_system cpu_count validate_executable validate_directory a
    = (out, Ok self0) →
  _build_directory_references self0 = (self, Ok tt) →
  well_formed t →
  _build_test_output_directories cwd ignore_baseline self t = (t1, Ok tt) →
  (∀ c, c ∈ case self →
     isdir t1 (test_of self c) = true ∧ isdir t1 (input_of self c) = true)
  ∧ isdir t1 (servo_target self) = true
  ∧ (∀ f, f ∈ dll_files →
       isfile t1 (servo_target self ++ [List.last f ""]) = true)
  ∧ (∀ name, name ∈ children t1 (baseline_source self) →
       name ≠ "ServoData" → baseline_entry_settled self t1 name).
Proof.
  intros Hinit Hrefs Hwf Hrun.
  destruct (prepared_layout _ _ _ _ _ _ _ _ Hinit Hrefs) as [Hlayout Href].
  apply (materialize_Ok_facts cwd ignore_baseline self Hlayout Href t t1);
    [| done].
  intros Hservo. apply (Hwf (baseline_target self) "ServoData").
  unfold servo_target in Hservo. by rewrite Hservo.
Qed.

(** X18.  A file in the [ServoData] folder of the build tree is never
    written over: whatever the outcome of the materialization, such a
    file holds afterwards the content it held before.  A controller
    library is copied only when the build tree lacks it. *)
Theorem materialization_keeps_controller_libraries
    (a : args) (out : list string) (self0 self : Executor)
    (t t' : tree) (r : res unit) (x content : string) :
  __init__ platform_system cpu_count validate_executable validate_directory a
    = (out, Ok self0) →
  _build_directory_references self0 = (self, Ok tt) →
  well_formed t →
  _build_test_output_directories cwd ignore_baseline self t = (t', r) →
  t !! (servo_target self ++ [x]) = Some (File content) →
  t' !! (servo_target self ++ [x]) = Some (File content).
Proof.
  intros Hinit Hrefs Hwf Hrun.
  destruct (prepared_layout _ _ _ _ _ _ _ _ Hinit Hrefs) as [Hlayout Href].
  apply (materialize_keeps_library cwd ignore_baseline self Hlayout Href t t' r);
    [| done].
  intros Hservo. apply (Hwf (baseline_target self) "ServoData").
  unfold servo_target in Hservo. by rewrite Hservo.
Qed.

End MaterializationProperties.

(** The plan made of [bd_curved_beam], constructed and referenced, over
    a well-formed tree [T]. *)
Ltac sample_materialization T :=
  let Hp := fresh "Hp" in
  assert (Hp : Sample.prepared (Sample.plan ["bd_curved_beam"])
               = match Sample.construct (Sample.plan ["bd_curved_beam"]) with
                 | (_, Ok self) =>
                     match _build_directory_references self with
                     | (self', Ok _) => Ok self'
                     | (_, Raise e) => Raise e
                     end
                 | (_, Raise e) => Raise e
                 end) by reflexivity;
  let out := fresh "out" in let r0 := fresh "r0" in let E := fresh "E" in
  destruct (Sample.construct (Sample.plan ["bd_curved_beam"])) as [out r0] eqn:E;
  evaluated E;
  let self := fresh "self" in let rb := fresh "rb" in let Eb := fresh "Eb" in
  destruct (_build_directory_references _) as [self rb] eqn:Eb in Hp;
  evaluated Eb;
  rewrite Hp; clear Hp;
  let Hwf := fresh "Hwf" in
  assert (Hwf : well_formed T)
    by (apply well_formed_check_sound; vm_compute; reflexivity).

Lemma materialization_confined_to_local_results_witness :
  ∃ self t1 r,
    Sample.prepared (Sample.plan ["bd_curved_beam"]) = Ok self
    ∧ Sample.materialize self Sample.fixture_tree = (t1, r)
    ∧ t1 !! (Sample.beam_input ++ ["bd_driver.inp"])
      = Sample.fixture_tree !! (Sample.beam_input ++ ["bd_driver.inp"]).
Proof.
  sample_materialization Sample.fixture_tree.
  match goal with |- ∃ self t1 r, Ok ?s = Ok self ∧ _ =>
    destruct (Sample.materialize s Sample.fixture_tree) as [t1 r] eqn:Em;
    exists s, t1, r
  end.
  split; [reflexivity |]. split; [exact Em |].
  match type of Em with Sample.materialize ?s _ = _ =>
    destruct (materialization_confined_to_local_results "Linux" 10
                Sample.valid_executable Sample.valid_directory
                Sample.working_directory no_ignore
                (Sample.plan ["bd_curved_beam"]) _ _ s Sample.fixture_tree t1 r
                E Eb Hwf Em) as (_ & Hsrc & _)
  end.
  apply Hsrc. by exists ["modules"; "beamdyn"; "bd_curved_beam"; "bd_driver.inp"].
Defined.

Lemma materialization_builds_every_directory_witness :
  ∃ self t1,
    Sample.prepared (Sample.plan ["bd_curved_beam"]) = Ok self
    ∧ Sample.materialize self Sample.fixture_tree = (t1, Ok tt)
    ∧ isdir t1 Sample.servo_build = true
    ∧ isfile t1 (Sample.servo_build ++ ["DISCON.dll"]) = true.
Proof.
  sample_materialization Sample.fixture_tree.
  match goal with |- ∃ self t1, Ok ?s = Ok self ∧ _ =>
    assert (Hs : snd (Sample.materialize s Sample.fixture_tree) = Ok tt)
      by (vm_compute; reflexivity);
    destruct (Sample.materialize s Sample.fixture_tree) as [t1 r] eqn:Em;
    simpl in Hs; subst r;
    exists s, t1
  end.
  split; [reflexivity |]. split; [exact Em |].
  match type of Em with Sample.materialize ?s _ = _ =>
    destruct (materialization_builds_every_directory "Linux" 10
                Sample.valid_executable Sample.valid_directory
                Sample.working_directory no_ignore
                (Sample.plan ["bd_curved_beam"]) _ _ s Sample.fixture_tree t1
                E Eb Hwf Em) as (_ & Hservo & Hdll & _)
  end.
  split; [exact Hservo |].
  apply (Hdll ["DISCON"; "build"; "DISCON.dll"]). unfold dll_files. by left.
Defined.

Lemma materialization_keeps_controller_libraries_witness :
  ∃ self t1,
    Sample.prepared (Sample.plan ["bd_curved_beam"]) = Ok self
    ∧ Sample.materialize self Sample.fixture_with_library = (t1, Ok tt)
    ∧ t1 !! (Sample.servo_build ++ ["DISCON.dll"])
      = Some (File "controller, rebuilt locally").
Proof.
  sample_materialization Sample.fixture_with_library.
  match goal with |- ∃ self t1, Ok ?s = Ok self ∧ _ =>
    assert (Hs : snd (Sample.materialize s Sample.fixture_with_library) = Ok tt)
      by (vm_compute; reflexivity);
    destruct (Sample.materialize s Sample.fixture_with_library) as [t1 r] eqn:Em;
    simpl in Hs; subst r;
    exists s, t1
  end.
  split; [reflexivity |]. split; [exact Em |].
  match type of Em with Sample.materialize ?s _ = _ =>
    apply (materialization_keeps_controller_libraries "Linux" 10
             Sample.valid_executable Sample.valid_directory
             Sample.working_directory no_ignore
             (Sample.plan ["bd_curved_beam"]) _ _ s Sample.fixture_with_library
             t1 (Ok tt) "DISCON.dll" "controller, rebuilt locally" E Eb Hwf Em)
  end.
  vm_compute. reflexivity.
Defined.

Lemma read_out_files_lists_aligned_witness :
  ∃ self0 self case_list baseline_list test_list,
    _build_directory_references self0 = (self, Ok tt)
    ∧ read_out_files string unit (Sample.strict_validate Sample.outputs_tree)
        (Sample.load_content Sample.outputs_tree) self
      = Ok (case_list, baseline_list, test_list)
    ∧ case_list = ["AOC_WSt"]
    ∧ length baseline_list = 1%nat ∧ length test_list = 1%nat.
Proof.
  set (self0 := init_object (Sample.plan ["AOC_WSt"]) "linux").
  destruct (_build_directory_references self0) as [self rb] eqn:Eb.
  evaluated Eb.
  match type of Eb with _ = (?s, _) =>
    destruct (read_out_files string unit
                (Sample.strict_validate Sample.outputs_tree)
                (Sample.load_content Sample.outputs_tree) s) as [[[cl bl] tl] |] eqn:Er;
    [| vm_compute in Er; discriminate];
    exists self0, s, cl, bl, tl;
    split; [exact Eb |]; split; [exact Er |];
    exact (read_out_files_lists_aligned string unit
             (Sample.strict_validate Sample.outputs_tree)
             (Sample.load_content Sample.outputs_tree) self0 s cl bl tl Eb Er)
  end.
Defined.

(** ** [create_results_summary] *)

Section ResultsSummaryFacts.

Variable call_object : pyobj unit -> list (pyobj unit) -> res unit.

Local Abbreviation summary := (create_results_summary call_object).

Lemma build_directory_of_referenced self c :
  c ∈ case self →
  build_directory_of (with_references self) c = Ok (test_of self c).
Proof.
  intros Hc. unfold build_directory_of. cbn [with_references set_references
    test_build case attr]. rewrite res_bind_Ok_l.
  destruct (list_index_elem c (case self) Hc) as (i & -> & Hi).
  rewrite res_bind_Ok_l. unfold item.
  by rewrite list_lookup_fmap, Hi.
Qed.

Lemma res_map_Ok_all {A B : Type} (f : A -> res B) (g : A -> B) (xs : list A) :
  (∀ x, x ∈ xs → f x = Ok (g x)) → res_map f xs = Ok (map g xs).
Proof.
  induction xs as [| x xs IH]; intros Hf; [done |].
  cbn [res_map map]. rewrite (Hf x) by (by left). rewrite res_bind_Ok_l.
  rewrite IH by (intros y Hy; apply Hf; by right). done.
Qed.

(** X19.  [create_results_summary] never returns: whatever the object,
    the case list and the plot path are, it raises.  When the plot path is
    given, or when the list is empty, the exception is the [NameError] of
    the unbound name [create_case_summary]. *)
Theorem results_summary_never_returns
    (self : Executor) (case_list : list string) (plot_path : plot_path_value) :
  (∃ plot_path' e, summary self case_list plot_path = (plot_path', Raise e))
  ∧ (plot_path ≠ PlotNone ∨ case_list = [] →
     snd (summary self case_list plot_path)
     = Raise (NameError "create_case_summary")).
Proof.
  unfold create_results_summary, m_bind, m_lift. split.
  - destruct plot_path; [| eauto | eauto].
    destruct (res_map _ case_list); eauto.
  - intros [Hp | ->]; [by destruct plot_path | by destruct plot_path].
Qed.

(** X20.  Without a plot path, on an object whose references are built
    and for cases of the plan, the method first sets the plot path to the
    build directory of each case of the list, in the order of the list,
    and then raises the [NameError] of [create_case_summary]. *)
Theorem results_summary_defaults_plot_path
    (self0 self : Executor) (case_list : list string) :
  _build_directory_references self0 = (self, Ok tt) →
  (∀ c, c ∈ case_list → c ∈ case self) →
  summary self case_list PlotNone
  = (PlotList (map (test_of self) case_list),
     Raise (NameError "create_case_summary")).
Proof.
  intros [_ ->]%build_references_Ok Hsub.
  unfold create_results_summary, m_bind, m_lift.
  rewrite (res_map_Ok_all _ (test_of self0)); [done |].
  intros c Hc. apply build_directory_of_referenced. by apply Hsub.
Qed.

End ResultsSummaryFacts.

Lemma results_summary_defaults_plot_path_witness :
  create_results_summary (fun _ _ => Ok tt) (with_references Sample.object)
    ["bd_curved_beam"] PlotNone
  = (PlotList [Sample.beam_build], Raise (NameError "create_case_summary")).
Proof.
  apply (results_summary_defaults_plot_path (fun _ _ => Ok tt) Sample.object
           (with_references Sample.object) ["bd_curved_beam"]).
  - vm_compute. reflexivity.
  - intros c [-> | []%elem_of_nil]%elem_of_cons. vm_compute. set_solver.
Defined.

(** ** The input directories are not copied again *)



(** ** The plotting script *)

Lemma append_empty_r (s : string) : s +:+ "" = s.
Proof.
  induction s as [| a s IH]; [done |].
  change (String a (s +:+ "") = String a s). by f_equal.
Qed.

Lemma append_assoc (s t u : string) : (s +:+ t) +:+ u = s +:+ (t +:+ u).
Proof.
  induction s as [| a s IH]; [done |].
  change (String a ((s +:+ t) +:+ u) = String a (s +:+ (t +:+ u))). by f_equal.
Qed.

Lemma split_on_no_sep sep s : ∀ cur,
  contains s (String sep "") = false → split_on sep cur s = [cur +:+ s].
Proof.
  induction s as [| a s IH]; intros cur; cbn [split_on contains startswith].
  - intros _. by rewrite append_empty_r.
  - destruct (Ascii.eqb a sep) eqn:E; rewrite (Ascii.eqb_sym sep a), E;
      cbn [andb orb]; [done |].
    intros Hs. rewrite IH by done. by rewrite append_assoc.
Qed.

Lemma split_on_nonempty sep s cur : split_on sep cur s ≠ [].
Proof.
  revert cur. induction s as [| a s IH]; intros cur; cbn [split_on]; [done |].
  destruct (Ascii.eqb a sep); [done | apply IH].
Qed.

Lemma last_cons_nonempty {A : Type} (x d : A) (l : list A) :
  l ≠ [] → List.last (x :: l) d = List.last l d.
Proof. by destruct l. Qed.

Lemma split_on_last sep d name : ∀ cur,
  List.last (split_on sep cur (d +:+ String sep name)) ""
  = List.last (split_on sep "" name) "".
Proof.
  induction d as [| a d IH]; intros cur.
  - change ("" +:+ String sep name) with (String sep name).
    cbn [split_on]. rewrite Ascii.eqb_refl.
    apply last_cons_nonempty, split_on_nonempty.
  - change (String a d +:+ String sep name) with (String a (d +:+ String sep name)).
    cbn [split_on]. destruct (Ascii.eqb a sep).
    + rewrite last_cons_nonempty by apply split_on_nonempty. apply IH.
    + apply IH.
Qed.

Lemma contains_app_png name :
  contains name "\" = false → contains (name +:+ ".png") "\" = false.
Proof.
  induction name as [| a name IH]; [done |].
  change (String a name +:+ ".png") with (String a (name +:+ ".png")).
  cbn [contains startswith].
  destruct (Ascii.eqb _ a); [done |]. cbn [andb orb]. exact IH.
Qed.

Lemma replace_png_suffix name :
  contains name ".png" = false →
  replace_from ".png" "" 0 (name +:+ ".png") = name.
Proof.
  induction name as [| a name IH]; [done |].
  cbn [contains]. intros [Hhere Hrest]%orb_false_elim.
  change (String a name +:+ ".png") with (String a (name +:+ ".png")).
  cbn [replace_from].
  assert (Hno : startswith (String a (name +:+ ".png")) ".png" = false).
  { revert Hhere. cbn [startswith].
    destruct (Ascii.eqb "." a); [| done]. cbn [andb].
    destruct name as [| b [| c [| d name]]]; cbn;
      try (destruct (Ascii.eqb "p" _); [| done]; cbn [andb]);
      try (destruct (Ascii.eqb "n" _); [| done]; cbn [andb]);
      try (destruct (Ascii.eqb "g" _); [| done]; cbn [andb]);
      done. }
  rewrite Hno. by rewrite IH.
Qed.

(** X22.  The title of the figure.  For an input path made of a directory
    part that is empty or ends in a backslash and of a name without a
    backslash and without [.png], the title is the name.  The path is cut
    at backslashes only: of a path written with forward slashes the title
    is the whole path. *)
Theorem plot_title_is_last_backslash_piece (dir name : string) :
  dir = "" ∨ (∃ d, dir = d +:+ "\") →
  contains name "\" = false →
  contains name ".png" = false →
  plot_title_of (output_path_of (dir +:+ name)) = name.
Proof.
  intros Hdir Hsep Hpng. unfold plot_title_of, output_path_of, split, replace.
  assert (Hlast : List.last (split_on backslash "" ((dir +:+ name) +:+ ".png")) ""
                  = name +:+ ".png").
  { assert (Hn : List.last (split_on backslash "" (name +:+ ".png")) ""
                 = name +:+ ".png").
    { rewrite split_on_no_sep; [done |]. by apply contains_app_png. }
    destruct Hdir as [-> | [d ->]]; [done |].
    replace (((d +:+ "\") +:+ name) +:+ ".png")
      with (d +:+ String backslash (name +:+ ".png")).
    - by rewrite split_on_last.
    - by rewrite !append_assoc. }
  rewrite Hlast. by apply replace_png_suffix.
Qed.

Lemma plot_title_is_last_backslash_piece_witness :
  plot_title_of (output_path_of ("C:\runs\" +:+ "AOC_WSt.outb")) = "AOC_WSt.outb"
  ∧ plot_title_of (output_path_of ("" +:+ "/home/user/runs/AOC_WSt.outb"))
    = "/home/user/runs/AOC_WSt.outb".
Proof.
  split.
  - apply (plot_title_is_last_backslash_piece "C:\runs\" "AOC_WSt.outb");
      [right; by exists "C:\runs" | reflexivity | reflexivity].
  - apply (plot_title_is_last_backslash_piece "" "/home/user/runs/AOC_WSt.outb");
      [by left | reflexivity | reflexivity].
Defined.

Section ScriptFacts.

Variables Json Frame : Type.
Variable is_file : string -> bool.
Variable read_text : string -> res string.
Variable json_loads : string -> res Json.
Variable to_dataframe : string -> res Frame.
Variable plot : Frame -> Json -> string -> string -> res unit.

(** X23.  A path that is not a file leaves its name unbound.  When the
    [-l] argument is not a file the script raises [NameError] for
    [path_cc], whatever the [-i] argument is; when the variable list was
    read and parsed and the [-i] argument is not a file it raises
    [NameError] for [input_path].  In both cases nothing is plotted and
    nothing is printed. *)
Theorem script_unbound_names (l i : string) :
  (is_file l = false →
     __main__ Json Frame is_file read_text json_loads to_dataframe plot l i
     = ([], Raise (NameError "path_cc")))
  ∧ (∀ text data, is_file l = true → read_text l = Ok text →
       json_loads text = Ok data → is_file i = false →
       __main__ Json Frame is_file read_text json_loads to_dataframe plot l i
       = ([], Raise (NameError "input_path"))).
Proof.
  unfold __main__. split.
  - by intros ->.
  - intros text data -> Hr Hj ->. cbn [load_name].
    by rewrite res_bind_Ok_l, Hr, res_bind_Ok_l, Hj.
Qed.

(** X24.  The script prints exactly when every step succeeded, and then
    one line that names the output path, which is the [-i] argument
    followed by [.png]: both arguments name files, and the plotting
    function was handed the frame of the [-i] file, the parsed content of
    the [-l] file, that output path and its title. *)
Theorem script_prints_iff_plotted (l i : string) (out : list string) (r : res unit) :
  __main__ Json Frame is_file read_text json_loads to_dataframe plot l i
    = (out, r) →
  (out ≠ [] ↔ r = Ok tt)
  ∧ (r = Ok tt →
       out = [nl +:+ "PNG is successfully generated and stored here:" +:+ nl
                +:+ i +:+ ".png"]
       ∧ is_file l = true ∧ is_file i = true
       ∧ ∃ text data df,
           read_text l = Ok text ∧ json_loads text = Ok data
           ∧ to_dataframe i = Ok df
           ∧ plot df data (i +:+ ".png") (plot_title_of (i +:+ ".png")) = Ok tt).
Proof.
  unfold __main__.
  destruct (is_file l) eqn:Hl; cbn [load_name];
    [| intros [= <- <-]; split; [done | done]].
  rewrite res_bind_Ok_l.
  destruct (read_text l) as [text |] eqn:Ht;
    [| intros [= <- <-]; split; [done | done]].
  rewrite res_bind_Ok_l.
  destruct (json_loads text) as [data |] eqn:Hj;
    [| intros [= <- <-]; split; [done | done]].
  rewrite res_bind_Ok_l.
  destruct (is_file i) eqn:Hi; cbn [load_name];
    [| intros [= <- <-]; split; [done | done]].
  rewrite res_bind_Ok_l.
  destruct (to_dataframe i) as [df |] eqn:Hd;
    [| intros [= <- <-]; split; [done | done]].
  rewrite res_bind_Ok_l. unfold output_path_of.
  destruct (plot df data _ _) as [[] |] eqn:Hp; intros [= <- <-].
  - split; [done |]. intros _. split; [done |].
    split; [done |]. split; [done |]. by exists text, data, df.
  - split; [done | done].
Qed.

End ScriptFacts.

Lemma script_prints_iff_plotted_witness :
  ∃ out r,
    __main__ string string (fun _ => true) Ok Ok Ok (fun _ _ _ _ => Ok tt)
      "variables.json" "AOC_WSt.outb" = (out, r)
    ∧ (out ≠ [] ↔ r = Ok tt).
Proof.
  destruct (__main__ string string (fun _ => true) Ok Ok Ok (fun _ _ _ _ => Ok tt)
              "variables.json" "AOC_WSt.outb") as [out r] eqn:E.
  exists out, r. split; [reflexivity |].
  exact (proj1 (script_prints_iff_plotted string string (fun _ => true) Ok Ok Ok
                  (fun _ _ _ _ => Ok tt) "variables.json" "AOC_WSt.outb" out r E)).
Defined.

(** ** [plot_dataframe_columns] *)

Section PlotFacts.

Variables Axes Column Handle : Type.
Variable subplots : nat -> res Handle.
Variable axes_item : Handle -> nat -> res Axes.

Local Abbreviation call := (figure_call Axes Column).
Local Abbreviation plot_variable' := (plot_variable Axes Column Handle axes_item).
Local Abbreviation plot_entry' := (plot_entry Axes Column Handle axes_item).
Local Abbreviation plot' :=
  (plot_dataframe_columns Axes Column Handle subplots axes_item).

(** [quiet tr tr']: the calls made from [tr] to [tr'] do not save. *)
Local Abbreviation quiet :=
  (fun tr tr' : list call =>
     ∃ calls, tr' = tr ++ calls ∧ forallb (fun c => negb (is_savefig c)) calls = true).

Lemma quiet_refl (tr : list call) : quiet tr tr.
Proof. exists []. by rewrite app_nil_r. Qed.

Lemma quiet_trans (t1 t2 t3 : list call) : quiet t1 t2 → quiet t2 t3 → quiet t1 t3.
Proof.
  intros (c1 & -> & H1) (c2 & -> & H2). exists (c1 ++ c2).
  rewrite app_assoc, forallb_app, H1, H2. done.
Qed.

Lemma quiet_emit (c : call) tr tr' r :
  is_savefig c = false → emit Axes Column c tr = (tr', r) → quiet tr tr'.
Proof.
  intros Hc [= <- _]. exists [c]. split; [done |]. cbn. by rewrite Hc.
Qed.

Lemma quiet_lift {A : Type} (r0 : res A) (tr tr' : list call) r :
  @m_lift (list call) A r0 tr = (tr', r) → quiet tr tr'.
Proof. unfold m_lift. destruct r0; intros [= <- _]; apply quiet_refl. Qed.

Lemma quiet_bind {A B : Type} (m : M (list call) A) (k : A -> M (list call) B)
    tr tr' r :
  (∀ s s' r', m s = (s', r') → quiet s s') →
  (∀ a s s' r', k a s = (s', r') → quiet s s') →
  m_bind m k tr = (tr', r) → quiet tr tr'.
Proof.
  intros Hm Hk [(e & H1 & _) | (s1 & a & H1 & H2)]%m_bind_cases.
  - by eapply Hm.
  - eapply quiet_trans; [by eapply Hm | by eapply Hk].
Qed.

Lemma quiet_fold {A B : Type} (f : B -> A -> M (list call) B) (xs : list A) :
  (∀ b x s s' r, f b x s = (s', r) → quiet s s') →
  ∀ b tr tr' r, m_fold f xs b tr = (tr', r) → quiet tr tr'.
Proof.
  intros Hf. induction xs as [| x xs IH]; intros b tr tr' r; cbn [m_fold].
  - intros [= <- _]. apply quiet_refl.
  - apply quiet_bind; [apply Hf | intros b'; apply IH].
Qed.

Lemma quiet_ret {A : Type} (a : A) (tr tr' : list call) r :
  @m_ret (list call) A a tr = (tr', r) → quiet tr tr'.
Proof. intros [= <- _]. apply quiet_refl. Qed.

Lemma plot_variable_quiet df axes i colors linestyles ax jv tr tr' r :
  plot_variable' df axes i colors linestyles ax jv tr = (tr', r) → quiet tr tr'.
Proof.
  destruct jv as [j variable]. unfold plot_variable.
  repeat (apply quiet_bind; [intros ? ? ?; apply quiet_lift | intros ? ? ? ?]).
  apply quiet_bind; [intros ? ? ?; by apply quiet_emit | intros ? ? ? ?].
  apply quiet_ret.
Qed.

Lemma plot_entry_quiet df axes ax ie tr tr' r :
  plot_entry' df axes ax ie tr = (tr', r) → quiet tr tr'.
Proof.
  destruct ie as [i e]. unfold plot_entry.
  repeat (apply quiet_bind; [intros ? ? ?; apply quiet_lift | intros ? ? ? ?]).
  apply quiet_bind.
  { intros ? ? ?. apply quiet_fold. intros ? ? ? ? ?.
    apply plot_variable_quiet. }
  intros ax' ? ? ?.
  apply quiet_bind; [intros ? ? ?; apply quiet_lift | intros ? ? ? ?].
  repeat (apply quiet_bind; [intros ? ? ?; by apply quiet_emit | intros ? ? ? ?]).
  apply quiet_ret.
Qed.

(** X25.  The figure is written exactly when no step raised, and then as
    the last call, after the axis label and the title: whatever the frame
    and the variable list are, the calls are only added to, and a run that
    raises part-way has not saved anything. *)
Theorem figure_saved_iff_no_error
    (df : frame Column) (data : list entry) (output_path plot_title : string)
    (tr tr' : list call) (r : res unit) :
  plot' df data output_path plot_title tr = (tr', r) →
  ∃ calls,
    tr' = tr ++ calls
    ∧ match r with
      | Ok _ =>
          ∃ before,
            calls = before ++ [plt_xlabel "Time_[s]"; plt_suptitle plot_title;
                               plt_savefig output_path]
            ∧ forallb (fun c => negb (is_savefig c)) before = true
      | Raise _ => forallb (fun c => negb (is_savefig c)) calls = true
      end.
Proof.
  unfold plot_dataframe_columns.
  intros [(e & H1 & ->) | (s1 & axes & H1 & H)]%m_bind_cases.
  { by apply quiet_lift in H1. }
  apply quiet_lift in H1.
  apply m_bind_cases in H as [(e & H2 & ->) | (s2 & ax & H2 & H)].
  { eapply quiet_trans; [exact H1 |].
    revert H2. apply quiet_fold. intros b x u u' r'. apply plot_entry_quiet. }
  assert (Q2 : quiet tr s2).
  { eapply quiet_trans; [exact H1 |].
    revert H2. apply quiet_fold. intros b x u u' r'. apply plot_entry_quiet. }
  destruct Q2 as (before & -> & Hb).
  unfold m_bind, emit in H. cbn in H. injection H as <- <-.
  exists (before ++ [plt_xlabel "Time_[s]"; plt_suptitle plot_title;
                     plt_savefig output_path]).
  split.
  - by rewrite <- !app_assoc.
  - by exists before.
Qed.





End PlotFacts.

Lemma figure_saved_iff_no_error_witness :
  ∃ tr' r,
    plot_dataframe_columns nat string nat Sample.rows Sample.row
      Sample.two_columns Sample.one_variable "AOC_WSt.outb.png" "AOC_WSt.outb" []
    = (tr', r)
    ∧ ∃ calls,
        tr' = [] ++ calls
        ∧ match r with
          | Ok _ =>
              ∃ before,
                calls = before ++ [plt_xlabel "Time_[s]"; plt_suptitle "AOC_WSt.outb";
                                   plt_savefig "AOC_WSt.outb.png"]
                ∧ forallb (fun c => negb (is_savefig c)) before = true
          | Raise _ => forallb (fun c => negb (is_savefig c)) calls = true
          end.
Proof.
  destruct (plot_dataframe_columns nat string nat Sample.rows Sample.row
              Sample.two_columns Sample.one_variable "AOC_WSt.outb.png"
              "AOC_WSt.outb" []) as [tr' r] eqn:E.
  exists tr', r. split; [reflexivity |].
  exact (figure_saved_iff_no_error nat string nat Sample.rows Sample.row
           Sample.two_columns Sample.one_variable "AOC_WSt.outb.png"
           "AOC_WSt.outb" [] tr' r E).
Defined.



(** ** The whole catalog *)

Section WholeCatalog.

Variable platform_system : string.
Variable cpu_count : Z.
Variable validate_executable : pathlike -> option exn.
Variable validate_directory : path -> option exn.
Variables Data Info : Type.
Variable validate_file : path -> option exn.
Variable load_output : path -> res (Data * Info).

(** X28.  The case argument ["all"] plans the whole catalog: the object
    holds the 36 registered names and its references can always be built.
    As the catalog holds linear cases, the outputs of such a plan can
    never be read: [read_out_files] raises whatever the files are. *)
Theorem whole_catalog_is_planned_and_never_read
    (a : args) (out : list string) (self : Executor) :
  __init__ platform_system cpu_count validate_executable validate_directory a
    = (out, Ok self) →
  a_case a = CaseStr "all" →
  case self = dict_keys CASE_MAP
  ∧ length (case self) = 36%nat
  ∧ _build_directory_references self = (with_references self, Ok tt)
  ∧ ∃ e, read_out_files Data Info validate_file load_output (with_references self)
         = Raise e.
Proof.
  intros (_ & Hcase & _)%init_Ok_fields Hall.
  rewrite Hall in Hcase. cbn in Hcase.
  split; [done |]. split; [by rewrite Hcase |]. split.
  - apply build_references_Ok. split; [| done].
    rewrite Hcase. by apply Forall_forall.
  - destruct (read_out_files _ _ _ _ _) as [[[cl bl] tl] | e] eqn:E; [| eauto].
    apply read_out_files_Ok_iff in E as (tests & outs & Ht & Ho & Hr & _).
    exfalso. cbn in Ht, Ho. injection Ht as <-. injection Ho as <-.
    unfold with_references in Hr. cbn [case set_references] in Hr.
    rewrite Hcase in Hr.
    assert (Hl : readable validate_file
                   ("5MW_Land_BD_Linear", test_of self "5MW_Land_BD_Linear",
                    output_of self "5MW_Land_BD_Linear")).
    { eapply (Forall_lookup_1 _ _ 2%nat); [exact Hr | reflexivity]. }
    destruct Hl as (_ & Hl & _). by apply Hl.
Qed.

End WholeCatalog.

Lemma whole_catalog_is_planned_and_never_read_witness :
  ∃ self,
    Sample.construct (Sample.request (CaseStr "all") Sample.both_executables
                        "Linux" "gnu" (-1)) = ([], Ok self)
    ∧ length (case self) = 36%nat
    ∧ ∃ e, read_out_files string unit Sample.lenient_validate
             (Sample.load_content Sample.outputs_tree) (with_references self)
           = Raise e.
Proof.
  destruct (Sample.construct (Sample.request (CaseStr "all")
              Sample.both_executables "Linux" "gnu" (-1))) as [out r] eqn:E.
  evaluated E.
  eexists. split; [reflexivity |].
  match type of E with _ = (_, Ok ?s) =>
    destruct (whole_catalog_is_planned_and_never_read "Linux" 10
                Sample.valid_executable Sample.valid_directory string unit
                Sample.lenient_validate (Sample.load_content Sample.outputs_tree)
                _ _ s E eq_refl) as (_ & Hlen & _ & Hread)
  end.
  split; [exact Hlen | exact Hread].
Defined.

(** ** The properties without a premise, at the sample inputs *)

Lemma construction_outcome_witness :
  __init__ "Linux" 10 Sample.valid_executable Sample.valid_directory
    (Sample.request Sample.three_cases Sample.both_executables "Solaris" "gnu" (-1))
  = ([], Raise (KeyError "Solaris")).
Proof.
  apply (proj1 (construction_outcome "Linux" 10 Sample.valid_executable
                  Sample.valid_directory
                  (Sample.request Sample.three_cases Sample.both_executables
                     "Solaris" "gnu" (-1)))).
  vm_compute. set_solver.
Defined.

Lemma references_succeed_iff_registered_witness :
  _build_directory_references Sample.object
  = (with_references Sample.object, Ok tt).
Proof.
  apply (proj2 (references_succeed_iff_registered Sample.object
                  (with_references Sample.object))).
  split; [| reflexivity].
  repeat constructor; apply registered_iff; vm_compute; reflexivity.
Defined.

Lemma read_out_files_returns_iff_witness :
  read_out_files string unit (Sample.strict_validate Sample.outputs_tree)
    (Sample.load_content Sample.outputs_tree)
    (with_references (init_object (Sample.plan ["AOC_WSt"]) "linux"))
  = Ok (["AOC_WSt"], [("time series", tt)], [("time series", tt)]).
Proof.
  apply (proj2 (read_out_files_returns_iff string unit
                  (Sample.strict_validate Sample.outputs_tree)
                  (Sample.load_content Sample.outputs_tree)
                  (with_references (init_object (Sample.plan ["AOC_WSt"]) "linux"))
                  ["AOC_WSt"] [("time series", tt)] [("time series", tt)])).
  eexists _, _. split; [reflexivity |]. split; [reflexivity |].
  split; [| by repeat split].
  apply Forall_cons. split; [| constructor].
  split; [apply registered_iff; vm_compute; reflexivity |].
  split; [vm_compute; discriminate |].
  split; vm_compute; reflexivity.
Defined.

Lemma results_summary_never_returns_witness :
  snd (create_results_summary (fun _ _ => Ok tt) Sample.object
         ["AOC_WSt"] (PlotStr "plots"))
  = Raise (NameError "create_case_summary").
Proof.
  apply (proj2 (results_summary_never_returns (fun _ _ => Ok tt) Sample.object
                  ["AOC_WSt"] (PlotStr "plots"))).
  by left.
Defined.

Lemma script_unbound_names_witness :
  __main__ string string (fun _ => false) Ok Ok Ok (fun _ _ _ _ => Ok tt)
    "variables.json" "AOC_WSt.outb"
  = ([], Raise (NameError "path_cc")).
Proof.
  apply (proj1 (script_unbound_names string string (fun _ => false) Ok Ok Ok
                  (fun _ _ _ _ => Ok tt) "variables.json" "AOC_WSt.outb")).
  reflexivity.
Defined.
